(** * ClassMate: the PDF question-answering service

    A shallow embedding of [server/services/pdfService.js], of the chat,
    upload and delete handlers of [server/routes/pdfChat.js] and of the
    Mongoose schemas of [server/models/pdfDocument.js].

    The service keeps three pieces of process-wide state: the [vectorStores]
    map (document filename to in-memory vector index), the [cache] (a
    NodeCache with a one hour TTL) and the MongoDB collection of
    [PdfDocument] records.  Asynchronous functions are embedded in a state
    and error monad; a thrown exception keeps the mutations made so far.
    External collaborators (PDF parser, text splitter, embedding service,
    generation model, clock) are the fields of an environment record.  *)

From stdpp Require Import gmap strings list sorting pretty.
From Stdlib Require Import ZArith Lia Ascii.
From Stdlib Require QArith Qminmax.

Local Open Scope Z_scope.

(** ** Strings and POSIX paths (Node's [path] module) *)

Module Path.

Definition sep : ascii := "/"%char.

(** [s.split('/')]: the segments between separators, empty ones included. *)
Fixpoint split (s : string) : list string :=
  match s with
  | EmptyString => [EmptyString]
  | String c s' =>
      if decide (c = sep) then EmptyString :: split s'
      else match split s' with
           | [] => [String c EmptyString]
           | seg :: segs => String c seg :: segs
           end
  end.

(** [segs.join('/')] *)
Fixpoint joinSegs (segs : list string) : string :=
  match segs with
  | [] => ""
  | [seg] => seg
  | seg :: rest => seg +:+ "/" +:+ joinSegs rest
  end.

Definition isAbsolute (p : string) : bool :=
  match p with
  | String c _ => bool_decide (c = sep)
  | EmptyString => false
  end.

Fixpoint endsWithSep (p : string) : bool :=
  match p with
  | EmptyString => false
  | String c EmptyString => bool_decide (c = sep)
  | String _ p' => endsWithSep p'
  end.

(** One segment of [normalizeString]; [res] is the stack of kept segments,
    innermost first. *)
Definition normalizeStep (allowAboveRoot : bool) (res : list string)
    (seg : string) : list string :=
  if bool_decide (seg = "" ∨ seg = ".") then res
  else if bool_decide (seg = "..") then
    match res with
    | top :: rest =>
        if bool_decide (top = "..")
        then (if allowAboveRoot then seg :: res else res)
        else rest
    | [] => if allowAboveRoot then [seg] else []
    end
  else seg :: res.

Definition normalizeString (p : string) (allowAboveRoot : bool) : string :=
  joinSegs (rev (fold_left (normalizeStep allowAboveRoot) (split p) [])).

(** [path.normalize] *)
Definition normalize (p : string) : string :=
  match p with
  | EmptyString => "."
  | _ =>
      let abs := isAbsolute p in
      let trailing := endsWithSep p in
      let body := normalizeString p (negb abs) in
      match body with
      | EmptyString =>
          if abs then "/" else if trailing then "./" else "."
      | _ =>
          let body' := if trailing then body +:+ "/" else body in
          if abs then "/" +:+ body' else body'
      end
  end.

(** [path.join(a, b)] *)
Definition join (a b : string) : string :=
  let joined :=
    match a, b with
    | EmptyString, _ => b
    | _, EmptyString => a
    | _, _ => a +:+ "/" +:+ b
    end in
  normalize joined.

(** [path.basename]: the last non-empty segment. *)
Definition basename (p : string) : string :=
  default "" (last (filter (λ seg, seg ≠ "") (split p))).

(** [s.startsWith(pre)] *)
Definition startsWith (s pre : string) : bool := String.prefix pre s.

End Path.

(** ** Data model *)

(** JavaScript [undefined] is [None]. *)

(** Chunk metadata as [processPdf] builds it: [source] and [pageNumber] from
    the initial map, [page] added by [processChunksInBatches]. *)
Record Metadata := mkMetadata {
  source : option string;
  pageNumber : option Z;
  page : option Z
}.

Record Chunk := mkChunk {
  pageContent : string;
  metadata : Metadata
}.

Global Instance Metadata_eq_dec : EqDecision Metadata.
Proof. solve_decision. Defined.
Global Instance Chunk_eq_dec : EqDecision Chunk.
Proof. solve_decision. Defined.

(** [Math.floor(index / 2) + 1] *)
Definition pageOfIndex (index : nat) : Z := Z.of_nat index / 2 + 1.

(** [docs.map((doc, index) => ({ pageContent, metadata: { source, pageNumber } }))] *)
Definition initialChunks (filename : string) (docs : list string) : list Chunk :=
  imap (λ index doc,
          {| pageContent := doc;
             metadata := {| source := Some filename;
                            pageNumber := Some (pageOfIndex index);
                            page := None |} |}) docs.

(** [{ ...chunk.metadata, page: v }] *)
Definition withPage (v : Z) (c : Chunk) : Chunk :=
  {| pageContent := pageContent c;
     metadata := {| source := source (metadata c);
                    pageNumber := pageNumber (metadata c);
                    page := Some v |} |}.

(** [chunks.slice(i, j)] *)
Definition slice {A} (l : list A) (i j : nat) : list A :=
  take (j - i) (drop i l).

(** The [for (let i = 0; i < chunks.length; i += batchSize)] loop of
    [processChunksInBatches]; [fuel] bounds the number of iterations. *)
Fixpoint batchLoop (fuel : nat) (chunks : list Chunk) (batchSize i : nat)
    (results : list Chunk) : list Chunk :=
  match fuel with
  | O => results
  | S fuel' =>
      if decide (i < length chunks)%nat then
        let batch := slice chunks i (i + batchSize) in
        let batchResults :=
          imap (λ index chunk, withPage (pageOfIndex (i + index)) chunk) batch in
        batchLoop fuel' chunks batchSize (i + batchSize)%nat (results ++ batchResults)
      else results
  end.

Definition defaultBatchSize : nat := 10.

(** [processChunksInBatches(chunks, batchSize = 10)].  With a positive
    [batchSize] the loop ends within [chunks.length] iterations. *)
Definition processChunksInBatches (chunks : list Chunk) (batchSize : nat)
    : list Chunk :=
  batchLoop (length chunks) chunks batchSize 0 [].

(** ** Retrieval results, chat turns and persisted documents *)

(** One entry of [result.sources]. *)
Record Source := mkSource {
  src_page : option Z;
  src_content : string
}.

(** The object [chatWithPdf] returns and caches. *)
Record ChatResult := mkChatResult {
  answer : string;
  sourcePages : list (option Z);
  sources : list Source
}.

Inductive Role := User | Assistant.

(** A chat turn as the chat handler builds it; a field the object literal
    does not carry is [None]. *)
Record ChatTurn := mkChatTurn {
  role : Role;
  content : string;
  turnSourcePages : option (list (option Z));
  turnSources : option (list Source);
  timestamp : Z
}.

Record PdfDocument := mkPdfDocument {
  docId : nat;
  userId : string;
  filename : string;
  originalName : string;
  pageCount : Z;
  documentChunks : list Chunk;
  chatHistory : list ChatTurn
}.

Global Instance Source_eq_dec : EqDecision Source.
Proof. solve_decision. Defined.
Global Instance ChatResult_eq_dec : EqDecision ChatResult.
Proof. solve_decision. Defined.
Global Instance Role_eq_dec : EqDecision Role.
Proof. solve_decision. Defined.
Global Instance ChatTurn_eq_dec : EqDecision ChatTurn.
Proof. solve_decision. Defined.

(** *** Mongoose schemas

    Schemas are strict: a path the schema does not declare is dropped when an
    object is cast to a (sub)document. *)

(** [documentChunkSchema] declares [pageContent], [metadata.page],
    [metadata.location.pageNumber] and [embedding]; the chunk objects carry
    [metadata.source] and [metadata.pageNumber], which it does not declare. *)
Definition castChunk (c : Chunk) : Chunk :=
  {| pageContent := pageContent c;
     metadata := {| source := None;
                    pageNumber := None;
                    page := page (metadata c) |} |}.

(** [messageSchema] declares [role], [content], [sourcePages] and
    [timestamp]; an array path that is not given defaults to [[]]. *)
Definition castMessage (m : ChatTurn) : ChatTurn :=
  {| role := role m;
     content := content m;
     turnSourcePages := Some (default [] (turnSourcePages m));
     turnSources := None;
     timestamp := timestamp m |}.

(** [content: { type: String, required: true }]: the required validator of a
    string path rejects the empty string. *)
Definition validMessage (m : ChatTurn) : bool :=
  negb (bool_decide (content m = "")).

(** The required paths of [pdfDocumentSchema] and of its chat turns. *)
Definition validPdfDocument (d : PdfDocument) : bool :=
  negb (bool_decide (userId d = ""))
  && negb (bool_decide (filename d = ""))
  && negb (bool_decide (originalName d = ""))
  && forallb validMessage (chatHistory d).

(** ** The service state and its environment *)

Section Service.

Context {Vec : Type}.

(** An entry of [MemoryVectorStore.memoryVectors]. *)
Record MemoryVector := mkMemoryVector {
  mv_content : string;
  mv_embedding : Vec;
  mv_metadata : Metadata
}.

(** A [MemoryVectorStore]; [storeId] stands for the identity of the object
    (the number of the embedding pass that built it). *)
Record VectorStore := mkVectorStore {
  memoryVectors : list MemoryVector;
  storeId : nat
}.

(** What the outside world does during one call.  Embedding vectors are
    kept abstract; of the similarity of two vectors only the order of the
    scores matters, so scores are integers. *)
Record Env := mkEnv {
  cwd : string;                                    (* process.cwd() *)
  pdfParse : string → option (string * Z);         (* text and numpages *)
  splitText : string → list string;                (* RecursiveCharacterTextSplitter *)
  embedDocuments : nat → list string → option (list Vec);
                                                   (* n-th embedding pass *)
  embedQuery : string → option Vec;
  similarity : Vec → Vec → Z;                      (* query vector, stored vector *)
  invokeModel : string → option string;            (* prompt to completion *)
  nowAtGet : Z;                                    (* Date.now() in cache.get *)
  nowAtSet : Z;                                    (* Date.now() in cache.set *)
  nowUserTurn : Z;                                 (* new Date(), user turn *)
  nowAssistantTurn : Z                             (* new Date(), assistant turn *)
}.

Record State := mkState {
  vectorStores : gmap string VectorStore;          (* const vectorStores = new Map() *)
  cache : gmap string (ChatResult * Z);            (* NodeCache: value and expiry *)
  db : list PdfDocument;                           (* the PdfDocument collection *)
  files : gmap string string;                      (* file system: path to bytes *)
  embedPasses : nat;                               (* embedding passes run so far *)
  modelCalls : nat;                                (* generation calls made so far *)
  lastId : nat                                     (* the highest _id handed out so far *)
}.

Definition setVectorStores (f : gmap string VectorStore → gmap string VectorStore)
    (st : State) : State :=
  {| vectorStores := f (vectorStores st); cache := cache st; db := db st;
     files := files st; embedPasses := embedPasses st;
     modelCalls := modelCalls st; lastId := lastId st |}.

Definition setCache (f : gmap string (ChatResult * Z) → gmap string (ChatResult * Z))
    (st : State) : State :=
  {| vectorStores := vectorStores st; cache := f (cache st); db := db st;
     files := files st; embedPasses := embedPasses st;
     modelCalls := modelCalls st; lastId := lastId st |}.

Definition setDb (f : list PdfDocument → list PdfDocument) (st : State) : State :=
  {| vectorStores := vectorStores st; cache := cache st; db := f (db st);
     files := files st; embedPasses := embedPasses st;
     modelCalls := modelCalls st; lastId := lastId st |}.

Definition setFiles (f : gmap string string → gmap string string) (st : State) : State :=
  {| vectorStores := vectorStores st; cache := cache st; db := db st;
     files := f (files st); embedPasses := embedPasses st;
     modelCalls := modelCalls st; lastId := lastId st |}.

Definition tickEmbedPasses (st : State) : State :=
  {| vectorStores := vectorStores st; cache := cache st; db := db st;
     files := files st; embedPasses := S (embedPasses st);
     modelCalls := modelCalls st; lastId := lastId st |}.

Definition tickModelCalls (st : State) : State :=
  {| vectorStores := vectorStores st; cache := cache st; db := db st;
     files := files st; embedPasses := embedPasses st;
     modelCalls := S (modelCalls st); lastId := lastId st |}.

Definition setLastId (f : nat → nat) (st : State) : State :=
  {| vectorStores := vectorStores st; cache := cache st; db := db st;
     files := files st; embedPasses := embedPasses st;
     modelCalls := modelCalls st; lastId := f (lastId st) |}.

(** *** The monad of asynchronous functions *)

Inductive Result (A : Type) :=
| Ok (a : A)
| Err (message : string).
Global Arguments Ok {A} a.
Global Arguments Err {A} message.

Definition M (A : Type) : Type := State → Result A * State.

Definition ret {A} (a : A) : M A := λ st, (Ok a, st).

Definition bind {A B} (m : M A) (k : A → M B) : M B :=
  λ st, match m st with
        | (Ok a, st') => k a st'
        | (Err e, st') => (Err e, st')
        end.

Definition throw {A} (message : string) : M A := λ st, (Err message, st).

Definition gets {A} (f : State → A) : M A := λ st, (Ok (f st), st).

Definition modify (f : State → State) : M unit := λ st, (Ok tt, f st).

(** [try { m } catch (error) { h(error.message) }] *)
Definition tryCatch {A} (m : M A) (h : string → M A) : M A :=
  λ st, match m st with
        | (Ok a, st') => (Ok a, st')
        | (Err e, st') => h e st'
        end.

End Service.

Global Arguments MemoryVector : clear implicits.
Global Arguments VectorStore : clear implicits.
Global Arguments Env : clear implicits.
Global Arguments State : clear implicits.
Global Arguments M : clear implicits.

Declare Scope service_scope.
Delimit Scope service_scope with service.
Notation "'let*' x ':=' m 'in' k" := (bind m (λ x, k))
  (at level 10, x name, m at level 100, k at level 200,
   format "'[v' 'let*'  x  ':='  m  'in'  '/' k ']'") : service_scope.
Notation "'run' m 'in' k" := (bind m (λ _, k))
  (at level 10, m at level 100, k at level 200,
   format "'[v' 'run'  m  'in'  '/' k ']'") : service_scope.

Local Open Scope service_scope.

(** ** server/services/pdfService.js *)

(** [new Set(xs)] spread back into an array: first occurrences, in order. *)
Definition setOf {A} `{EqDecision A} (xs : list A) : list A :=
  reverse (remove_dups (reverse xs)).

(** [xs.sort((a, b) => a - b)]: numbers ascending; [Array.prototype.sort]
    moves [undefined] entries behind all others without comparing them. *)
Definition sortNumbers (xs : list (option Z)) : list (option Z) :=
  (Some <$> merge_sort Z.le (omap id xs)) ++ filter (λ x, x = None) xs.

Definition newline : string := String "010"%char EmptyString.

(** [strs.join(sep)] *)
Fixpoint joinWith (sepr : string) (strs : list string) : string :=
  match strs with
  | [] => ""
  | [s] => s
  | s :: rest => s +:+ sepr +:+ joinWith sepr rest
  end.

(** [promptTemplate]: the text before [{context}], between [{context}] and
    [{question}], and after [{question}]. *)
Definition promptBeforeContext : string := "
You are an advanced AI educational assistant specializing in document analysis and comprehension. Your primary goal is to help users deeply understand the content of their documents by providing comprehensive, well-structured, and insightful responses.

Context from the document:
".

Definition promptBeforeQuestion : string := "

Question: ".

Definition promptAfterQuestion : string := "

Instructions for crafting your response:

1. ANALYSIS AND COMPREHENSION:
   - Provide a thorough analysis of the relevant information from the context
   - Break down complex concepts into understandable components
   - Highlight key terms, definitions, and important concepts
   - Make connections between different parts of the document when relevant

2. RESPONSE STRUCTURE:
   - Begin with a clear, direct answer to the question
   - Follow with supporting details and explanations
   - Include relevant examples or illustrations from the document
   - Organize information using appropriate headings or bullet points for clarity
   - Conclude with a brief summary if the response is lengthy

3. ACCURACY AND SOURCING:
   - Base your response EXCLUSIVELY on the provided context
   - Quote relevant passages directly, citing the specific location in the document
   - If information is incomplete, clearly state what is and isn't available in the context
   - Distinguish between explicit statements and reasonable inferences from the text

4. EDUCATIONAL ELEMENTS:
   - Explain technical terms or jargon when they appear
   - Provide relevant background information when it helps understanding
   - Include practical applications or real-world relevance when applicable
   - Suggest related topics or concepts for further exploration within the document

5. ENGAGEMENT AND CLARITY:
   - Use clear, professional language while maintaining an engaging tone
   - Incorporate rhetorical questions or thought-provoking points when appropriate
   - Break up long explanations with examples or practical applications
   - Use analogies or comparisons when they help clarify complex concepts

6. LIMITATIONS AND TRANSPARENCY:
   - Clearly acknowledge when information is partial or unclear
   - Specify any assumptions made in your interpretation
   - Indicate when additional context would be helpful
   - Suggest specific sections of the document for further reading

FORMAT YOUR RESPONSE AS FOLLOWS:

📌 Direct Answer:
[Provide the immediate, clear answer to the question]

🔍 Detailed Explanation:
[Expand on the answer with thorough analysis and supporting details]

💡 Key Insights:
[List important concepts, terms, or takeaways]

📑 Source References:
[Quote relevant passages with their location in the document]

🔄 Related Concepts:
[Mention connected topics or suggested further reading from the document]

Remember: Your goal is to not just answer the question, but to help the user build a comprehensive understanding of the topic within the context of their document.

Answer: ".

(** [promptTemplate] with [context] and [question] filled in. *)
Definition formatPrompt (context question : string) : string :=
  promptBeforeContext +:+ context +:+ promptBeforeQuestion +:+ question
  +:+ promptAfterQuestion.

(** [stdTTL: 3600] seconds *)
Definition stdTTL : Z := 3600.

Section ServiceCode.

Context {Vec : Type}.
Implicit Types (env : Env Vec) (st : State Vec).

(** [path.join(process.cwd(), 'uploads')] *)
Definition uploadsDir env : string := Path.join (cwd env) "uploads".

(** *** NodeCache *)

(** [cache.get(key)]: an entry whose expiry [t] lies before [Date.now()] is
    deleted and reported absent. *)
Definition cacheGet env (key : string) : M Vec (option ChatResult) :=
  let* entry := gets (λ st, cache st !! key) in
  match entry with
  | None => ret None
  | Some (v, t) =>
      if bool_decide (t ≠ 0) && bool_decide (t < nowAtGet env)
      then run modify (setCache (delete key)) in ret None
      else ret (Some v)
  end.

(** [cache.set(key, value)]: expiry is [Date.now() + stdTTL * 1000]. *)
Definition cacheSet env (key : string) (value : ChatResult) : M Vec unit :=
  modify (setCache <[key := (value, nowAtSet env + stdTTL * 1000)]>).

(** *** MemoryVectorStore *)

(** [MemoryVectorStore.fromDocuments(docs, embeddings)]: one embedding pass
    over the texts of [docs]. *)
Definition fromDocuments env (docs : list Chunk) : M Vec (VectorStore Vec) :=
  let* n := gets embedPasses in
  run modify tickEmbedPasses in
  match embedDocuments env n (pageContent <$> docs) with
  | None => throw "Embedding request failed"
  | Some vectors =>
      if decide (length docs < length vectors)%nat
      then throw "Cannot read properties of undefined (reading 'pageContent')"
      else ret {| memoryVectors :=
                    zip_with (λ v d, {| mv_content := pageContent d;
                                        mv_embedding := v;
                                        mv_metadata := metadata d |}) vectors docs;
                  storeId := n |}
  end.

(** One step of the ranking: [mv] goes behind every entry that is at least
    as similar to the query vector [qv] as [mv] is. *)
Fixpoint insertRanked env (qv : Vec) (mv : MemoryVector Vec)
    (ranked : list (MemoryVector Vec)) : list (MemoryVector Vec) :=
  match ranked with
  | [] => [mv]
  | x :: rest =>
      if decide (similarity env qv (mv_embedding x)
                 < similarity env qv (mv_embedding mv))
      then mv :: ranked
      else x :: insertRanked env qv mv rest
  end.

(** The stored vectors by decreasing similarity; entries of equal
    similarity keep the order they were stored in. *)
Definition rankBySimilarity env (qv : Vec) (mvs : list (MemoryVector Vec))
    : list (MemoryVector Vec) :=
  foldl (λ ranked mv, insertRanked env qv mv ranked) [] mvs.

(** [vectorStore.similaritySearch(question, k)]: embed the question, order
    the stored vectors by decreasing similarity, keep the first [k]. *)
Definition similaritySearch env (vectorStore : VectorStore Vec)
    (question : string) (k : nat) : M Vec (list Chunk) :=
  match embedQuery env question with
  | None => throw "Embedding request failed"
  | Some qv =>
      let ranked := rankBySimilarity env qv (memoryVectors vectorStore) in
      ret ((λ mv, {| pageContent := mv_content mv; metadata := mv_metadata mv |})
             <$> take k ranked)
  end.

(** [chain.invoke({ question })]: one call of the generation model. *)
Definition invokeChain env (context question : string) : M Vec string :=
  run modify tickModelCalls in
  match invokeModel env (formatPrompt context question) with
  | None => throw "Generation request failed"
  | Some response => ret response
  end.

(** *** processPdf *)

(** [fs.mkdir(uploadsDir, { recursive: true })] succeeds whether or not the
    directory exists; directories are not part of [files]. *)
Definition ensureUploadsDirectory : M Vec unit := ret tt.

Definition processPdf env (filePath : string) : M Vec (list Chunk * Z) :=
  tryCatch
    (run ensureUploadsDirectory in
     let normalizedPath := Path.normalize filePath in
     let uploadsPath := Path.normalize (uploadsDir env) in
     if negb (Path.startsWith normalizedPath uploadsPath)
     then throw "Invalid file path. Files must be in the uploads directory."
     else
       let* file := gets (λ st, files st !! normalizedPath) in
       match file with
       | None => throw ("PDF file not found at path: " +:+ normalizedPath)
       | Some buffer =>
           match pdfParse env buffer with
           | None => throw "Invalid PDF structure"
           | Some (text, numpages) =>
               if bool_decide (text = "")
               then throw "PDF parsing resulted in no text content"
               else
                 let docs := splitText env text in
                 let initial := initialChunks (Path.basename normalizedPath) docs in
                 let documentChunks :=
                   processChunksInBatches initial defaultBatchSize in
                 let* vectorStore := fromDocuments env documentChunks in
                 let filename := Path.basename normalizedPath in
                 run modify (setVectorStores <[filename := vectorStore]>) in
                 ret (documentChunks,
                      if bool_decide (numpages = 0)
                      then (Z.of_nat (length docs) + 1) / 2
                      else numpages)
           end
       end)
    (λ e, throw ("Failed to process PDF document: " +:+ e)).

(** *** chatWithPdf *)

(** [PdfDocument.findOne({ filename })] *)
Definition findByFilename (name : string) : M Vec (option PdfDocument) :=
  gets (λ st, head (filter (λ d, filename d = name) (db st))).

(** Lines 234-263 of [chatWithPdf]: the registered vector store of
    [filename], rebuilt from the stored chunks (or from the file) when the
    map has none. *)
Definition getVectorStore env (name : string) : M Vec (VectorStore Vec) :=
  let* registered := gets (λ st, vectorStores st !! name) in
  match registered with
  | Some vectorStore => ret vectorStore
  | None =>
      let* pdfDoc := findByFilename name in
      match pdfDoc with
      | None => throw "PDF document not found in database"
      | Some pdfDoc =>
          if decide (0 < length (documentChunks pdfDoc))%nat then
            let* vectorStore := fromDocuments env (documentChunks pdfDoc) in
            run modify (setVectorStores <[name := vectorStore]>) in
            ret vectorStore
          else
            let filePath := Path.join (uploadsDir env) name in
            let* processed := processPdf env filePath in
            let* vectorStore := fromDocuments env (fst processed) in
            run modify (setVectorStores <[name := vectorStore]>) in
            ret vectorStore
      end
  end.

(** [`pdf_query_${filename}_${question}_${chatHistory.length}`] *)
Definition cacheKey (name question : string) (historyLength : nat) : string :=
  "pdf_query_" +:+ name +:+ "_" +:+ question +:+ "_" +:+ pretty historyLength.

(** [doc.pageContent.substring(0, 150) + '...'] *)
Definition preview (text : string) : string :=
  String.substring 0 150 text +:+ "...".

Definition chatWithPdf env (name question : string)
    (history : list ChatTurn) : M Vec ChatResult :=
  tryCatch
    (let* vectorStore := getVectorStore env name in
     let key := cacheKey name question (length history) in
     let* cachedResult := cacheGet env key in
     match cachedResult with
     | Some cached => ret cached
     | None =>
         let* retrievedDocs := similaritySearch env vectorStore question 3 in
         let context := joinWith (newline +:+ newline) (pageContent <$> retrievedDocs) in
         let* response := invokeChain env context question in
         let pages :=
           sortNumbers (setOf ((λ doc, pageNumber (metadata doc)) <$> retrievedDocs)) in
         let result :=
           {| answer := response;
              sourcePages := pages;
              sources := (λ doc, {| src_page := pageNumber (metadata doc);
                                    src_content := preview (pageContent doc) |})
                           <$> retrievedDocs |} in
         run cacheSet env key result in
         ret result
     end)
    (λ e, throw e).

(** *** cleanupFile *)

(** [fs.unlink] rejects when the file does not exist; the [catch] swallows
    the error, and the [vectorStores.delete] after it is then skipped. *)
Definition cleanupFile env (filePath : string) : M Vec unit :=
  tryCatch
    (let normalizedPath := Path.normalize filePath in
     let* present := gets (λ st, files st !! normalizedPath) in
     match present with
     | None => throw "ENOENT: no such file or directory"
     | Some _ =>
         run modify (setFiles (delete normalizedPath)) in
         modify (setVectorStores (delete normalizedPath))
     end)
    (λ _, ret tt).

End ServiceCode.

(** ** server/routes/pdfChat.js *)

Inductive Response :=
| RespChat (message : string) (pages : list (option Z)) (srcs : list Source)
    (history : list ChatTurn)
| RespUpload (id : nat) (name : string) (pages : Z)
| RespSuccess
| RespError (status : nat) (error : string).

(** [req.file] as multer leaves it. *)
Record UploadedFile := mkUploadedFile {
  up_path : string;
  up_filename : string;
  up_originalname : string
}.

(** [req.headers['x-user-id']] passes [if (!userId)] unless it is missing or
    empty. *)
Definition presentHeader (h : option string) : option string :=
  match h with
  | Some "" => None
  | _ => h
  end.

Definition withChatHistory (history : list ChatTurn) (d : PdfDocument) : PdfDocument :=
  {| docId := docId d; userId := userId d; filename := filename d;
     originalName := originalName d; pageCount := pageCount d;
     documentChunks := documentChunks d; chatHistory := history |}.

Section Routes.

Context {Vec : Type}.
Implicit Types (env : Env Vec) (st : State Vec).

(** The outer [try]/[catch] of a handler: a thrown error becomes a 500
    response carrying [error.message || fallback]. *)
Definition handler (body : M Vec Response) (fallback : string)
    : State Vec → Response * State Vec :=
  λ st, match body st with
        | (Ok r, st') => (r, st')
        | (Err e, st') =>
            (RespError 500 (if bool_decide (e = "") then fallback else e), st')
        end.

(** [PdfDocument.findOne({ _id: id, userId })] *)
Definition findByIdAndUser (id : nat) (uid : string) : M Vec (option PdfDocument) :=
  gets (λ st, head (filter (λ d, docId d = id ∧ userId d = uid) (db st))).

(** [existsSync(filePath)] *)
Definition existsSync (filePath : string) : M Vec bool :=
  gets (λ st, bool_decide (is_Some (files st !! filePath))).

(** [pdf.save()]: validate, then replace the stored record. *)
Definition save (pdf : PdfDocument) : M Vec unit :=
  if validPdfDocument pdf
  then modify (setDb (fmap (λ d, if decide (docId d = docId pdf) then pdf else d)))
  else throw "PdfDocument validation failed".

(** [PdfDocument.create({...})]: take a new [_id], cast to the schema,
    validate, insert.  No [_id] is handed out twice, and none that a stored
    record has. *)
Definition create (uid name original : string) (pages : Z)
    (chunks : list Chunk) : M Vec PdfDocument :=
  let* fresh := gets (λ st, S (max_list (docId <$> db st) `max` lastId st)) in
  run modify (setLastId (λ _, fresh)) in
  let pdfDoc := {| docId := fresh; userId := uid; filename := name;
                   originalName := original; pageCount := pages;
                   documentChunks := castChunk <$> chunks;
                   chatHistory := [] |} in
  if validPdfDocument pdfDoc
  then run modify (setDb (λ docs, docs ++ [pdfDoc])) in ret pdfDoc
  else throw "PdfDocument validation failed".

(** [router.post('/:id/chat')] *)
Definition chatRoute env (userIdHeader : option string) (id : nat)
    (body : string) : State Vec → Response * State Vec :=
  handler
    (match presentHeader userIdHeader with
     | None => ret (RespError 400 "User ID is required")
     | Some uid =>
         let* found := findByIdAndUser id uid in
         match found with
         | None => ret (RespError 404 "PDF not found")
         | Some pdf =>
             let filePath := Path.join (uploadsDir env) (filename pdf) in
             let* present := existsSync filePath in
             if negb present
             then ret (RespError 404 "PDF file not found on server")
             else
               let* result :=
                 chatWithPdf env (filename pdf) body (chatHistory pdf) in
               let userTurn :=
                 castMessage {| role := User; content := body;
                                turnSourcePages := None; turnSources := None;
                                timestamp := nowUserTurn env |} in
               let assistantTurn :=
                 castMessage {| role := Assistant; content := answer result;
                                turnSourcePages := Some (sourcePages result);
                                turnSources := Some (sources result);
                                timestamp := nowAssistantTurn env |} in
               let history := chatHistory pdf ++ [userTurn] ++ [assistantTurn] in
               run save (withChatHistory history pdf) in
               ret (RespChat (answer result) (sourcePages result)
                             (sources result) history)
         end
     end)
    "Failed to process chat request".

(** [router.post('/upload')] *)
Definition uploadRoute env (file : option UploadedFile)
    (userIdHeader : option string) : State Vec → Response * State Vec :=
  handler
    (match file with
     | None => ret (RespError 400 "No file uploaded")
     | Some file =>
         match presentHeader userIdHeader with
         | None =>
             run cleanupFile env (up_path file) in
             ret (RespError 400 "User ID is required")
         | Some uid =>
             tryCatch
               (let* processed := processPdf env (up_path file) in
                let* pdfDoc :=
                  create uid (up_filename file) (up_originalname file)
                         (snd processed) (fst processed) in
                ret (RespUpload (docId pdfDoc) (originalName pdfDoc)
                                (pageCount pdfDoc)))
               (λ e, run cleanupFile env (up_path file) in throw e)
         end
     end)
    "Error processing PDF".

(** [router.delete('/:documentId')] *)
Definition deleteRoute env (userIdHeader : option string) (id : nat)
    : State Vec → Response * State Vec :=
  λ st,
    match
      (match presentHeader userIdHeader with
       | None => ret (RespError 400 "User ID is required")
       | Some uid =>
           let* found := findByIdAndUser id uid in
           match found with
           | None => ret (RespError 404 "Document not found")
           | Some doc =>
               let filePath := Path.join (uploadsDir env) (filename doc) in
               let* present := existsSync filePath in
               run (if present then cleanupFile env filePath else ret tt) in
               run modify (setDb (filter (λ d, docId d ≠ docId doc))) in
               ret RespSuccess
           end
       end) st
    with
    | (Ok r, st') => (r, st')
    | (Err _, st') => (RespError 500 "Error deleting PDF", st')
    end.

(** ** Interleaved requests

    Node runs one request until its next [await] and may then continue
    another one.  A request inside lines 234-263 of [chatWithPdf] is at one
    of the points below; [stepRequest] runs it up to its next [await]. *)

Inductive Pc :=
| PcStart                                (* about to read vectorStores *)
| PcFindOne                              (* awaiting PdfDocument.findOne *)
| PcEmbedStored (docs : list Chunk)      (* awaiting fromDocuments, stored chunks *)
| PcProcessPdf                           (* awaiting processPdf *)
| PcEmbedProcessed (docs : list Chunk)   (* awaiting fromDocuments, fresh chunks *)
| PcResolved (vectorStore : VectorStore Vec)
| PcThrown (message : string).

Definition stepRequest env (name : string) (pc : Pc) st : Pc * State Vec :=
  match pc with
  | PcStart =>
      match vectorStores st !! name with
      | Some vectorStore => (PcResolved vectorStore, st)
      | None => (PcFindOne, st)
      end
  | PcFindOne =>
      match findByFilename name st with
      | (Ok (Some pdfDoc), st') =>
          if decide (0 < length (documentChunks pdfDoc))%nat
          then (PcEmbedStored (documentChunks pdfDoc), st')
          else (PcProcessPdf, st')
      | (Ok None, st') => (PcThrown "PDF document not found in database", st')
      | (Err e, st') => (PcThrown e, st')
      end
  | PcEmbedStored docs | PcEmbedProcessed docs =>
      match fromDocuments env docs st with
      | (Ok vectorStore, st') =>
          (PcResolved vectorStore, setVectorStores <[name := vectorStore]> st')
      | (Err e, st') => (PcThrown e, st')
      end
  | PcProcessPdf =>
      match processPdf env (Path.join (uploadsDir env) name) st with
      | (Ok processed, st') => (PcEmbedProcessed (fst processed), st')
      | (Err e, st') => (PcThrown e, st')
      end
  | PcResolved _ | PcThrown _ => (pc, st)
  end.

(** [schedule] names, step by step, the request that runs next. *)
Fixpoint runSchedule env (schedule : list nat) (requests : list (string * Pc))
    st : list (string * Pc) * State Vec :=
  match schedule with
  | [] => (requests, st)
  | i :: rest =>
      match requests !! i with
      | None => runSchedule env rest requests st
      | Some (name, pc) =>
          let '(pc', st') := stepRequest env name pc st in
          runSchedule env rest (<[i := (name, pc')]> requests) st'
      end
  end.

End Routes.

Global Arguments Pc : clear implicits.

(** ** Definitions used in the statements *)

(** The chunks [processPdf] hands to the embedder and returns. *)
Definition assignedChunks (name : string) (docs : list string) : list Chunk :=
  imap (λ index doc,
          {| pageContent := doc;
             metadata := {| source := Some name;
                            pageNumber := Some (pageOfIndex index);
                            page := Some (pageOfIndex index) |} |}) docs.


(** "Scaled against the extractor's reported page count", read as: every
    assigned page lies between 1 and the reported count. *)
Definition withinPageCount (count : Z) (chunks : list Chunk) : Prop :=
  ∀ c, c ∈ chunks → ∃ p, page (metadata c) = Some p ∧ 1 ≤ p ≤ count.

(** Fields that neither index resolution nor ingestion touch. *)
Definition sameStores {Vec} (st st' : State Vec) : Prop :=
  cache st' = cache st ∧ db st' = db st ∧ files st' = files st
  ∧ modelCalls st' = modelCalls st.


(** What [chatWithPdf] builds from the retrieved documents and the
    completion. *)
Definition buildResult (retrievedDocs : list Chunk) (response : string) : ChatResult :=
  {| answer := response;
     sourcePages :=
       sortNumbers (setOf ((λ doc, pageNumber (metadata doc)) <$> retrievedDocs));
     sources := (λ doc, {| src_page := pageNumber (metadata doc);
                           src_content := preview (pageContent doc) |})
                  <$> retrievedDocs |}.


(** The ways answering can fail once the request has reached
    [chatWithPdf]: index resolution throws; or the index is resolved, the
    cache has no live entry, and embedding the question (the only step of
    the in-memory retrieval that can fail) or the generation call fails. *)
Inductive AnswerFailure {Vec} (env : Env Vec) (name question : string)
    (history : list ChatTurn) (st : State Vec) : Prop :=
| IndexResolutionFails e st1 :
    getVectorStore env name st = (Err e, st1) →
    AnswerFailure env name question history st
| QuestionEmbeddingFails vectorStore st1 st2 :
    getVectorStore env name st = (Ok vectorStore, st1) →
    cacheGet env (cacheKey name question (length history)) st1 = (Ok None, st2) →
    embedQuery env question = None →
    AnswerFailure env name question history st
| GenerationFails vectorStore st1 st2 retrievedDocs st3 :
    getVectorStore env name st = (Ok vectorStore, st1) →
    cacheGet env (cacheKey name question (length history)) st1 = (Ok None, st2) →
    similaritySearch env vectorStore question 3 st2 = (Ok retrievedDocs, st3) →
    invokeModel env
      (formatPrompt (joinWith (newline +:+ newline) (pageContent <$> retrievedDocs))
                    question) = None →
    AnswerFailure env name question history st.

(** Two schedules: the steps of two requests alternate; and the second
    request starts when the first one is done. *)
Definition overlapping : list nat := [0; 1; 0; 1; 0; 1]%nat.
Definition oneAfterTheOther : list nat := [0; 0; 0; 1]%nat.

(** The steps request [i] takes in [schedule]. *)
Definition stepsOf (i : nat) (schedule : list nat) : nat :=
  length (filter (λ j, j = i) schedule).

(** A request that finds no index and a record with stored chunks reads
    the registry in its first step, the record in its second, and completes
    its build in its third.

    [readsAfterBuild steps0 steps1 schedule]: in [schedule], run by two
    requests that have taken [steps0] and [steps1] steps so far, one of
    them reads the registry only when the other has completed its build. *)
Fixpoint readsAfterBuild (steps0 steps1 : nat) (schedule : list nat) : bool :=
  match schedule with
  | [] => false
  | 0%nat :: rest =>
      bool_decide (steps0 = 0%nat ∧ (3 ≤ steps1)%nat)
      || readsAfterBuild (S steps0) steps1 rest
  | 1%nat :: rest =>
      bool_decide (steps1 = 0%nat ∧ (3 ≤ steps0)%nat)
      || readsAfterBuild steps0 (S steps1) rest
  | _ :: rest => readsAfterBuild steps0 steps1 rest
  end.

(** The request that is first to take its third step, if any does. *)
Fixpoint firstToBuild (steps0 steps1 : nat) (schedule : list nat) : option nat :=
  match schedule with
  | [] => None
  | 0%nat :: rest =>
      if decide (steps0 = 2%nat) then Some 0%nat
      else firstToBuild (S steps0) steps1 rest
  | 1%nat :: rest =>
      if decide (steps1 = 2%nat) then Some 1%nat
      else firstToBuild steps0 (S steps1) rest
  | _ :: rest => firstToBuild steps0 steps1 rest
  end.

(** Where such a request stands after [steps] steps, when its build gives
    [vs]. *)
Definition pcAfter {Vec} (docs : list Chunk) (vs : VectorStore Vec) (steps : nat)
    : Pc Vec :=
  match steps with
  | 0%nat => PcStart
  | 1%nat => PcFindOne
  | 2%nat => PcEmbedStored docs
  | _ => PcResolved vs
  end.

(** The store [fromDocuments] returns when embedding pass number [n] yields
    [vectors] for [docs]. *)
Definition builtStore {Vec} (vectors : list Vec) (docs : list Chunk) (n : nat)
    : VectorStore Vec :=
  {| memoryVectors :=
       zip_with (λ v d, {| mv_content := pageContent d;
                           mv_embedding := v;
                           mv_metadata := metadata d |}) vectors docs;
     storeId := n |}.

(** ** A small scenario

    One user uploads a one-page PDF whose text the splitter cuts into five
    segments.  Embeddings are the character code of the first letter, and a
    chunk is the more similar to a question the closer the two codes are. *)

Module Scenario.

Fixpoint splitChars (s : string) : list string :=
  match s with
  | EmptyString => []
  | String c s' => String c EmptyString :: splitChars s'
  end.

Definition firstCode (s : string) : Z :=
  match s with
  | EmptyString => 0
  | String c _ => Z.of_nat (nat_of_ascii c)
  end.

Definition env : Env Z :=
  {| cwd := "/app";
     pdfParse := λ buffer, Some (buffer, 1);
     splitText := splitChars;
     embedDocuments := λ _ texts, Some (firstCode <$> texts);
     embedQuery := λ question, Some (firstCode question);
     similarity := λ qv v, - Z.abs (qv - v);
     invokeModel := λ _, Some "It is explained on the cited pages.";
     nowAtGet := 1000;
     nowAtSet := 2000;
     nowUserTurn := 3000;
     nowAssistantTurn := 3001 |}.

(** The same world, a little later. *)
Definition later (now : Z) : Env Z :=
  {| cwd := cwd env; pdfParse := pdfParse env; splitText := splitText env;
     embedDocuments := embedDocuments env; embedQuery := embedQuery env;
     similarity := similarity env; invokeModel := invokeModel env;
     nowAtGet := now; nowAtSet := now + 1;
     nowUserTurn := now + 2; nowAssistantTurn := now + 3 |}.

(** The same world with the embedding service and the model down. *)
Definition offline : Env Z :=
  {| cwd := cwd env; pdfParse := pdfParse env; splitText := splitText env;
     embedDocuments := λ _ _, None; embedQuery := λ _, None;
     similarity := similarity env; invokeModel := λ _, None;
     nowAtGet := 5000; nowAtSet := 5001;
     nowUserTurn := 5002; nowAssistantTurn := 5003 |}.

Definition path : string := "/app/uploads/17-1.pdf".

Definition file : UploadedFile :=
  {| up_path := path; up_filename := "17-1.pdf"; up_originalname := "notes.pdf" |}.

(** A fresh process; multer has stored the upload. *)
Definition fresh : State Z :=
  {| vectorStores := ∅; cache := ∅; db := [];
     files := {[ path := "abcde" ]};
     embedPasses := 0; modelCalls := 0; lastId := 0 |}.

Definition uploaded : State Z := snd (uploadRoute env (Some file) (Some "u1") fresh).

(** A restart of the process empties the in-memory maps and keeps the
    database and the files. *)
Definition restart (st : State Z) : State Z :=
  setCache (λ _, ∅) (setVectorStores (λ _, ∅) st).

Definition chunks : list Chunk :=
  assignedChunks "17-1.pdf" ["a"; "b"; "c"; "d"; "e"].

(** The record the upload stores. *)
Definition storedDoc : PdfDocument :=
  {| docId := 1; userId := "u1"; filename := "17-1.pdf";
     originalName := "notes.pdf"; pageCount := 1;
     documentChunks := castChunk <$> chunks;
     chatHistory := [] |}.

(** The answer to the question [c] while the index built at upload is
    registered. *)
Definition reply : ChatResult :=
  {| answer := "It is explained on the cited pages.";
     sourcePages := [Some 1; Some 2];
     sources := [ {| src_page := Some 2; src_content := "c..." |};
                  {| src_page := Some 1; src_content := "b..." |};
                  {| src_page := Some 2; src_content := "d..." |} ] |}.

(** The history the chat handler stores for that question. *)
Definition storedHistory : list ChatTurn :=
  [ {| role := User; content := "c"; turnSourcePages := Some [];
       turnSources := None; timestamp := 3000 |};
    {| role := Assistant; content := "It is explained on the cited pages.";
       turnSourcePages := Some [Some 1; Some 2];
       turnSources := None; timestamp := 3001 |} ].

(** Two requests for the same file, both about to resolve its index. *)
Definition twoRequests : list (string * Pc Z) :=
  [("17-1.pdf", PcStart); ("17-1.pdf", PcStart)].

(** A second upload whose stored name extends the first one. *)
Definition pathB : string := "/app/uploads/17-1.pdf_x".

Definition fileB : UploadedFile :=
  {| up_path := pathB; up_filename := "17-1.pdf_x"; up_originalname := "b.pdf_x" |}.

Definition freshTwo : State Z :=
  {| vectorStores := ∅; cache := ∅; db := [];
     files := {[ path := "abcde"; pathB := "vwxyz" ]};
     embedPasses := 0; modelCalls := 0; lastId := 0 |}.

(** The second file is uploaded, the process restarts, the first file is
    uploaded and asked the question [x_y]. *)
Definition asked : State Z :=
  snd (chatWithPdf env "17-1.pdf" "x_y" []
         (snd (uploadRoute env (Some file) (Some "u1")
                 (restart (snd (uploadRoute env (Some fileB) (Some "u1") freshTwo)))))).

End Scenario.

(** ** More of the code *)

(** *** pdfService.js: [PDF_OPTIONS.pagerender] *)

(** An item of [textContent.items]: its text and [item.transform[5]], the
    baseline it sits on.  Baselines are only compared for equality and
    tested for falsiness. *)
Record TextItem := mkTextItem {
  str : string;
  transform5 : Z
}.

(** [!lastY]: [undefined] and [0] are falsy. *)
Definition notLastY (lastY : option Z) : bool :=
  match lastY with
  | None => true
  | Some y => bool_decide (y = 0)
  end.

(** One turn of the [for (const item of textContent.items)] loop on
    [(lastY, text)]. *)
Definition pagerenderStep (acc : option Z * string) (item : TextItem)
    : option Z * string :=
  let '(lastY, text) := acc in
  (Some (transform5 item),
   if bool_decide (lastY = Some (transform5 item)) || notLastY lastY
   then text +:+ str item
   else text +:+ newline +:+ str item).

Definition pagerender (items : list TextItem) : string :=
  snd (fold_left pagerenderStep items (None, "")).

(** *** pdfChat.js: multer's disk storage *)

(** [s.split(c)] *)
Fixpoint splitOn (c : ascii) (s : string) : list string :=
  match s with
  | EmptyString => [EmptyString]
  | String a s' =>
      if decide (a = c) then EmptyString :: splitOn c s'
      else match splitOn c s' with
           | [] => [String a EmptyString]
           | seg :: segs => String a seg :: segs
           end
  end.

(** [s.includes(c)] *)
Fixpoint includes (c : ascii) (s : string) : bool :=
  match s with
  | EmptyString => false
  | String a s' => bool_decide (a = c) || includes c s'
  end.

(** The part of [s] from its last dot on. *)
Fixpoint fromLastDot (s : string) : option string :=
  match s with
  | EmptyString => None
  | String a s' =>
      match fromLastDot s' with
      | Some e => Some e
      | None => if decide (a = "."%char) then Some s else None
      end
  end.

(** [path.extname]: the extension of the last segment, from its last dot;
    empty when there is no dot, when the segment starts with its only
    dot, and for [..]. *)
Definition extname (p : string) : string :=
  let base := Path.basename p in
  match fromLastDot base with
  | None => ""
  | Some e =>
      if decide (String.length e = String.length base) then ""
      else if decide (base = "..") then ""
      else e
  end.

(** [Date.now() + '-' + Math.round(Math.random() * 1E9) + path.extname(file.originalname)] *)
Definition storageFilename (now random : N) (originalname : string) : string :=
  pretty now +:+ "-" +:+ pretty random +:+ extname originalname.

(** [fileFilter]: [file.mimetype === 'application/pdf'] *)
Definition fileFilter (mimetype : string) : bool :=
  bool_decide (mimetype = "application/pdf").

(** *** pdfChat.js: the remaining handlers *)

Inductive FileResponse :=
| FileSent (filePath : string)
| FileError (status : nat) (error : string).

Inductive HistoryResponse :=
| HistoryOk (history : list ChatTurn)
| HistoryError (status : nat) (error : string).

Section MoreRoutes.

Context {Vec : Type}.
Implicit Types (env : Env Vec) (st : State Vec).

(** [req.file] for an accepted upload: multer stores it in the uploads
    directory under [storageFilename]. *)
Definition multerFile env (now random : N) (originalname : string) : UploadedFile :=
  {| up_path := Path.join (uploadsDir env) (storageFilename now random originalname);
     up_filename := storageFilename now random originalname;
     up_originalname := originalname |}.

(** [router.get('/:id')] *)
Definition getPdfRoute env (userIdHeader : option string) (id : nat)
    : State Vec → FileResponse * State Vec :=
  λ st,
    match
      (match presentHeader userIdHeader with
       | None => ret (FileError 400 "User ID is required")
       | Some uid =>
           let* found := findByIdAndUser id uid in
           match found with
           | None => ret (FileError 404 "PDF not found")
           | Some pdf =>
               let filePath := Path.join (uploadsDir env) (filename pdf) in
               let* present := existsSync filePath in
               if negb present
               then ret (FileError 404 "PDF file not found on server")
               else ret (FileSent filePath)
           end
       end) st
    with
    | (Ok r, st') => (r, st')
    | (Err _, st') => (FileError 500 "Failed to fetch PDF", st')
    end.

(** [router.get('/:documentId/history')] *)
Definition historyRoute (userIdHeader : option string) (id : nat)
    : State Vec → HistoryResponse * State Vec :=
  λ st,
    match
      (match presentHeader userIdHeader with
       | None => ret (HistoryError 400 "User ID is required")
       | Some uid =>
           let* found := findByIdAndUser id uid in
           match found with
           | None => ret (HistoryError 404 "Document not found")
           | Some doc => ret (HistoryOk (chatHistory doc))
           end
       end) st
    with
    | (Ok r, st') => (r, st')
    | (Err _, st') => (HistoryError 500 "Error retrieving chat history", st')
    end.

End MoreRoutes.

(** *** middleware/auth.js *)

Module Auth.

(** The decoded token; [decoded.id]. *)
Record Decoded := mkDecoded {
  decodedId : option string
}.

(** [req.headers.authorization] and [req.body.userId]; [body] is [None]
    when [req.body] is undefined. *)
Record Request := mkRequest {
  authorization : option string;
  body : option (option string)
}.

Inductive Outcome :=
| Next (user : Decoded)
| Reject (status : nat) (error : string).

(** [authMiddleware]; [getToken] is what [await getToken({ req, secret })]
    yields: a thrown error, [null] or the decoded token. *)
Definition authMiddleware (getToken : Result (option Decoded)) (req : Request)
    : Outcome :=
  match authorization req with
  | None => Reject 401 "Authorization header required"
  | Some authHeader =>
      if negb (Path.startsWith authHeader "Bearer ")
      then Reject 401 "Authorization header required"
      else
        match splitOn " "%char authHeader !! 1%nat with
        | None | Some "" => Reject 401 "Token not provided"
        | Some _ =>
            match getToken with
            | Err _ => Reject 401 "Authentication failed"
            | Ok None => Reject 401 "Invalid token"
            | Ok (Some decoded) =>
                match body req with
                | None => Reject 401 "Authentication failed"
                | Some None | Some (Some "") => Next decoded
                | Some (Some uid) =>
                    if decide (Some uid = decodedId decoded)
                    then Next decoded
                    else Reject 403 "User ID mismatch"
                end
            end
        end
  end.

End Auth.

(** *** app/api/pdf/upload/route.ts *)

Module UploadProxy.

(** The session token; [token.sub]. *)
Record Jwt := mkJwt {
  sub : option string
}.

(** A [File] of the form data. *)
Record FormFile := mkFormFile {
  fileName : string;
  fileType : string;
  fileSize : Z
}.

(** [formData.get('pdf')]: [null], a string or a [File]. *)
Inductive FormValue :=
| Missing
| Text (value : string)
| Upload (file : FormFile).

(** The backend's answer: [response.ok] and the parsed body, whose [error]
    field may be absent. *)
Record BackendReply := mkBackendReply {
  ok : bool;
  errorField : option string;
  json : string
}.

(** A request sent by [fetch]. *)
Record Fetch := mkFetch {
  url : string;
  xUserId : string;
  sent : FormFile
}.

Record ProxyEnv := mkProxyEnv {
  getToken : Result (option Jwt);          (* await getToken({ req, secret }) *)
  formData : Result FormValue;             (* (await req.formData()).get('pdf') *)
  apiUrl : option string;                  (* process.env.API_URL *)
  backend : Fetch → Result BackendReply    (* fetch and response.json() *)
}.

Inductive Reply :=
| Json (body : string)
| JsonError (status : nat) (error : string).

Definition maxFileSize : Z := 10 * 1024 * 1024.

(** [x || fallback] on strings *)
Definition orElse (x : option string) (fallback : string) : string :=
  match x with
  | None | Some "" => fallback
  | Some s => s
  end.

(** [POST]: the response and the requests sent to the backend. *)
Definition POST (env : ProxyEnv) : Reply * list Fetch :=
  let failed (e : string) := JsonError 500 (orElse (Some e) "Failed to upload PDF") in
  match getToken env with
  | Err e => (failed e, [])
  | Ok None => (JsonError 401 "Unauthorized - Please sign in", [])
  | Ok (Some token) =>
      match formData env with
      | Err e => (failed e, [])
      | Ok Missing | Ok (Text _) => (JsonError 400 "No file uploaded", [])
      | Ok (Upload file) =>
          if negb (bool_decide (fileType file = "application/pdf"))
          then (JsonError 400 "Only PDF files are allowed", [])
          else if bool_decide (maxFileSize < fileSize file)
          then (JsonError 400 "File size must be less than 10MB", [])
          else
            let request :=
              {| url := orElse (apiUrl env) "http://localhost:5000" +:+ "/pdf/upload";
                 xUserId := orElse (sub token) "";
                 sent := file |} in
            match backend env request with
            | Err e => (failed e, [request])
            | Ok reply =>
                if ok reply then (Json (json reply), [request])
                else (failed (orElse (errorField reply) "Failed to upload PDF"),
                      [request])
            end
      end
  end.

End UploadProxy.

(** *** components/PdfViewer.tsx: the toolbar handlers *)

Module Viewer.

(** The component state the handlers touch.  [scale] holds the value of a
    JavaScript number. *)
Record ViewerState := mkViewerState {
  numPages : Z;
  pageNumber : Z;
  scale : QArith_base.Q;
  rotation : Z
}.

(** [handlePageChange(offset)]: the new state and the page passed to
    [onPageChange], if it is called. *)
Definition handlePageChange (offset : Z) (v : ViewerState) : ViewerState * option Z :=
  let newPage := pageNumber v + offset in
  if bool_decide (1 ≤ newPage) && bool_decide (newPage ≤ numPages v)
  then ({| numPages := numPages v; pageNumber := newPage;
           scale := scale v; rotation := rotation v |}, Some newPage)
  else (v, None).

(** [onDocumentLoadSuccess({ numPages })] *)
Definition onDocumentLoadSuccess (n : Z) (v : ViewerState) : ViewerState * option Z :=
  if bool_decide (n < pageNumber v)
  then ({| numPages := n; pageNumber := 1;
           scale := scale v; rotation := rotation v |}, Some 1)
  else ({| numPages := n; pageNumber := pageNumber v;
           scale := scale v; rotation := rotation v |}, None).

(** [handleZoom(delta)]: [Math.max(0.5, Math.min(2, prevScale + delta))];
    [plus] is the addition of JavaScript numbers. *)
Definition handleZoom (plus : QArith_base.Q → QArith_base.Q → QArith_base.Q)
    (delta : QArith_base.Q) (v : ViewerState) : ViewerState :=
  {| numPages := numPages v; pageNumber := pageNumber v;
     scale := Qminmax.Qmax (QArith_base.Qmake 1 2)
                (Qminmax.Qmin (QArith_base.Qmake 2 1) (plus (scale v) delta));
     rotation := rotation v |}.

(** [handleRotate]: [(prev + 90) % 360] *)
Definition handleRotate (v : ViewerState) : ViewerState :=
  {| numPages := numPages v; pageNumber := pageNumber v;
     scale := scale v; rotation := Z.rem (rotation v + 90) 360 |}.

End Viewer.

(** ** Examples for the remaining code *)

Module More.

(** Three text items, the first two on one baseline. *)
Definition items : list TextItem :=
  [ mkTextItem "Hello, " 700; mkTextItem "world" 700; mkTextItem "Next line" 680 ].

(** A line on the baseline 0 followed by a line above it. *)
Definition itemsAtZero : list TextItem :=
  [ mkTextItem "footer" 0; mkTextItem "above" 12 ].

(** A record without stored chunks whose file is still in the uploads
    directory. *)
Definition legacyDoc : PdfDocument :=
  {| docId := 7; userId := "u1"; filename := "old.pdf";
     originalName := "old.pdf"; pageCount := 1;
     documentChunks := []; chatHistory := [] |}.

Definition legacy : State Z :=
  {| vectorStores := ∅; cache := ∅; db := [legacyDoc];
     files := {[ "/app/uploads/old.pdf" := "xyz" ]};
     embedPasses := 4; modelCalls := 0; lastId := 7 |}.

(** The scenario's document after its owner deleted it, and after its
    owner asked the question [c]. *)
Definition deleted : State Z :=
  snd (deleteRoute Scenario.env (Some "u1") 1 Scenario.uploaded).

Definition chatted : State Z :=
  snd (chatRoute Scenario.env (Some "u1") 1 "c" Scenario.uploaded).

(** A backend that accepts every upload. *)
Definition proxyEnv : UploadProxy.ProxyEnv :=
  {| UploadProxy.getToken := Ok (Some (UploadProxy.mkJwt (Some "u1")));
     UploadProxy.formData :=
       Ok (UploadProxy.Upload (UploadProxy.mkFormFile "notes.pdf" "application/pdf" 2048));
     UploadProxy.apiUrl := None;
     UploadProxy.backend := λ _, Ok (UploadProxy.mkBackendReply true None "{}") |}.

End More.

(** ** Definitions used in the statements about the remaining code *)

(** A bare file name: not empty, no separator in it, and neither [.] nor
    [..]. *)
Definition plainName (f : string) : Prop :=
  includes "/"%char f = false ∧ f ≠ "" ∧ f ≠ "." ∧ f ≠ "..".

(** [x] is [f] or ends in a separator followed by [f]. *)
Definition endsWithName (x f : string) : Prop :=
  x = f ∨ ∃ q, x = q +:+ "/" +:+ f.

(** A segment [normalizeString] keeps: no separator in it, not empty and
    not [.]. *)
Definition keptSegment (seg : string) : Prop :=
  includes "/"%char seg = false ∧ seg ≠ "" ∧ seg ≠ ".".

(** The stack of [normalizeString] (innermost segment first): kept
    segments only, and below a [..] there are only [..], which occur only
    when going above the root is allowed. *)
Definition canonicalStack (allowAboveRoot : bool) (res : list string) : Prop :=
  Forall keptSegment res
  ∧ ∀ l r, res = l ++ ".." :: r →
      allowAboveRoot = true ∧ Forall (λ seg, seg = "..") r.

(** * Verification *)

(** ** Page assignment *)

Lemma batchLoop_closed_form (fuel : nat) (chunks : list Chunk) (b i : nat)
    (results : list Chunk) :
  (0 < b)%nat →
  (length chunks - i ≤ fuel)%nat →
  batchLoop fuel chunks b i results =
    results ++ imap (λ k c, withPage (pageOfIndex (i + k)) c) (drop i chunks).
Proof.
  intros Hb. revert i results.
  induction fuel as [|fuel IH]; intros i results Hfuel; simpl.
  - rewrite drop_ge by lia. by rewrite app_nil_r.
  - destruct (decide (i < length chunks)%nat) as [Hlt|Hge].
    + rewrite IH by lia. rewrite <- app_assoc. f_equal.
      unfold slice. replace (i + b - i)%nat with b by lia.
      rewrite <- (take_drop b (drop i chunks)) at 2.
      rewrite imap_app, drop_drop. f_equal.
      destruct (decide (b ≤ length (drop i chunks))%nat) as [Hle|Hgt].
      * apply imap_ext. intros k c _. simpl.
        rewrite length_take, Nat.min_l by done.
        do 2 f_equal. lia.
      * rewrite (drop_ge chunks (i + b)); [done|].
        rewrite length_drop in Hgt. lia.
    + rewrite drop_ge by lia. by rewrite app_nil_r.
Qed.

Lemma processChunksInBatches_closed_form (chunks : list Chunk) (batchSize : nat) :
  (0 < batchSize)%nat →
  processChunksInBatches chunks batchSize =
    imap (λ k c, withPage (pageOfIndex k) c) chunks.
Proof.
  intros Hpos. unfold processChunksInBatches.
  rewrite batchLoop_closed_form; [done | done | lia].
Qed.

Lemma processChunksInBatches_initialChunks (name : string) (docs : list string) :
  processChunksInBatches (initialChunks name docs) defaultBatchSize
    = assignedChunks name docs.
Proof.
  rewrite processChunksInBatches_closed_form by (unfold defaultBatchSize; lia).
  apply list_eq. intros i. unfold initialChunks, assignedChunks.
  rewrite !list_lookup_imap. by destruct (docs !! i).
Qed.

Lemma pageOfIndex_mono (i j : nat) : (i ≤ j)%nat → pageOfIndex i ≤ pageOfIndex j.
Proof.
  intros Hij. unfold pageOfIndex.
  assert (Z.of_nat i / 2 ≤ Z.of_nat j / 2); [|lia].
  apply Z.div_le_mono; lia.
Qed.

(** ** Inversion of the monadic code *)

Ltac unfold_monad :=
  unfold tryCatch, bind, ret, throw, gets, modify in *.

Ltac invert_monad H :=
  unfold_monad; simpl in H;
  repeat (case_match; simplify_eq/=; try done).

Section ProcessPdf.

Context {Vec : Type}.
Implicit Types (env : Env Vec) (st : State Vec).

Lemma fromDocuments_Ok env docs st vs st' :
  fromDocuments env docs st = (Ok vs, st') →
  ∃ vectors,
    embedDocuments env (embedPasses st) (pageContent <$> docs) = Some vectors ∧
    (length vectors ≤ length docs)%nat ∧
    vs = {| memoryVectors :=
              zip_with (λ v d, {| mv_content := pageContent d;
                                  mv_embedding := v;
                                  mv_metadata := metadata d |}) vectors docs;
            storeId := embedPasses st |} ∧
    st' = tickEmbedPasses st.
Proof.
  unfold fromDocuments. intros H. invert_monad H.
  eexists. split; [done|]. split; [lia|done].
Qed.

Lemma fromDocuments_state env docs st r st' :
  fromDocuments env docs st = (r, st') → st' = tickEmbedPasses st.
Proof. unfold fromDocuments. intros H. invert_monad H. Qed.

Lemma processPdf_Ok env filePath st chunks count st' :
  processPdf env filePath st = (Ok (chunks, count), st') →
  let normalizedPath := Path.normalize filePath in
  let name := Path.basename normalizedPath in
  ∃ buffer text numpages vs,
    Path.startsWith normalizedPath (Path.normalize (uploadsDir env)) = true ∧
    files st !! normalizedPath = Some buffer ∧
    pdfParse env buffer = Some (text, numpages) ∧
    text ≠ "" ∧
    chunks = assignedChunks name (splitText env text) ∧
    count = (if bool_decide (numpages = 0)
             then (Z.of_nat (length (splitText env text)) + 1) / 2
             else numpages) ∧
    fromDocuments env chunks st = (Ok vs, tickEmbedPasses st) ∧
    st' = setVectorStores <[name := vs]> (tickEmbedPasses st).
Proof.
  unfold processPdf. intros H. unfold_monad. simpl in H.
  destruct (Path.startsWith _ _) eqn:Hguard; simpl in H; [|done].
  destruct (files st !! _) as [buffer|] eqn:Hfile; [|done].
  destruct (pdfParse env buffer) as [[text numpages]|] eqn:Hparse; [|done].
  case_bool_decide as Htext; [done|].
  rewrite processChunksInBatches_initialChunks in H.
  destruct (fromDocuments _ _ _) as [[vs|e] st1] eqn:Hembed; [|done].
  pose proof (fromDocuments_state _ _ _ _ _ Hembed) as ->.
  simplify_eq. by exists buffer, text, numpages, vs.
Qed.

End ProcessPdf.

Section PageClaims.

Context {Vec : Type}.
Implicit Types (env : Env Vec) (st : State Vec).

(** C4, as the code has it: the page of a chunk is [floor(index / 2) + 1],
    computed from the position of the chunk alone (two chunks per page),
    both under [pageNumber] and under [page].  The chunks are a function of
    the extracted text, the splitter and the file name, so the assignment is
    reproducible; the page count the extractor reports takes no part in it
    and only becomes the returned [pageCount], which is half the number of
    chunks, rounded up, when the extractor reports none. *)
Theorem processPdf_page_assignment env filePath st chunks count st' :
  processPdf env filePath st = (Ok (chunks, count), st') →
  (∃ buffer text numpages,
     files st !! Path.normalize filePath = Some buffer ∧
     pdfParse env buffer = Some (text, numpages) ∧
     chunks = assignedChunks (Path.basename (Path.normalize filePath))
                             (splitText env text) ∧
     count = (if bool_decide (numpages = 0)
              then (Z.of_nat (length (splitText env text)) + 1) / 2
              else numpages)) ∧
  ∀ i c, chunks !! i = Some c →
    page (metadata c) = Some (Z.of_nat i / 2 + 1) ∧
    pageNumber (metadata c) = Some (Z.of_nat i / 2 + 1).
Proof.
  intros H. apply processPdf_Ok in H as (buffer & text & numpages & vs & H).
  destruct H as (_ & Hfile & Hparse & _ & -> & Hcount & _).
  split; [by exists buffer, text, numpages|].
  intros i c Hc. unfold assignedChunks in Hc.
  apply list_lookup_imap_Some in Hc as (doc & _ & ->). done.
Qed.

(** C9: the pages of the chunks [processPdf] produces never decrease along
    the chunk order. *)
Theorem processPdf_pages_nondecreasing env filePath st chunks count st' :
  processPdf env filePath st = (Ok (chunks, count), st') →
  ∀ i j c d, (i ≤ j)%nat → chunks !! i = Some c → chunks !! j = Some d →
    ∃ p q, page (metadata c) = Some p ∧ page (metadata d) = Some q ∧
           pageNumber (metadata c) = Some p ∧ pageNumber (metadata d) = Some q ∧
           p ≤ q.
Proof.
  intros H i j c d Hij Hc Hd.
  apply processPdf_Ok in H as (buffer & text & numpages & vs & H).
  destruct H as (_ & _ & _ & _ & -> & _).
  unfold assignedChunks in Hc, Hd.
  apply list_lookup_imap_Some in Hc as (doc1 & _ & ->).
  apply list_lookup_imap_Some in Hd as (doc2 & _ & ->).
  exists (pageOfIndex i), (pageOfIndex j). simpl.
  repeat split. by apply pageOfIndex_mono.
Qed.

End PageClaims.

Lemma processPdf_page_assignment_witness :
  page (metadata (mkChunk "e" (mkMetadata (Some "17-1.pdf") (Some 3) (Some 3)))) = Some 3
  ∧ pageNumber (metadata (mkChunk "e" (mkMetadata (Some "17-1.pdf") (Some 3) (Some 3)))) = Some 3.
Proof.
  assert (processPdf Scenario.env Scenario.path Scenario.fresh
          = (Ok (Scenario.chunks, 1),
             snd (processPdf Scenario.env Scenario.path Scenario.fresh))) as Hrun
    by (vm_compute; reflexivity).
  exact (proj2 (processPdf_page_assignment _ _ _ _ _ _ Hrun) 4%nat _ eq_refl).
Defined.

Lemma processPdf_pages_nondecreasing_witness :
  ∃ p q,
    page (metadata (mkChunk "b" (mkMetadata (Some "17-1.pdf") (Some 1) (Some 1)))) = Some p
    ∧ page (metadata (mkChunk "e" (mkMetadata (Some "17-1.pdf") (Some 3) (Some 3)))) = Some q
    ∧ pageNumber (metadata (mkChunk "b" (mkMetadata (Some "17-1.pdf") (Some 1) (Some 1)))) = Some p
    ∧ pageNumber (metadata (mkChunk "e" (mkMetadata (Some "17-1.pdf") (Some 3) (Some 3)))) = Some q
    ∧ p ≤ q.
Proof.
  assert (processPdf Scenario.env Scenario.path Scenario.fresh
          = (Ok (Scenario.chunks, 1),
             snd (processPdf Scenario.env Scenario.path Scenario.fresh))) as Hrun
    by (vm_compute; reflexivity).
  apply (processPdf_pages_nondecreasing _ _ _ _ _ _ Hrun 1%nat 4%nat).
  - lia.
  - reflexivity.
  - reflexivity.
Defined.

(** C4 as stated fails: the extractor reports one page, the five chunks get
    the pages 1, 1, 2, 2 and 3. *)
Lemma page_exceeds_reported_count :
  ∃ st',
    processPdf Scenario.env Scenario.path Scenario.fresh
      = (Ok (Scenario.chunks, 1), st')
    ∧ page ∘ metadata <$> Scenario.chunks = [Some 1; Some 1; Some 2; Some 2; Some 3]
    ∧ ¬ withinPageCount 1 Scenario.chunks.
Proof.
  eexists. split; [vm_compute; reflexivity|]. split; [reflexivity|].
  intros Hwithin.
  destruct (Hwithin (mkChunk "e" (mkMetadata (Some "17-1.pdf") (Some 3) (Some 3))))
    as (p & Hp & Hbound).
  - apply list_elem_of_lookup. by exists 4%nat.
  - simpl in Hp. simplify_eq. lia.
Qed.

(** ** Paths *)

Lemma split_segments_relative (p seg : string) :
  seg ∈ Path.split p → Path.isAbsolute seg = false.
Proof.
  revert seg. induction p as [|c p IH]; intros seg Hseg; simpl in Hseg.
  - apply list_elem_of_singleton in Hseg as ->. done.
  - destruct (decide (c = Path.sep)) as [->|Hc].
    + apply elem_of_cons in Hseg as [->|Hseg]; [done | by apply IH].
    + destruct (Path.split p) as [|seg0 segs] eqn:Hsplit.
      * apply list_elem_of_singleton in Hseg as ->. simpl.
        by apply bool_decide_eq_false.
      * apply elem_of_cons in Hseg as [->|Hseg].
        -- simpl. by apply bool_decide_eq_false.
        -- apply IH. by right.
Qed.

Lemma basename_relative (p : string) : Path.isAbsolute (Path.basename p) = false.
Proof.
  unfold Path.basename.
  destruct (last _) as [seg|] eqn:Hlast; simpl; [|done].
  apply last_Some_elem_of in Hlast.
  apply list_elem_of_filter in Hlast as [_ Hseg].
  by eapply split_segments_relative.
Qed.

Lemma normalize_absolute (p : string) :
  Path.isAbsolute p = true → Path.isAbsolute (Path.normalize p) = true.
Proof.
  intros Habs. unfold Path.normalize.
  destruct p as [|c p]; [done|]. rewrite Habs.
  destruct (Path.normalizeString _ _); [done|].
  by destruct (Path.endsWithSep _).
Qed.

Lemma join_absolute (a b : string) :
  Path.isAbsolute a = true → Path.isAbsolute (Path.join a b) = true.
Proof.
  intros Habs. unfold Path.join. apply normalize_absolute.
  destruct a as [|c a]; [done|]. by destruct b.
Qed.

Lemma startsWith_absolute (s pre : string) :
  Path.startsWith s pre = true → Path.isAbsolute pre = true →
  Path.isAbsolute s = true.
Proof.
  unfold Path.startsWith. destruct pre as [|c pre]; [done|].
  destruct s as [|c' s]; simpl; [done|].
  destruct (ascii_dec c c') as [->|]; [|done]. done.
Qed.

(** A path inside the uploads directory differs from its own base name. *)
Lemma uploaded_path_not_basename (cwd0 filePath : string) :
  Path.isAbsolute cwd0 = true →
  Path.startsWith (Path.normalize filePath)
                  (Path.normalize (Path.join cwd0 "uploads")) = true →
  Path.normalize filePath ≠ Path.basename (Path.normalize filePath).
Proof.
  intros Hcwd Hguard Heq.
  pose proof (basename_relative (Path.normalize filePath)) as Hrel.
  rewrite <- Heq in Hrel.
  erewrite startsWith_absolute in Hrel; [done | exact Hguard |].
  by apply normalize_absolute, join_absolute.
Qed.

Section Cleanup.

Context {Vec : Type}.
Implicit Types (env : Env Vec) (st : State Vec).

Lemma cleanupFile_run env filePath st :
  cleanupFile env filePath st =
    (Ok tt,
     match files st !! Path.normalize filePath with
     | Some _ =>
         setVectorStores (delete (Path.normalize filePath))
           (setFiles (delete (Path.normalize filePath)) st)
     | None => st
     end).
Proof.
  unfold cleanupFile. unfold_monad. simpl.
  by destruct (files st !! _).
Qed.

Lemma getVectorStore_registered env name st vs :
  vectorStores st !! name = Some vs → getVectorStore env name st = (Ok vs, st).
Proof. intros H. unfold getVectorStore. unfold_monad. by rewrite H. Qed.

(** C10: [processPdf] registers the index of an uploaded file under the base
    name of its path, [cleanupFile] deletes the entry under the whole path.
    For a path inside the uploads directory the two keys differ, so the
    index stays registered and the next chat for that file name gets it from
    the map without rebuilding. *)
Theorem cleanupFile_keeps_registered_index env filePath st vs :
  Path.isAbsolute (cwd env) = true →
  Path.startsWith (Path.normalize filePath)
                  (Path.normalize (uploadsDir env)) = true →
  vectorStores st !! Path.basename (Path.normalize filePath) = Some vs →
  ∃ st',
    cleanupFile env filePath st = (Ok tt, st') ∧
    files st' !! Path.normalize filePath = None ∧
    vectorStores st' !! Path.basename (Path.normalize filePath) = Some vs ∧
    ∀ env', getVectorStore env' (Path.basename (Path.normalize filePath)) st'
            = (Ok vs, st').
Proof.
  intros Hcwd Hguard Hreg.
  pose proof (uploaded_path_not_basename _ _ Hcwd Hguard) as Hne.
  rewrite cleanupFile_run. eexists. split; [done|].
  assert (vectorStores
            (match files st !! Path.normalize filePath with
             | Some _ =>
                 setVectorStores (delete (Path.normalize filePath))
                   (setFiles (delete (Path.normalize filePath)) st)
             | None => st
             end) !! Path.basename (Path.normalize filePath) = Some vs) as Hkept.
  { destruct (files st !! _); [|done]. simpl. by rewrite lookup_delete_ne. }
  split; [|split; [done|]].
  - destruct (files st !! _) eqn:Hfile; [|done]. simpl. apply lookup_delete_eq.
  - intros env'. by apply getVectorStore_registered.
Qed.

End Cleanup.

Lemma cleanupFile_keeps_registered_index_witness :
  ∃ vs st',
    vectorStores Scenario.uploaded !! "17-1.pdf" = Some vs ∧
    cleanupFile Scenario.env Scenario.path Scenario.uploaded = (Ok tt, st') ∧
    files st' !! Path.normalize Scenario.path = None ∧
    vectorStores st' !! Path.basename (Path.normalize Scenario.path) = Some vs ∧
    ∀ env', getVectorStore env' (Path.basename (Path.normalize Scenario.path)) st'
            = (Ok vs, st').
Proof.
  destruct (vectorStores Scenario.uploaded !! "17-1.pdf") as [vs|] eqn:Hreg;
    [|by vm_compute in Hreg].
  exists vs.
  destruct (cleanupFile_keeps_registered_index Scenario.env Scenario.path
              Scenario.uploaded vs) as (st' & H); [reflexivity | reflexivity | exact Hreg |].
  exists st'. split; [reflexivity | exact H].
Defined.

(** ** The structure of [chatWithPdf] *)

Section Chat.

Context {Vec : Type}.
Implicit Types (env : Env Vec) (st : State Vec).

Lemma processPdf_frame env filePath st r st' :
  processPdf env filePath st = (r, st') → sameStores st st'.
Proof.
  unfold processPdf, fromDocuments. intros H. unfold_monad. simpl in H.
  repeat (case_match; simplify_eq/=); done.
Qed.

Lemma getVectorStore_frame env name st r st' :
  getVectorStore env name st = (r, st') → sameStores st st'.
Proof.
  unfold getVectorStore, findByFilename. intros H. unfold_monad. simpl in H.
  destruct (vectorStores st !! name); [by simplify_eq|].
  destruct (head _) as [pdfDoc|]; [|by simplify_eq].
  destruct (decide _).
  - destruct (fromDocuments _ _ _) as [[vs|e] st1] eqn:Hembed;
      apply fromDocuments_state in Hembed as ->; by simplify_eq.
  - destruct (processPdf _ _ _) as [[processed|e] st1] eqn:Hprocess;
      apply processPdf_frame in Hprocess as (Hc & Hd & Hf & Hm); [|by simplify_eq].
    destruct (fromDocuments _ _ _) as [[vs|e] st2] eqn:Hembed;
      apply fromDocuments_state in Hembed as ->; by simplify_eq.
Qed.

Lemma getVectorStore_Ok env name st vs st' :
  getVectorStore env name st = (Ok vs, st') →
  vectorStores st' !! name = Some vs.
Proof.
  unfold getVectorStore, findByFilename. intros H. unfold_monad. simpl in H.
  destruct (vectorStores st !! name) eqn:Hreg; [by simplify_eq|].
  destruct (head _) as [pdfDoc|]; [|done].
  destruct (decide _).
  - destruct (fromDocuments _ _ _) as [[vs1|e] st1]; simplify_eq.
    simpl. apply lookup_insert_eq.
  - destruct (processPdf _ _ _) as [[processed|e] st1]; [|done].
    destruct (fromDocuments _ _ _) as [[vs1|e] st2]; simplify_eq.
    simpl. apply lookup_insert_eq.
Qed.

(** [cache.get] reads the cache and the clock only. *)
Lemma cacheGet_run env key st :
  cacheGet env key st =
    match cache st !! key with
    | None => (Ok None, st)
    | Some (v, t) =>
        if bool_decide (t ≠ 0) && bool_decide (t < nowAtGet env)
        then (Ok None, setCache (delete key) st)
        else (Ok (Some v), st)
    end.
Proof.
  unfold cacheGet. unfold_monad. simpl.
  destruct (cache st !! key) as [[v t]|]; [|done].
  by destruct (_ && _).
Qed.

Lemma cacheGet_same_cache env key st st' :
  cache st' = cache st →
  fst (cacheGet env key st') = fst (cacheGet env key st).
Proof.
  intros Hc. rewrite !cacheGet_run, Hc.
  destruct (cache st !! key) as [[v t]|]; [|done].
  by destruct (_ && _).
Qed.

Lemma cacheGet_miss_state env key st st' :
  cacheGet env key st = (Ok None, st') →
  vectorStores st' = vectorStores st ∧ db st' = db st
  ∧ modelCalls st' = modelCalls st ∧ embedPasses st' = embedPasses st
  ∧ files st' = files st ∧ cache st' ⊆ cache st.
Proof.
  rewrite cacheGet_run. intros H.
  destruct (cache st !! key) as [[v t]|]; [|by simplify_eq].
  destruct (_ && _); simplify_eq. simpl.
  repeat split. apply delete_subseteq.
Qed.

Lemma cacheGet_hit_state env key st v st' :
  cacheGet env key st = (Ok (Some v), st') → st' = st.
Proof.
  rewrite cacheGet_run. intros H.
  destruct (cache st !! key) as [[v' t]|]; [|by simplify_eq].
  destruct (_ && _); by simplify_eq.
Qed.

Lemma cacheGet_never_throws env key st e st' :
  cacheGet env key st ≠ (Err e, st').
Proof.
  rewrite cacheGet_run.
  destruct (cache st !! key) as [[v t]|]; [|done].
  by destruct (_ && _).
Qed.

Lemma similaritySearch_state env vs question k st r st' :
  similaritySearch env vs question k st = (r, st') → st' = st.
Proof.
  unfold similaritySearch. unfold_monad.
  destruct (embedQuery env question); intros; by simplify_eq.
Qed.

Lemma invokeChain_state env context question st r st' :
  invokeChain env context question st = (r, st') → st' = tickModelCalls st.
Proof.
  unfold invokeChain. unfold_monad. simpl.
  destruct (invokeModel env _); intros; by simplify_eq.
Qed.

Lemma chatWithPdf_run env name question history st :
  chatWithPdf env name question history st =
    let key := cacheKey name question (length history) in
    match getVectorStore env name st with
    | (Err e, st1) => (Err e, st1)
    | (Ok vectorStore, st1) =>
        match cacheGet env key st1 with
        | (Err e, st2) => (Err e, st2)
        | (Ok (Some cached), st2) => (Ok cached, st2)
        | (Ok None, st2) =>
            match similaritySearch env vectorStore question 3 st2 with
            | (Err e, st3) => (Err e, st3)
            | (Ok retrievedDocs, st3) =>
                let context :=
                  joinWith (newline +:+ newline) (pageContent <$> retrievedDocs) in
                match invokeChain env context question st3 with
                | (Err e, st4) => (Err e, st4)
                | (Ok response, st4) =>
                    (Ok (buildResult retrievedDocs response),
                     setCache <[key := (buildResult retrievedDocs response,
                                        nowAtSet env + stdTTL * 1000)]> st4)
                end
            end
        end
    end.
Proof.
  unfold chatWithPdf, cacheSet. unfold_monad. simpl.
  destruct (getVectorStore env name st) as [[vs|e] st1]; [|done].
  destruct (cacheGet env _ st1) as [[[cached|]|e] st2]; [done| |done].
  destruct (similaritySearch _ _ _ _ _) as [[docs|e] st3]; [|done].
  by destruct (invokeChain _ _ _ _) as [[response|e] st4].
Qed.

End Chat.

Section ChatClaims.

Context {Vec : Type}.
Implicit Types (env : Env Vec) (st : State Vec).

(** C7: [chatWithPdf] reads nothing of the chat history but its length:
    with two histories of equal length and everything else equal (the cache
    and the rest of the state included) it returns the same result and
    leaves the same state. *)
Theorem chatWithPdf_history_length_only env name question
    (history1 history2 : list ChatTurn) st :
  length history1 = length history2 →
  chatWithPdf env name question history1 st
    = chatWithPdf env name question history2 st.
Proof. intros Hlen. unfold chatWithPdf. by rewrite Hlen. Qed.

(** C2: when a call misses the cache, succeeds and stores its result, a
    second call with the same file name, question and history length whose
    cache lookup happens at most one hour after that store returns the very
    same result, leaves the state as it is, and the generation model has
    been invoked exactly once over the two calls. *)
Theorem chatWithPdf_twice_within_ttl (env1 env2 : Env Vec) name question
    (history1 history2 : list ChatTurn) st result st1 :
  length history2 = length history1 →
  fst (cacheGet env1 (cacheKey name question (length history1)) st) = Ok None →
  chatWithPdf env1 name question history1 st = (Ok result, st1) →
  nowAtGet env2 ≤ nowAtSet env1 + 3600 * 1000 →
  chatWithPdf env2 name question history2 st1 = (Ok result, st1)
  ∧ modelCalls st1 = S (modelCalls st).
Proof.
  intros Hlen Hmiss Hfirst Hnow.
  rewrite chatWithPdf_run in Hfirst. cbv zeta in Hfirst.
  destruct (getVectorStore env1 name st) as [[vs|e] sa] eqn:Hindex; [|done].
  pose proof (getVectorStore_Ok _ _ _ _ _ Hindex) as Hreg.
  apply getVectorStore_frame in Hindex as (Hcache & _ & _ & Hcalls).
  rewrite <- (cacheGet_same_cache env1 _ st sa Hcache) in Hmiss.
  destruct (cacheGet env1 _ sa) as [[[cached|]|e] sb] eqn:Hget; [done| |done].
  apply cacheGet_miss_state in Hget as (Hvs & _ & Hcalls' & _).
  destruct (similaritySearch _ _ _ _ _) as [[docs|e] sc] eqn:Hsearch; [|done].
  apply similaritySearch_state in Hsearch as ->.
  destruct (invokeChain _ _ _ _) as [[response|e] sd] eqn:Hgen; [|done].
  apply invokeChain_state in Hgen as ->.
  simplify_eq. split; [|simpl; congruence].
  rewrite chatWithPdf_run. cbv zeta.
  rewrite (getVectorStore_registered env2 name _ vs) by (simpl; congruence).
  rewrite cacheGet_run, Hlen. simpl. rewrite lookup_insert_eq.
  rewrite (bool_decide_eq_false_2 (_ < nowAtGet env2)) by (unfold stdTTL; lia).
  by rewrite andb_false_r.
Qed.

(** C5, as the code has it: [chatWithPdf] resolves the index first and looks
    the cache up afterwards.  A failure of index resolution fails the call
    whatever the cache holds; once the index is resolved (built, if it was
    not registered), a cache hit is returned without embedding the question
    and without a generation call. *)
Theorem chatWithPdf_resolves_index_before_cache env name question
    (history : list ChatTurn) st resolved st1 :
  getVectorStore env name st = (resolved, st1) →
  match resolved with
  | Err e => chatWithPdf env name question history st = (Err e, st1)
  | Ok _ =>
      ∀ cached,
        fst (cacheGet env (cacheKey name question (length history)) st1)
          = Ok (Some cached) →
        chatWithPdf env name question history st = (Ok cached, st1)
        ∧ modelCalls st1 = modelCalls st
  end.
Proof.
  intros Hindex. rewrite chatWithPdf_run. cbv zeta. rewrite Hindex.
  destruct resolved as [vs|e]; [|done].
  intros cached Hhit.
  apply getVectorStore_frame in Hindex as (_ & _ & _ & Hcalls).
  destruct (cacheGet env _ st1) as [[[cached'|]|e] st2] eqn:Hget; simplify_eq/=.
  apply cacheGet_hit_state in Hget as ->. done.
Qed.

End ChatClaims.

Lemma chatWithPdf_history_length_only_witness :
  chatWithPdf Scenario.env "17-1.pdf" "c"
    [mkChatTurn User "a" None None 1; mkChatTurn Assistant "b" None None 2]
    Scenario.uploaded
  = chatWithPdf Scenario.env "17-1.pdf" "c"
      [mkChatTurn User "d" None None 3; mkChatTurn Assistant "e" (Some [Some 2]) None 4]
      Scenario.uploaded.
Proof.
  apply (chatWithPdf_history_length_only Scenario.env "17-1.pdf" "c").
  reflexivity.
Defined.

Lemma chatWithPdf_twice_within_ttl_witness :
  let first := chatWithPdf Scenario.env "17-1.pdf" "c" [] Scenario.uploaded in
  ∃ result,
    fst first = Ok result
    ∧ chatWithPdf (Scenario.later 3602000) "17-1.pdf" "c" [] (snd first)
      = (Ok result, snd first)
    ∧ modelCalls (snd first) = S (modelCalls Scenario.uploaded).
Proof.
  intros first.
  destruct (fst first) as [result|e] eqn:Hfirst; [|by vm_compute in Hfirst].
  exists result. split; [reflexivity|].
  apply (chatWithPdf_twice_within_ttl Scenario.env (Scenario.later 3602000)
           "17-1.pdf" "c" [] []).
  - reflexivity.
  - vm_compute. reflexivity.
  - rewrite <- Hfirst. subst first. by destruct (chatWithPdf _ _ _ _ _).
  - simpl. lia.
Defined.

Lemma chatWithPdf_resolves_index_before_cache_witness :
  ∃ cached,
    fst (cacheGet (Scenario.later 5000) (cacheKey "17-1.pdf" "x_y" 0) Scenario.asked)
      = Ok (Some cached)
    ∧ chatWithPdf (Scenario.later 5000) "17-1.pdf" "x_y" [] Scenario.asked
      = (Ok cached, Scenario.asked)
    ∧ modelCalls Scenario.asked = modelCalls Scenario.asked.
Proof.
  destruct (vectorStores Scenario.asked !! "17-1.pdf") as [vs|] eqn:Hreg;
    [|by vm_compute in Hreg].
  destruct (fst (cacheGet (Scenario.later 5000) (cacheKey "17-1.pdf" "x_y" 0)
                   Scenario.asked)) as [[cached|]|e] eqn:Hget;
    [|by vm_compute in Hget..].
  exists cached. split; [reflexivity|].
  exact (chatWithPdf_resolves_index_before_cache (Scenario.later 5000)
           "17-1.pdf" "x_y" [] Scenario.asked (Ok vs) Scenario.asked
           (getVectorStore_registered _ _ _ _ Hreg) cached Hget).
Defined.

(** C5 as stated fails.  The cache holds a live entry under the key of the
    request, and the file has no registered index: the call embeds the
    stored chunks and registers an index before it returns the cached entry,
    and when the embedding service is down it throws instead of returning
    the entry. *)
Lemma cache_hit_after_index_resolution :
  ∃ cached,
    fst (cacheGet (Scenario.later 5000) (cacheKey "17-1.pdf_x" "y" 0) Scenario.asked)
      = Ok (Some cached)
    ∧ vectorStores Scenario.asked !! "17-1.pdf_x" = None
    ∧ (∃ st', chatWithPdf (Scenario.later 5000) "17-1.pdf_x" "y" [] Scenario.asked
               = (Ok cached, st')
             ∧ embedPasses st' = S (embedPasses Scenario.asked)
             ∧ is_Some (vectorStores st' !! "17-1.pdf_x"))
    ∧ fst (chatWithPdf Scenario.offline "17-1.pdf_x" "y" [] Scenario.asked)
      = Err "Embedding request failed".
Proof.
  eexists. split; [vm_compute; reflexivity|].
  split; [vm_compute; reflexivity|]. split.
  - eexists. split; [vm_compute; reflexivity|].
    split; [vm_compute; reflexivity|]. vm_compute. eauto.
  - vm_compute. reflexivity.
Qed.

(** ** The chat handler *)

Section ChatRoute.

Context {Vec : Type}.
Implicit Types (env : Env Vec) (st : State Vec).

Lemma chatWithPdf_frame env name question history st r st' :
  chatWithPdf env name question history st = (r, st') →
  db st' = db st ∧ files st' = files st.
Proof.
  rewrite chatWithPdf_run. cbv zeta. intros H.
  destruct (getVectorStore env name st) as [[vs|e] st1] eqn:Hindex;
    apply getVectorStore_frame in Hindex as (_ & Hdb & Hfiles & _);
    [|by simplify_eq].
  destruct (cacheGet env _ st1) as [[[cached|]|e] st2] eqn:Hget.
  - apply cacheGet_hit_state in Hget as ->. by simplify_eq.
  - apply cacheGet_miss_state in Hget as (_ & Hdb2 & _ & _ & Hfiles2 & _).
    destruct (similaritySearch _ _ _ _ _) as [[docs|e] st3] eqn:Hsearch;
      apply similaritySearch_state in Hsearch as ->;
      [|simplify_eq; split; congruence].
    destruct (invokeChain _ _ _ _) as [[response|e] st4] eqn:Hgen;
      apply invokeChain_state in Hgen as ->;
      simplify_eq; simpl; split; congruence.
  - by apply cacheGet_never_throws in Hget.
Qed.

(** A thrown [chatWithPdf] has written no cache entry. *)
Lemma chatWithPdf_Err_cache env name question history st e st' :
  chatWithPdf env name question history st = (Err e, st') →
  cache st' ⊆ cache st.
Proof.
  rewrite chatWithPdf_run. cbv zeta. intros H.
  destruct (getVectorStore env name st) as [[vs|e1] st1] eqn:Hindex;
    apply getVectorStore_frame in Hindex as (Hcache & _);
    [|simplify_eq; by rewrite Hcache].
  destruct (cacheGet env _ st1) as [[[cached|]|e2] st2] eqn:Hget; [done| |].
  - apply cacheGet_miss_state in Hget as (_ & _ & _ & _ & _ & Hsub).
    rewrite Hcache in Hsub.
    destruct (similaritySearch _ _ _ _ _) as [[docs|e3] st3] eqn:Hsearch;
      apply similaritySearch_state in Hsearch as ->; [|by simplify_eq].
    destruct (invokeChain _ _ _ _) as [[response|e4] st4] eqn:Hgen;
      apply invokeChain_state in Hgen as ->; by simplify_eq.
  - by apply cacheGet_never_throws in Hget.
Qed.

Lemma answer_failure_throws env name question history st :
  AnswerFailure env name question history st →
  ∃ e st', chatWithPdf env name question history st = (Err e, st').
Proof.
  intros Hfail. rewrite chatWithPdf_run. cbv zeta.
  destruct Hfail as [e st1 Hindex | vs st1 st2 Hindex Hget Hembed
                    | vs st1 st2 docs st3 Hindex Hget Hsearch Hgen];
    rewrite Hindex; [by eauto| |].
  - rewrite Hget. unfold similaritySearch, throw. rewrite Hembed. by eauto.
  - rewrite Hget, Hsearch. unfold invokeChain. unfold_monad. simpl.
    rewrite Hgen. by eauto.
Qed.

(** The handler once the request has passed its guards. *)
Lemma chatRoute_run env header uid id body pdf st :
  presentHeader header = Some uid →
  findByIdAndUser id uid st = (Ok (Some pdf), st) →
  is_Some (files st !! Path.join (uploadsDir env) (filename pdf)) →
  chatRoute env header id body st =
    match chatWithPdf env (filename pdf) body (chatHistory pdf) st with
    | (Err e, st') =>
        (RespError 500 (if bool_decide (e = "")
                        then "Failed to process chat request" else e), st')
    | (Ok result, st') =>
        let history :=
          chatHistory pdf ++
          [ {| role := User; content := body; turnSourcePages := Some [];
               turnSources := None; timestamp := nowUserTurn env |};
            {| role := Assistant; content := answer result;
               turnSourcePages := Some (sourcePages result);
               turnSources := None; timestamp := nowAssistantTurn env |} ] in
        if validPdfDocument (withChatHistory history pdf)
        then (RespChat (answer result) (sourcePages result) (sources result) history,
              setDb (fmap (λ d, if decide (docId d = docId pdf)
                                then withChatHistory history pdf else d)) st')
        else (RespError 500 "PdfDocument validation failed", st')
    end.
Proof.
  intros Hheader Hfound Hfile.
  unfold chatRoute, handler, existsSync, save. rewrite Hheader.
  unfold bind at 1. rewrite Hfound.
  unfold bind at 1. unfold gets at 1.
  rewrite bool_decide_eq_true_2 by done. simpl.
  unfold bind at 1.
  destruct (chatWithPdf _ _ _ _ _) as [[result|e] st']; [|done].
  unfold castMessage. simpl.
  destruct (validPdfDocument _); done.
Qed.

(** C3: when index resolution, the embedding of the question or the
    generation call fails, [chatWithPdf] throws, the handler answers with a
    500 error and no answer, the cache has gained no entry, and the stored
    documents, chat histories included, are as before. *)
Theorem chat_failure_aborts env header uid id body pdf st :
  presentHeader header = Some uid →
  findByIdAndUser id uid st = (Ok (Some pdf), st) →
  is_Some (files st !! Path.join (uploadsDir env) (filename pdf)) →
  AnswerFailure env (filename pdf) body (chatHistory pdf) st →
  ∃ e st',
    chatWithPdf env (filename pdf) body (chatHistory pdf) st = (Err e, st')
    ∧ (∃ message, chatRoute env header id body st = (RespError 500 message, st'))
    ∧ cache st' ⊆ cache st
    ∧ db st' = db st.
Proof.
  intros Hheader Hfound Hfile Hfail.
  destruct (answer_failure_throws _ _ _ _ _ Hfail) as (e & st' & Hthrow).
  exists e, st'. split; [done|].
  split; [|split].
  - rewrite (chatRoute_run _ _ _ _ _ _ _ Hheader Hfound Hfile), Hthrow. by eauto.
  - by eapply chatWithPdf_Err_cache.
  - by eapply chatWithPdf_frame.
Qed.

Lemma head_filter_saved (id : nat) (uid : string) (pdf pdf' : PdfDocument)
    (docs : list PdfDocument) :
  pdf ∈ docs → docId pdf = id → docId pdf' = id → userId pdf' = uid →
  head (filter (λ d, docId d = id ∧ userId d = uid)
          ((λ d, if decide (docId d = docId pdf) then pdf' else d) <$> docs))
    = Some pdf'.
Proof.
  intros Hin Hid Hid' Huid.
  induction docs as [|d docs IH]; [by apply elem_of_nil in Hin|].
  rewrite fmap_cons. destruct (decide (docId d = docId pdf)) as [Hd|Hd].
  - by rewrite filter_cons_True.
  - rewrite filter_cons_False by (intros [? _]; congruence).
    apply IH. apply elem_of_cons in Hin as [->|Hin]; done.
Qed.

(** A chat request answered with 200 leaves the stored history extended by
    exactly two turns, the user turn with the question and then the
    assistant turn with the answer and its [sourcePages]; the turns that
    were there before are kept in place.  The [sources] of the answer are in
    the response, and the stored assistant turn has none. *)
Theorem chatRoute_appends_turns env header id body st message pages srcs history st' :
  chatRoute env header id body st = (RespChat message pages srcs history, st') →
  ∃ uid pdf result st1,
    presentHeader header = Some uid
    ∧ findByIdAndUser id uid st = (Ok (Some pdf), st)
    ∧ chatWithPdf env (filename pdf) body (chatHistory pdf) st = (Ok result, st1)
    ∧ message = answer result ∧ pages = sourcePages result ∧ srcs = sources result
    ∧ history =
        chatHistory pdf ++
        [ {| role := User; content := body; turnSourcePages := Some [];
             turnSources := None; timestamp := nowUserTurn env |};
          {| role := Assistant; content := message;
             turnSourcePages := Some pages;
             turnSources := None; timestamp := nowAssistantTurn env |} ]
    ∧ findByIdAndUser id uid st' = (Ok (Some (withChatHistory history pdf)), st').
Proof.
  intros Hroute.
  destruct (presentHeader header) as [uid|] eqn:Hheader;
    [|by unfold chatRoute, handler in Hroute; rewrite Hheader in Hroute].
  destruct (head (filter (λ d, docId d = id ∧ userId d = uid) (db st)))
    as [pdf|] eqn:Hhead;
    [|by unfold chatRoute, handler, findByIdAndUser, bind, gets in Hroute;
         rewrite Hheader, Hhead in Hroute].
  assert (findByIdAndUser id uid st = (Ok (Some pdf), st)) as Hfound
    by (unfold findByIdAndUser, gets; by rewrite Hhead).
  destruct (files st !! Path.join (uploadsDir env) (filename pdf)) as [buffer|] eqn:Hfile.
  2:{ unfold chatRoute, handler, existsSync in Hroute. rewrite Hheader in Hroute.
      unfold bind at 1 in Hroute. rewrite Hfound in Hroute.
      unfold bind at 1, gets at 1 in Hroute. rewrite Hfile in Hroute.
      rewrite bool_decide_eq_false_2 in Hroute by (by intros [? ?]). done. }
  rewrite (chatRoute_run env header uid id body pdf st) in Hroute
    by (try done; rewrite Hfile; eauto).
  destruct (chatWithPdf _ _ _ _ _) as [[result|e] st1] eqn:Hchat; [|done].
  cbv zeta in Hroute. destruct (validPdfDocument _); [|done].
  simplify_eq. exists uid, pdf, result, st1.
  repeat (split; [done|]).
  unfold findByIdAndUser, gets. simpl. f_equal. f_equal.
  apply chatWithPdf_frame in Hchat as [-> _].
  apply head_Some_elem_of in Hhead as Hin.
  apply list_elem_of_filter in Hin as [[Hid Huid] Hin].
  by apply head_filter_saved.
Qed.

End ChatRoute.

Lemma chat_failure_aborts_witness :
  ∃ e st',
    chatWithPdf Scenario.offline (filename Scenario.storedDoc) "c"
      (chatHistory Scenario.storedDoc) Scenario.uploaded = (Err e, st')
    ∧ (∃ message, chatRoute Scenario.offline (Some "u1") 1 "c" Scenario.uploaded
                  = (RespError 500 message, st'))
    ∧ cache st' ⊆ cache Scenario.uploaded
    ∧ db st' = db Scenario.uploaded.
Proof.
  apply (chat_failure_aborts Scenario.offline (Some "u1") "u1" 1 "c"
           Scenario.storedDoc Scenario.uploaded).
  - reflexivity.
  - vm_compute. reflexivity.
  - vm_compute. eauto.
  - destruct (vectorStores Scenario.uploaded !! "17-1.pdf") as [vs|] eqn:Hreg;
      [|by vm_compute in Hreg].
    apply (QuestionEmbeddingFails Scenario.offline _ _ _ _ vs
             Scenario.uploaded Scenario.uploaded).
    + by apply getVectorStore_registered.
    + vm_compute. reflexivity.
    + reflexivity.
Defined.

Lemma chatRoute_appends_turns_witness :
  ∃ uid pdf result st1,
    presentHeader (Some "u1") = Some uid
    ∧ findByIdAndUser 1 uid Scenario.uploaded = (Ok (Some pdf), Scenario.uploaded)
    ∧ chatWithPdf Scenario.env (filename pdf) "c" (chatHistory pdf) Scenario.uploaded
      = (Ok result, st1)
    ∧ answer Scenario.reply = answer result
    ∧ sourcePages Scenario.reply = sourcePages result
    ∧ sources Scenario.reply = sources result
    ∧ Scenario.storedHistory =
        chatHistory pdf ++
        [ {| role := User; content := "c"; turnSourcePages := Some [];
             turnSources := None; timestamp := nowUserTurn Scenario.env |};
          {| role := Assistant; content := answer Scenario.reply;
             turnSourcePages := Some (sourcePages Scenario.reply);
             turnSources := None; timestamp := nowAssistantTurn Scenario.env |} ]
    ∧ findByIdAndUser 1 uid
        (snd (chatRoute Scenario.env (Some "u1") 1 "c" Scenario.uploaded))
      = (Ok (Some (withChatHistory Scenario.storedHistory pdf)),
         snd (chatRoute Scenario.env (Some "u1") 1 "c" Scenario.uploaded)).
Proof.
  apply (chatRoute_appends_turns Scenario.env (Some "u1") 1 "c" Scenario.uploaded
           (answer Scenario.reply) (sourcePages Scenario.reply)
           (sources Scenario.reply) Scenario.storedHistory
           (snd (chatRoute Scenario.env (Some "u1") 1 "c" Scenario.uploaded))).
  vm_compute. reflexivity.
Defined.

(** C6 on the scenario: the response carries three sources, the assistant
    turn that is stored and sent back in [chatHistory] carries none. *)
Lemma stored_assistant_turn_has_no_sources :
  ∃ st',
    chatRoute Scenario.env (Some "u1") 1 "c" Scenario.uploaded
      = (RespChat (answer Scenario.reply) (sourcePages Scenario.reply)
                  (sources Scenario.reply) Scenario.storedHistory, st')
    ∧ length (sources Scenario.reply) = 3%nat
    ∧ chatHistory <$> db st' = [Scenario.storedHistory]
    ∧ turnSources <$> Scenario.storedHistory = [None; None].
Proof.
  eexists. split; [vm_compute; reflexivity|].
  split; [reflexivity|]. split; [vm_compute; reflexivity | reflexivity].
Qed.

(** C1 on the scenario: after a restart the index is rebuilt from the stored
    chunks, which have [page] and no [pageNumber]; the answer's
    [sourcePages] is [[undefined]], none of the pages 1, 2, 3 of the stored
    chunks.  With the index built at upload the same question yields
    [[1; 2]]. *)
Theorem rebuilt_index_sourcePages_undefined :
  vectorStores (Scenario.restart Scenario.uploaded) !! "17-1.pdf" = None
  ∧ page ∘ metadata <$> documentChunks Scenario.storedDoc
    = [Some 1; Some 1; Some 2; Some 2; Some 3]
  ∧ db (Scenario.restart Scenario.uploaded) = [Scenario.storedDoc]
  ∧ (∃ result st',
       chatWithPdf Scenario.env "17-1.pdf" "c" []
         (Scenario.restart Scenario.uploaded) = (Ok result, st')
       ∧ sourcePages result = [None]
       ∧ ¬ sourcePages result ⊆ page ∘ metadata <$> documentChunks Scenario.storedDoc)
  ∧ fst (chatWithPdf Scenario.env "17-1.pdf" "c" [] Scenario.uploaded)
    = Ok Scenario.reply.
Proof.
  split; [vm_compute; reflexivity|]. split; [reflexivity|].
  split; [vm_compute; reflexivity|]. split; [|vm_compute; reflexivity].
  eexists _, _. split; [vm_compute; reflexivity|]. split; [reflexivity|].
  simpl. intros Hsub.
  specialize (Hsub None (list_elem_of_here _ _)).
  repeat (apply elem_of_cons in Hsub as [Hsub|Hsub]; [done|]).
  by apply elem_of_nil in Hsub.
Qed.

(** ** Interleaved index resolution *)

Section Interleaving.

Context {Vec : Type}.
Implicit Types (env : Env Vec) (st : State Vec).

Lemma fromDocuments_built env docs st vectors :
  embedDocuments env (embedPasses st) (pageContent <$> docs) = Some vectors →
  (length vectors ≤ length docs)%nat →
  fromDocuments env docs st
    = (Ok (builtStore vectors docs (embedPasses st)), tickEmbedPasses st).
Proof.
  intros Hembed Hlen. unfold fromDocuments. unfold_monad. simpl.
  rewrite Hembed. destruct (decide _); [lia | done].
Qed.

Lemma step_start_miss env name st :
  vectorStores st !! name = None →
  stepRequest env name PcStart st = (PcFindOne, st).
Proof. intros H. simpl. by rewrite H. Qed.

Lemma step_start_hit env name st vs :
  vectorStores st !! name = Some vs →
  stepRequest env name PcStart st = (PcResolved vs, st).
Proof. intros H. simpl. by rewrite H. Qed.

Lemma step_findOne_stored env name st pdfDoc :
  head (filter (λ d, filename d = name) (db st)) = Some pdfDoc →
  (0 < length (documentChunks pdfDoc))%nat →
  stepRequest env name PcFindOne st = (PcEmbedStored (documentChunks pdfDoc), st).
Proof.
  intros Hhead Hlen. simpl. unfold findByFilename, gets. rewrite Hhead.
  by destruct (decide _).
Qed.

Lemma step_embed_stored env name st docs vectors :
  embedDocuments env (embedPasses st) (pageContent <$> docs) = Some vectors →
  (length vectors ≤ length docs)%nat →
  stepRequest env name (PcEmbedStored docs) st
    = (PcResolved (builtStore vectors docs (embedPasses st)),
       setVectorStores <[name := builtStore vectors docs (embedPasses st)]>
         (tickEmbedPasses st)).
Proof.
  intros Hembed Hlen. simpl. by rewrite (fromDocuments_built _ _ _ vectors).
Qed.

(** One request run alone through its steps does what lines 234-263 of
    [chatWithPdf] do. *)
Lemma runSchedule_alone env name st :
  runSchedule env [0; 0; 0; 0]%nat [(name, PcStart)] st =
    match getVectorStore env name st with
    | (Ok vectorStore, st') => ([(name, PcResolved vectorStore)], st')
    | (Err e, st') => ([(name, PcThrown e)], st')
    end.
Proof.
  unfold getVectorStore. unfold_monad. simpl.
  destruct (vectorStores st !! name) as [vs|]; [done|]. simpl.
  unfold findByFilename, gets.
  destruct (head _) as [pdfDoc|]; simpl; [|done].
  destruct (decide _); simpl.
  - by destruct (fromDocuments _ _ _) as [[vs|e] st2].
  - destruct (processPdf _ _ _) as [[processed|e] st2]; simpl; [|done].
    by destruct (fromDocuments _ _ _) as [[vs|e] st3].
Qed.

End Interleaving.

(** *** Two requests for one file, under every schedule *)

Lemma stepsOf_here (i : nat) (schedule : list nat) :
  stepsOf i (i :: schedule) = S (stepsOf i schedule).
Proof. unfold stepsOf. by rewrite filter_cons_True. Qed.

Lemma stepsOf_other (i j : nat) (schedule : list nat) :
  j ≠ i → stepsOf i (j :: schedule) = stepsOf i schedule.
Proof. intros Hne. unfold stepsOf. by rewrite filter_cons_False. Qed.

Lemma readsAfterBuild_started (steps0 steps1 : nat) (schedule : list nat) :
  (0 < steps0)%nat → (0 < steps1)%nat →
  readsAfterBuild steps0 steps1 schedule = false.
Proof.
  revert steps0 steps1.
  induction schedule as [|[|[|k]] schedule IH]; intros steps0 steps1 H0 H1; simpl.
  - done.
  - rewrite bool_decide_eq_false_2 by lia. apply IH; lia.
  - rewrite bool_decide_eq_false_2 by lia. apply IH; lia.
  - by apply IH.
Qed.

(** What [readsAfterBuild] computes, in terms of positions in the schedule:
    some entry is the first step of one request and has at least three
    steps of the other request before it. *)
Lemma readsAfterBuild_true (steps0 steps1 : nat) (schedule : list nat) :
  readsAfterBuild steps0 steps1 schedule = true ↔
    ∃ before after,
      (schedule = before ++ 0%nat :: after
       ∧ (steps0 + stepsOf 0 before = 0)%nat
       ∧ (3 ≤ steps1 + stepsOf 1 before)%nat)
      ∨ (schedule = before ++ 1%nat :: after
         ∧ (steps1 + stepsOf 1 before = 0)%nat
         ∧ (3 ≤ steps0 + stepsOf 0 before)%nat).
Proof.
  revert steps0 steps1.
  induction schedule as [|i schedule IH]; intros steps0 steps1.
  { split; [done|]. intros (before & after & [[H _]|[H _]]);
      by destruct before. }
  assert (∀ c0 c1,
            readsAfterBuild c0 c1 schedule = true →
            (c0 = if decide (i = 0%nat) then S steps0 else steps0) →
            (c1 = if decide (i = 1%nat) then S steps1 else steps1) →
            ∃ before after,
              (i :: schedule = before ++ 0%nat :: after
               ∧ (steps0 + stepsOf 0 before = 0)%nat
               ∧ (3 ≤ steps1 + stepsOf 1 before)%nat)
              ∨ (i :: schedule = before ++ 1%nat :: after
                 ∧ (steps1 + stepsOf 1 before = 0)%nat
                 ∧ (3 ≤ steps0 + stepsOf 0 before)%nat)) as Hlater.
  { intros c0 c1 Hrest -> ->.
    apply IH in Hrest as (before & after & Hrest).
    exists (i :: before), after.
    destruct i as [|[|k]]; simpl in Hrest;
      rewrite ?stepsOf_here, ?stepsOf_other by done;
      destruct Hrest as [(-> & ? & ?)|(-> & ? & ?)]; [left|right|left|right|left|right];
      (split; [done|lia]). }
  assert (∀ before after,
            (schedule = before ++ 0%nat :: after
             ∧ ((if decide (i = 0%nat) then S steps0 else steps0)
                + stepsOf 0 before = 0)%nat
             ∧ (3 ≤ (if decide (i = 1%nat) then S steps1 else steps1)
                    + stepsOf 1 before)%nat)
            ∨ (schedule = before ++ 1%nat :: after
               ∧ ((if decide (i = 1%nat) then S steps1 else steps1)
                  + stepsOf 1 before = 0)%nat
               ∧ (3 ≤ (if decide (i = 0%nat) then S steps0 else steps0)
                      + stepsOf 0 before)%nat) →
            readsAfterBuild
              (if decide (i = 0%nat) then S steps0 else steps0)
              (if decide (i = 1%nat) then S steps1 else steps1) schedule = true)
    as Hrest.
  { intros before after H. apply IH. by exists before, after. }
  split.
  - destruct i as [|[|k]]; simpl.
    + intros [Hnow|Hrun]%orb_true_iff.
      * apply bool_decide_eq_true in Hnow as [-> ?].
        exists [], schedule. left. unfold stepsOf. simpl. split; [done|lia].
      * by apply (Hlater _ _ Hrun).
    + intros [Hnow|Hrun]%orb_true_iff.
      * apply bool_decide_eq_true in Hnow as [-> ?].
        exists [], schedule. right. unfold stepsOf. simpl. split; [done|lia].
      * by apply (Hlater _ _ Hrun).
    + intros Hrun. by apply (Hlater _ _ Hrun).
  - intros (before & after & H).
    destruct before as [|j before].
    + unfold stepsOf in H. simpl in H. rewrite !Nat.add_0_r in H.
      destruct H as [(Heq & -> & ?)|(Heq & -> & ?)]; simplify_eq; simpl;
        by rewrite bool_decide_eq_true_2.
    + assert (j = i) as -> by (destruct H as [[H _]|[H _]]; by simplify_eq/=).
      specialize (Hrest before after).
      destruct i as [|[|k]]; simpl in *;
        rewrite ?stepsOf_here, ?stepsOf_other in H by done;
        (try (apply orb_true_iff; right)); apply Hrest;
        destruct H as [(Heq & ? & ?)|(Heq & ? & ?)]; simplify_eq;
        [left|right|left|right|left|right]; (split; [done|lia]).
Qed.

Lemma firstToBuild_None (steps0 steps1 : nat) (schedule : list nat) :
  (steps0 ≤ 2)%nat → (steps1 ≤ 2)%nat →
  firstToBuild steps0 steps1 schedule = None →
  (steps0 + stepsOf 0 schedule ≤ 2)%nat ∧ (steps1 + stepsOf 1 schedule ≤ 2)%nat.
Proof.
  revert steps0 steps1.
  induction schedule as [|[|[|k]] schedule IH]; intros steps0 steps1 H0 H1;
    rewrite ?stepsOf_here, ?stepsOf_other by done; simpl.
  - intros _. unfold stepsOf. simpl. lia.
  - destruct (decide (steps0 = 2%nat)); [done|]. intros H.
    apply IH in H; lia.
  - destruct (decide (steps1 = 2%nat)); [done|]. intros H.
    apply IH in H; lia.
  - by apply IH.
Qed.

Section TwoRequests.

Context {Vec : Type}.
Context (env : Env Vec) (name : string) (st : State Vec) (pdfDoc : PdfDocument).
Context (vectorsA vectorsB : list Vec).

Hypothesis Hreg : vectorStores st !! name = None.
Hypothesis Hdoc : head (filter (λ d, filename d = name) (db st)) = Some pdfDoc.
Hypothesis Hchunks : (0 < length (documentChunks pdfDoc))%nat.
Hypothesis HembedA :
  embedDocuments env (embedPasses st) (pageContent <$> documentChunks pdfDoc)
    = Some vectorsA.
Hypothesis HembedB :
  embedDocuments env (S (embedPasses st)) (pageContent <$> documentChunks pdfDoc)
    = Some vectorsB.
Hypothesis HlenA : (length vectorsA ≤ length (documentChunks pdfDoc))%nat.
Hypothesis HlenB : (length vectorsB ≤ length (documentChunks pdfDoc))%nat.

Local Notation "'docs'" := (documentChunks pdfDoc).
Local Notation "'vsA'" := (builtStore vectorsA (documentChunks pdfDoc) (embedPasses st)).
Local Notation "'vsB'" := (builtStore vectorsB (documentChunks pdfDoc) (S (embedPasses st))).
Local Notation "'stA'" := (setVectorStores <[name := vsA]> (tickEmbedPasses st)).
Local Notation "'stB'" := (setVectorStores <[name := vsB]> (tickEmbedPasses stA)).

Local Ltac schedule_step :=
  cbn [runSchedule lookup list_lookup insert list_insert].

(** Requests that hold their index do nothing more. *)
Lemma runSchedule_resolved (schedule : list nat) (vs0 vs1 : VectorStore Vec)
    (st0 : State Vec) :
  runSchedule env schedule [(name, PcResolved vs0); (name, PcResolved vs1)] st0
    = ([(name, PcResolved vs0); (name, PcResolved vs1)], st0).
Proof.
  induction schedule as [|[|[|k]] schedule IH]; [done|..]; schedule_step;
    simpl; apply IH.
Qed.

(** Before its third step a request holds no index. *)
Lemma pcAfter_early (vs vs' : VectorStore Vec) (steps : nat) :
  (steps ≤ 2)%nat → pcAfter docs vs steps = pcAfter docs vs' steps.
Proof. intros Hsteps. destruct steps as [|[|[|steps]]]; [done..|lia]. Qed.

(** The steps of a request while no build is complete. *)
Lemma step_before_build (steps : nat) (vs : VectorStore Vec) :
  (steps < 2)%nat →
  stepRequest env name (pcAfter docs vs steps) st = (pcAfter docs vs (S steps), st).
Proof.
  intros Hsteps. destruct steps as [|[|steps]]; [| |lia].
  - by apply step_start_miss.
  - by apply step_findOne_stored.
Qed.

(** The steps of the second request once the first one has built. *)
Lemma step_after_read (steps : nat) :
  (1 ≤ steps ≤ 2)%nat →
  stepRequest env name (pcAfter docs vsB steps) stA
    = (pcAfter docs vsB (S steps), if decide (steps = 2%nat) then stB else stA).
Proof.
  intros Hsteps. destruct steps as [|[|[|steps]]]; [lia| | |lia].
  - by apply step_findOne_stored.
  - by apply step_embed_stored.
Qed.

(** Request 0 has built; request 1 has taken [steps1 ≤ 2] steps. *)
Lemma runSchedule_after_build_0 (schedule : list nat) (steps0 steps1 : nat) :
  (3 ≤ steps0)%nat → (steps1 ≤ 2)%nat →
  runSchedule env schedule
    [(name, PcResolved vsA); (name, pcAfter docs vsB steps1)] stA
  = if readsAfterBuild steps0 steps1 schedule
    then ([(name, PcResolved vsA); (name, PcResolved vsA)], stA)
    else ([(name, PcResolved vsA);
           (name, pcAfter docs vsB (steps1 + stepsOf 1 schedule))],
          if decide (3 ≤ steps1 + stepsOf 1 schedule)%nat then stB else stA).
Proof.
  revert steps0 steps1.
  induction schedule as [|[|[|k]] schedule IH]; intros steps0 steps1 H0 H1;
    rewrite ?stepsOf_here, ?stepsOf_other by done.
  - unfold stepsOf. simpl. rewrite Nat.add_0_r.
    by rewrite decide_False by lia.
  - schedule_step. simpl readsAfterBuild.
    rewrite bool_decide_eq_false_2 by lia. simpl.
    apply (IH (S steps0) steps1); lia.
  - schedule_step. simpl readsAfterBuild.
    destruct (decide (steps1 = 0%nat)) as [->|Hstarted].
    + rewrite bool_decide_eq_true_2 by (split; [done|lia]).
      rewrite (step_start_hit env name stA vsA) by apply lookup_insert_eq.
      schedule_step. apply runSchedule_resolved.
    + rewrite bool_decide_eq_false_2 by lia.
      rewrite step_after_read by lia. schedule_step.
      rewrite Nat.add_succ_r. simpl orb.
      destruct (decide (steps1 = 2%nat)) as [->|Hfound].
      * cbn [pcAfter]. rewrite runSchedule_resolved.
        rewrite readsAfterBuild_started by lia.
        by rewrite decide_True by lia.
      * cbn [pcAfter]. apply (IH steps0 (S steps1)); lia.
  - schedule_step. simpl readsAfterBuild. by apply IH.
Qed.

(** Request 1 has built; request 0 has taken [steps0 ≤ 2] steps. *)
Lemma runSchedule_after_build_1 (schedule : list nat) (steps0 steps1 : nat) :
  (steps0 ≤ 2)%nat → (3 ≤ steps1)%nat →
  runSchedule env schedule
    [(name, pcAfter docs vsB steps0); (name, PcResolved vsA)] stA
  = if readsAfterBuild steps0 steps1 schedule
    then ([(name, PcResolved vsA); (name, PcResolved vsA)], stA)
    else ([(name, pcAfter docs vsB (steps0 + stepsOf 0 schedule));
           (name, PcResolved vsA)],
          if decide (3 ≤ steps0 + stepsOf 0 schedule)%nat then stB else stA).
Proof.
  revert steps0 steps1.
  induction schedule as [|[|[|k]] schedule IH]; intros steps0 steps1 H0 H1;
    rewrite ?stepsOf_here, ?stepsOf_other by done.
  - unfold stepsOf. simpl. rewrite Nat.add_0_r.
    by rewrite decide_False by lia.
  - schedule_step. simpl readsAfterBuild.
    destruct (decide (steps0 = 0%nat)) as [->|Hstarted].
    + rewrite bool_decide_eq_true_2 by (split; [done|lia]).
      rewrite (step_start_hit env name stA vsA) by apply lookup_insert_eq.
      schedule_step. apply runSchedule_resolved.
    + rewrite bool_decide_eq_false_2 by lia.
      rewrite step_after_read by lia. schedule_step.
      rewrite Nat.add_succ_r. simpl orb.
      destruct (decide (steps0 = 2%nat)) as [->|Hfound].
      * cbn [pcAfter]. rewrite runSchedule_resolved.
        rewrite readsAfterBuild_started by lia.
        by rewrite decide_True by lia.
      * cbn [pcAfter]. apply (IH (S steps0) steps1); lia.
  - schedule_step. simpl readsAfterBuild.
    rewrite bool_decide_eq_false_2 by lia. simpl.
    apply (IH steps0 (S steps1)); lia.
  - schedule_step. simpl readsAfterBuild. by apply IH.
Qed.

(** No build is complete; the requests have taken [steps0, steps1 ≤ 2]
    steps. *)
Lemma runSchedule_before_build (schedule : list nat) (steps0 steps1 : nat) :
  (steps0 ≤ 2)%nat → (steps1 ≤ 2)%nat →
  runSchedule env schedule
    [(name, pcAfter docs vsA steps0); (name, pcAfter docs vsA steps1)] st
  = match firstToBuild steps0 steps1 schedule with
    | None =>
        ([(name, pcAfter docs vsA (steps0 + stepsOf 0 schedule));
          (name, pcAfter docs vsA (steps1 + stepsOf 1 schedule))], st)
    | Some 0%nat =>
        if readsAfterBuild steps0 steps1 schedule
        then ([(name, PcResolved vsA); (name, PcResolved vsA)], stA)
        else ([(name, PcResolved vsA);
               (name, pcAfter docs vsB (steps1 + stepsOf 1 schedule))],
              if decide (3 ≤ steps1 + stepsOf 1 schedule)%nat then stB else stA)
    | Some _ =>
        if readsAfterBuild steps0 steps1 schedule
        then ([(name, PcResolved vsA); (name, PcResolved vsA)], stA)
        else ([(name, pcAfter docs vsB (steps0 + stepsOf 0 schedule));
               (name, PcResolved vsA)],
              if decide (3 ≤ steps0 + stepsOf 0 schedule)%nat then stB else stA)
    end.
Proof.
  revert steps0 steps1.
  induction schedule as [|[|[|k]] schedule IH]; intros steps0 steps1 H0 H1;
    rewrite ?stepsOf_here, ?stepsOf_other by done.
  - unfold stepsOf. simpl. by rewrite !Nat.add_0_r.
  - schedule_step. simpl firstToBuild. simpl readsAfterBuild.
    rewrite bool_decide_eq_false_2 by lia. simpl orb.
    rewrite Nat.add_succ_r.
    destruct (decide (steps0 = 2%nat)) as [->|Hfound].
    + simpl pcAfter. rewrite (step_embed_stored env name st _ vectorsA) by done.
      schedule_step. rewrite (pcAfter_early vsA vsB steps1) by done.
      by apply (runSchedule_after_build_0 schedule 3 steps1).
    + rewrite step_before_build by lia. schedule_step.
      apply (IH (S steps0) steps1); lia.
  - schedule_step. simpl firstToBuild. simpl readsAfterBuild.
    rewrite bool_decide_eq_false_2 by lia. simpl orb.
    rewrite Nat.add_succ_r.
    destruct (decide (steps1 = 2%nat)) as [->|Hfound].
    + simpl pcAfter. rewrite (step_embed_stored env name st _ vectorsA) by done.
      schedule_step. rewrite (pcAfter_early vsA vsB steps0) by done.
      by apply (runSchedule_after_build_1 schedule steps0 3).
    + rewrite step_before_build by lia. schedule_step.
      apply (IH steps0 (S steps1)); lia.
  - schedule_step. simpl firstToBuild. simpl readsAfterBuild. by apply IH.
Qed.

(** C8, as the code has it: nothing makes a second request wait for a build
    in progress.  Take two requests for a file without registered index
    whose record has stored chunks, and any schedule of their steps.

    - A schedule that gives each request three steps lets both resolve
      their index.
    - Whenever both have resolved their index: if one of them read the
      registry only after the other had completed its build, one embedding
      pass has run and both hold the index of that pass, which is the
      registered one.  In every other schedule two passes have run; the
      request that completed its build first holds the index of the first
      pass, the other one the index of the second pass, and the registry
      holds the index of the second pass. *)
Theorem index_build_not_single_flight (schedule : list nat) :
  ((3 ≤ stepsOf 0 schedule)%nat → (3 ≤ stepsOf 1 schedule)%nat →
   ∃ vs0 vs1 st',
     runSchedule env schedule [(name, PcStart); (name, PcStart)] st
       = ([(name, PcResolved vs0); (name, PcResolved vs1)], st'))
  ∧ ∀ vs0 vs1 st',
      runSchedule env schedule [(name, PcStart); (name, PcStart)] st
        = ([(name, PcResolved vs0); (name, PcResolved vs1)], st') →
      if readsAfterBuild 0 0 schedule
      then embedPasses st' = S (embedPasses st)
           ∧ vs0 = vs1
           ∧ vs0 = builtStore vectorsA (documentChunks pdfDoc) (embedPasses st)
           ∧ vectorStores st' !! name = Some vs0
      else embedPasses st' = (embedPasses st + 2)%nat
           ∧ storeId vs0 ≠ storeId vs1
           ∧ vectorStores st' !! name
             = Some (builtStore vectorsB (documentChunks pdfDoc)
                       (S (embedPasses st)))
           ∧ match firstToBuild 0 0 schedule with
             | Some 0%nat =>
                 vs0 = builtStore vectorsA (documentChunks pdfDoc) (embedPasses st)
                 ∧ vs1 = builtStore vectorsB (documentChunks pdfDoc)
                           (S (embedPasses st))
             | Some _ =>
                 vs1 = builtStore vectorsA (documentChunks pdfDoc) (embedPasses st)
                 ∧ vs0 = builtStore vectorsB (documentChunks pdfDoc)
                           (S (embedPasses st))
             | None => False
             end.
Proof.
  pose proof (runSchedule_before_build schedule 0 0) as Hrun.
  change (pcAfter docs vsA 0) with (@PcStart Vec) in Hrun.
  rewrite Hrun by lia. clear Hrun. simpl Nat.add.
  pose proof (firstToBuild_None 0 0 schedule) as Hnone. simpl Nat.add in Hnone.
  split.
  - intros H0 H1.
    destruct (firstToBuild 0 0 schedule) as [[|who]|];
      [| |destruct Hnone; [lia..|done|lia]];
      (destruct (readsAfterBuild 0 0 schedule); [by eexists _, _, _|]).
    + destruct (stepsOf 1 schedule) as [|[|[|k]]]; [lia..|]. by eexists _, _, _.
    + destruct (stepsOf 0 schedule) as [|[|[|k]]]; [lia..|]. by eexists _, _, _.
  - intros vs0 vs1 st'.
    destruct (firstToBuild 0 0 schedule) as [[|who]|].
    + destruct (readsAfterBuild 0 0 schedule).
      * intros H. simplify_eq. repeat split. simpl. apply lookup_insert_eq.
      * destruct (stepsOf 1 schedule) as [|[|[|k]]]; [done..|].
        rewrite decide_True by lia. cbn [pcAfter]. intros H. simplify_eq. simpl.
        split; [lia|]. split; [lia|]. split; [apply lookup_insert_eq|done].
    + destruct (readsAfterBuild 0 0 schedule).
      * intros H. simplify_eq. repeat split. simpl. apply lookup_insert_eq.
      * destruct (stepsOf 0 schedule) as [|[|[|k]]]; [done..|].
        rewrite decide_True by lia. cbn [pcAfter]. intros H. simplify_eq. simpl.
        split; [lia|]. split; [lia|]. split; [apply lookup_insert_eq|done].
    + destruct Hnone as [H0 H1]; [lia..|done|].
      destruct (stepsOf 0 schedule) as [|[|[|k]]]; [done..|lia].
Qed.

End TwoRequests.

(** Two schedules of the scenario: request 0 reads and builds between the
    first two steps of request 1; and request 1 starts when request 0 is
    done. *)
Lemma index_build_not_single_flight_witness :
  (∃ vs0 vs1 st',
     runSchedule Scenario.env [0; 1; 0; 0; 1; 1]%nat Scenario.twoRequests
       (Scenario.restart Scenario.uploaded)
       = ([("17-1.pdf", PcResolved vs0); ("17-1.pdf", PcResolved vs1)], st')
     ∧ embedPasses st' = (embedPasses (Scenario.restart Scenario.uploaded) + 2)%nat
     ∧ storeId vs0 ≠ storeId vs1
     ∧ vectorStores st' !! "17-1.pdf"
       = Some (builtStore [97; 98; 99; 100; 101]
                 (documentChunks Scenario.storedDoc)
                 (S (embedPasses (Scenario.restart Scenario.uploaded))))
     ∧ vs0 = builtStore [97; 98; 99; 100; 101] (documentChunks Scenario.storedDoc)
               (embedPasses (Scenario.restart Scenario.uploaded))
     ∧ vs1 = builtStore [97; 98; 99; 100; 101] (documentChunks Scenario.storedDoc)
               (S (embedPasses (Scenario.restart Scenario.uploaded))))
  ∧ (∃ vs0 vs1 st',
       runSchedule Scenario.env oneAfterTheOther Scenario.twoRequests
         (Scenario.restart Scenario.uploaded)
         = ([("17-1.pdf", PcResolved vs0); ("17-1.pdf", PcResolved vs1)], st')
       ∧ embedPasses st' = S (embedPasses (Scenario.restart Scenario.uploaded))
       ∧ vs0 = vs1
       ∧ vs0 = builtStore [97; 98; 99; 100; 101]
                 (documentChunks Scenario.storedDoc)
                 (embedPasses (Scenario.restart Scenario.uploaded))
       ∧ vectorStores st' !! "17-1.pdf" = Some vs0).
Proof.
  assert (vectorStores (Scenario.restart Scenario.uploaded) !! "17-1.pdf" = None)
    as Hreg by (vm_compute; reflexivity).
  assert (head (filter (λ d, filename d = "17-1.pdf")
                  (db (Scenario.restart Scenario.uploaded)))
          = Some Scenario.storedDoc) as Hdoc by (vm_compute; reflexivity).
  assert (0 < length (documentChunks Scenario.storedDoc))%nat
    as Hchunks by (vm_compute; lia).
  assert (embedDocuments Scenario.env
            (embedPasses (Scenario.restart Scenario.uploaded))
            (pageContent <$> documentChunks Scenario.storedDoc)
          = Some [97; 98; 99; 100; 101]) as HembedA by (vm_compute; reflexivity).
  assert (embedDocuments Scenario.env
            (S (embedPasses (Scenario.restart Scenario.uploaded)))
            (pageContent <$> documentChunks Scenario.storedDoc)
          = Some [97; 98; 99; 100; 101]) as HembedB by (vm_compute; reflexivity).
  assert (length [97; 98; 99; 100; 101]
          ≤ length (documentChunks Scenario.storedDoc))%nat
    as Hlen by (vm_compute; lia).
  split.
  - destruct (index_build_not_single_flight Scenario.env "17-1.pdf"
                (Scenario.restart Scenario.uploaded) Scenario.storedDoc
                [97; 98; 99; 100; 101] [97; 98; 99; 100; 101]
                Hreg Hdoc Hchunks HembedA HembedB Hlen Hlen
                [0; 1; 0; 0; 1; 1]%nat) as [Hresolve Hshape].
    destruct Hresolve as (vs0 & vs1 & st' & Hrun);
      [vm_compute; lia | vm_compute; lia |].
    exists vs0, vs1, st'. split; [exact Hrun|].
    destruct (Hshape vs0 vs1 st' Hrun)
      as (Hpasses & Hids & Hregistry & Hfirst & Hsecond).
    repeat split; assumption.
  - destruct (index_build_not_single_flight Scenario.env "17-1.pdf"
                (Scenario.restart Scenario.uploaded) Scenario.storedDoc
                [97; 98; 99; 100; 101] [97; 98; 99; 100; 101]
                Hreg Hdoc Hchunks HembedA HembedB Hlen Hlen
                oneAfterTheOther) as [_ Hshape].
    eexists _, _, _. split; [vm_compute; reflexivity|].
    apply Hshape. vm_compute. reflexivity.
Defined.

(** C8 as stated fails: two requests first access the index of the same
    file, two embedding passes run, and the requests end up with different
    index objects. *)
Lemma two_requests_two_builds :
  ∃ vsA vsB st',
    vectorStores (Scenario.restart Scenario.uploaded) !! "17-1.pdf" = None
    ∧ runSchedule Scenario.env overlapping Scenario.twoRequests
        (Scenario.restart Scenario.uploaded)
      = ([("17-1.pdf", PcResolved vsA); ("17-1.pdf", PcResolved vsB)], st')
    ∧ embedPasses (Scenario.restart Scenario.uploaded) = 1%nat
    ∧ embedPasses st' = 3%nat
    ∧ storeId vsA = 1%nat ∧ storeId vsB = 2%nat
    ∧ vsA ≠ vsB.
Proof.
  eexists _, _, _. split; [vm_compute; reflexivity|].
  split; [vm_compute; reflexivity|].
  split; [vm_compute; reflexivity|]. split; [vm_compute; reflexivity|].
  split; [reflexivity|]. split; [reflexivity|]. intros Heq. by inversion Heq.
Qed.

(** ** Source pages *)

Lemma setOf_elem_of {A} `{EqDecision A} (xs : list A) (x : A) :
  x ∈ setOf xs ↔ x ∈ xs.
Proof.
  unfold setOf. by rewrite elem_of_reverse, elem_of_remove_dups, elem_of_reverse.
Qed.

Lemma setOf_NoDup {A} `{EqDecision A} (xs : list A) : NoDup (setOf xs).
Proof. unfold setOf. rewrite reverse_Permutation. apply NoDup_remove_dups. Qed.

Lemma NoDup_omap_id (xs : list (option Z)) : NoDup xs → NoDup (omap id xs).
Proof.
  induction 1 as [|x xs Hx _ IH]; simpl; [constructor|].
  destruct x as [z|]; simpl; [|done].
  constructor; [|done].
  rewrite list_elem_of_omap. intros (y & Hy & Heq). simpl in Heq. by subst.
Qed.

Lemma NoDup_all_None (xs : list (option Z)) :
  NoDup xs → (∀ x, x ∈ xs → x = None) → xs = [] ∨ xs = [None].
Proof.
  intros Hnodup Hnone. destruct xs as [|x [|y ys]]; [by left| |].
  - right. by rewrite (Hnone x) by left.
  - exfalso. apply NoDup_cons in Hnodup as [Hx _]. apply Hx.
    rewrite (Hnone x) by left.
    rewrite (Hnone y) by (right; left). left.
Qed.

Lemma StronglySorted_le_NoDup_lt (zs : list Z) :
  StronglySorted Z.le zs → NoDup zs → StronglySorted Z.lt zs.
Proof.
  induction 1 as [|z zs _ IH Hall]; intros Hnodup; [constructor|].
  apply NoDup_cons in Hnodup as [Hz Hnodup].
  constructor; [by apply IH|].
  apply Forall_forall. intros y Hy.
  rewrite Forall_forall in Hall. specialize (Hall y Hy).
  assert (z ≠ y) by (intros ->; done). lia.
Qed.

(** [sourcePages] as [chatWithPdf] computes it: the page numbers of the
    retrieved documents in strictly ascending order, followed by one
    [undefined] when some retrieved document has no [pageNumber]. *)
Lemma buildResult_sourcePages (retrievedDocs : list Chunk) (response : string) :
  ∃ (numbers : list Z) (rest : list (option Z)),
    sourcePages (buildResult retrievedDocs response) = (Some <$> numbers) ++ rest
    ∧ StronglySorted Z.lt numbers
    ∧ (∀ z, z ∈ numbers ↔
            ∃ doc, doc ∈ retrievedDocs ∧ pageNumber (metadata doc) = Some z)
    ∧ (rest = [] ∨ rest = [None])
    ∧ (rest = [None] ↔
         ∃ doc, doc ∈ retrievedDocs ∧ pageNumber (metadata doc) = None).
Proof.
  set (raw := (λ doc, pageNumber (metadata doc)) <$> retrievedDocs).
  exists (merge_sort Z.le (omap id (setOf raw))),
         (filter (λ x, x = None) (setOf raw)).
  assert (∀ x, x ∈ raw ↔ ∃ doc, doc ∈ retrievedDocs ∧ pageNumber (metadata doc) = x)
    as Hraw.
  { intros x. unfold raw. rewrite list_elem_of_fmap. split.
    - intros (doc & -> & Hdoc). by exists doc.
    - intros (doc & Hdoc & <-). by exists doc. }
  assert (filter (λ x, x = None) (setOf raw) = []
          ∨ filter (λ x, x = None) (setOf raw) = [None]) as Hrest.
  { apply NoDup_all_None.
    - apply NoDup_filter, setOf_NoDup.
    - intros x Hx. by apply list_elem_of_filter in Hx as [-> _]. }
  split; [done|]. split; [|split; [|split; [done|]]].
  - apply StronglySorted_le_NoDup_lt.
    + apply StronglySorted_merge_sort; apply _.
    + rewrite merge_sort_Permutation. apply NoDup_omap_id, setOf_NoDup.
  - intros z. rewrite merge_sort_Permutation, list_elem_of_omap, <- Hraw.
    split.
    + intros (x & Hx & Heq). simpl in Heq. subst.
      by apply (proj1 (setOf_elem_of raw (Some z))).
    + intros Hz. exists (Some z). split; [|done].
      by apply (proj2 (setOf_elem_of raw (Some z))).
  - rewrite <- Hraw, <- (setOf_elem_of raw). split.
    + intros Heq.
      assert (None ∈ filter (λ x : option Z, x = None) (setOf raw)) as Hin
        by (rewrite Heq; left).
      by apply list_elem_of_filter in Hin as [_ Hin].
    + intros Hin. destruct Hrest as [Hnil|Hone]; [|done].
      assert (None ∈ filter (λ x : option Z, x = None) (setOf raw)) as Hin'
        by (by apply list_elem_of_filter).
      rewrite Hnil in Hin'. by apply elem_of_nil in Hin'.
Qed.

Section Retrieval.

Context {Vec : Type}.
Implicit Types (env : Env Vec) (st : State Vec).

(** Every retrieved document is a stored one. *)
Lemma insertRanked_Permutation env (qv : Vec) mv ranked :
  insertRanked env qv mv ranked ≡ₚ mv :: ranked.
Proof.
  induction ranked as [|x rest IH]; simpl; [done|].
  destruct (decide _); [done|]. rewrite IH. apply Permutation_swap.
Qed.

Lemma rankBySimilarity_Permutation env (qv : Vec) mvs :
  rankBySimilarity env qv mvs ≡ₚ mvs.
Proof.
  unfold rankBySimilarity.
  assert (∀ acc, foldl (λ ranked mv, insertRanked env qv mv ranked) acc mvs
                 ≡ₚ acc ++ mvs) as H; [|apply (H [])].
  induction mvs as [|mv mvs IH]; intros acc; simpl.
  - by rewrite app_nil_r.
  - rewrite IH, insertRanked_Permutation. simpl. apply Permutation_middle.
Qed.

Lemma similaritySearch_stored env vs question k st docs st' doc :
  similaritySearch env vs question k st = (Ok docs, st') →
  doc ∈ docs →
  ∃ mv, mv ∈ memoryVectors vs
        ∧ doc = {| pageContent := mv_content mv; metadata := mv_metadata mv |}.
Proof.
  unfold similaritySearch. unfold_monad.
  destruct (embedQuery env question) as [qv|]; [|done].
  intros H Hdoc. simplify_eq.
  apply list_elem_of_fmap in Hdoc as (mv & -> & Hmv).
  exists mv. split; [|done].
  apply subseteq_take in Hmv. by rewrite rankBySimilarity_Permutation in Hmv.
Qed.

(** The answer of a call that misses the cache is built from documents of
    the resolved index: with a registered index whose entries all carry a
    [pageNumber] (as those built by [processPdf] do), [sourcePages] is a
    strictly ascending list of page numbers of that index. *)
Lemma chatWithPdf_sourcePages_registered env name question history st vs
    result st' :
  vectorStores st !! name = Some vs →
  (∀ mv, mv ∈ memoryVectors vs → is_Some (pageNumber (mv_metadata mv))) →
  fst (cacheGet env (cacheKey name question (length history)) st) = Ok None →
  chatWithPdf env name question history st = (Ok result, st') →
  ∃ numbers,
    sourcePages result = Some <$> numbers
    ∧ StronglySorted Z.lt numbers
    ∧ ∀ z, z ∈ numbers →
        ∃ mv, mv ∈ memoryVectors vs ∧ pageNumber (mv_metadata mv) = Some z.
Proof.
  intros Hreg Hpages Hmiss Hchat.
  rewrite chatWithPdf_run in Hchat. cbv zeta in Hchat.
  rewrite (getVectorStore_registered env name st vs Hreg) in Hchat.
  destruct (cacheGet env _ st) as [[[cached|]|e] st2] eqn:Hget; [done| |done].
  destruct (similaritySearch _ _ _ _ _) as [[docs|e] st3] eqn:Hsearch; [|done].
  destruct (invokeChain _ _ _ _) as [[response|e] st4]; [|done].
  simplify_eq.
  destruct (buildResult_sourcePages docs response)
    as (numbers & rest & Heq & Hsorted & Hnumbers & Hrest & Hnone).
  exists numbers.
  assert (rest = []) as ->.
  { destruct Hrest as [->|Hone]; [done|]. exfalso.
    apply Hnone in Hone as (doc & Hdoc & Hno).
    destruct (similaritySearch_stored _ _ _ _ _ _ _ _ Hsearch Hdoc) as (mv & Hmv & ->).
    destruct (Hpages mv Hmv) as [z Hz]. simpl in Hno. congruence. }
  rewrite app_nil_r in Heq. split; [done|]. split; [done|].
  intros z Hz. apply Hnumbers in Hz as (doc & Hdoc & Hpage).
  destruct (similaritySearch_stored _ _ _ _ _ _ _ _ Hsearch Hdoc) as (mv & Hmv & ->).
  by exists mv.
Qed.

(** With an index built from chunks read back from the database, none of
    which has a [pageNumber], [sourcePages] holds no number at all. *)
Lemma chatWithPdf_sourcePages_rebuilt env name question history st vs
    result st' :
  vectorStores st !! name = Some vs →
  (∀ mv, mv ∈ memoryVectors vs → pageNumber (mv_metadata mv) = None) →
  fst (cacheGet env (cacheKey name question (length history)) st) = Ok None →
  chatWithPdf env name question history st = (Ok result, st') →
  sourcePages result = [] ∨ sourcePages result = [None].
Proof.
  intros Hreg Hpages Hmiss Hchat.
  rewrite chatWithPdf_run in Hchat. cbv zeta in Hchat.
  rewrite (getVectorStore_registered env name st vs Hreg) in Hchat.
  destruct (cacheGet env _ st) as [[[cached|]|e] st2] eqn:Hget; [done| |done].
  destruct (similaritySearch _ _ _ _ _) as [[docs|e] st3] eqn:Hsearch; [|done].
  destruct (invokeChain _ _ _ _) as [[response|e] st4]; [|done].
  simplify_eq.
  destruct (buildResult_sourcePages docs response)
    as (numbers & rest & Heq & _ & Hnumbers & Hrest & _).
  assert (numbers = []) as ->.
  { destruct numbers as [|z numbers]; [done|]. exfalso.
    destruct (proj1 (Hnumbers z)) as (doc & Hdoc & Hpage); [left|].
    destruct (similaritySearch_stored _ _ _ _ _ _ _ _ Hsearch Hdoc) as (mv & Hmv & ->).
    simpl in Hpage. rewrite (Hpages mv Hmv) in Hpage. done. }
  rewrite Heq. simpl. done.
Qed.

End Retrieval.

(** The entries of an index built from the chunks [processPdf] produces all
    carry a [pageNumber], equal to their [page]. *)
Lemma builtStore_assigned_pages {Vec} (vectors : list Vec) (name : string)
    (docs : list string) (n : nat) (mv : MemoryVector Vec) :
  mv ∈ memoryVectors (builtStore vectors (assignedChunks name docs) n) →
  is_Some (pageNumber (mv_metadata mv))
  ∧ pageNumber (mv_metadata mv) = page (mv_metadata mv).
Proof.
  simpl. intros Hmv.
  apply elem_of_zip_with in Hmv as (v & chunk & -> & _ & Hchunk). simpl.
  unfold assignedChunks in Hchunk.
  apply elem_of_lookup_imap in Hchunk as (i & doc & -> & _). simpl. eauto.
Qed.

(** The entries of an index built from chunks that went through
    [documentChunkSchema] carry none. *)
Lemma builtStore_cast_pages {Vec} (vectors : list Vec) (chunks : list Chunk)
    (n : nat) (mv : MemoryVector Vec) :
  mv ∈ memoryVectors (builtStore vectors (castChunk <$> chunks) n) →
  pageNumber (mv_metadata mv) = None.
Proof.
  simpl. intros Hmv.
  apply elem_of_zip_with in Hmv as (v & chunk & -> & _ & Hchunk). simpl.
  by apply list_elem_of_fmap in Hchunk as (c & -> & _).
Qed.

(** * More of the code, verified *)

(** ** Strings *)

Lemma append_cons (a : ascii) (s t : string) :
  String a s +:+ t = String a (s +:+ t).
Proof. reflexivity. Qed.

Lemma append_nil_l (s : string) : "" +:+ s = s.
Proof. reflexivity. Qed.

Lemma append_nil_r (s : string) : s +:+ "" = s.
Proof. induction s as [|a s IH]; [done|]. by rewrite append_cons, IH. Qed.

Lemma append_assoc (s t u : string) : (s +:+ t) +:+ u = s +:+ (t +:+ u).
Proof. induction s as [|a s IH]; [done|]. by rewrite !append_cons, IH. Qed.

Lemma length_append (s t : string) :
  String.length (s +:+ t) = (String.length s + String.length t)%nat.
Proof. induction s as [|a s IH]; [done|]. rewrite append_cons. simpl. by rewrite IH. Qed.

Lemma length_substring_le (n m : nat) (s : string) :
  (String.length (String.substring n m s) ≤ m)%nat.
Proof.
  revert n m. induction s as [|a s IH]; intros n m; simpl.
  - destruct n, m; simpl; lia.
  - destruct n as [|n]; [|apply IH].
    destruct m as [|m]; simpl; [lia|]. specialize (IH 0%nat m). lia.
Qed.

Lemma joinWith_nil_snoc (strs : list string) (s : string) :
  joinWith "" (strs ++ [s]) = joinWith "" strs +:+ s.
Proof.
  induction strs as [|t strs IH]; [done|].
  destruct strs as [|u strs].
  - simpl. by rewrite append_nil_l.
  - change (joinWith "" ((t :: u :: strs) ++ [s]))
      with (t +:+ "" +:+ joinWith "" ((u :: strs) ++ [s])).
    rewrite IH.
    change (joinWith "" (t :: u :: strs)) with (t +:+ "" +:+ joinWith "" (u :: strs)).
    by rewrite !append_nil_l, append_assoc.
Qed.

(** ** [processChunksInBatches] *)

(** For every positive batch size [processChunksInBatches] returns one
    chunk per input chunk, in order, each with its text, [source] and
    [pageNumber] as they were and [page] set to [floor(k / 2) + 1] for its
    position [k] in the whole list; the batch size does not show in the
    result. *)
Theorem processChunksInBatches_lookup (chunks : list Chunk) (batchSize k : nat) :
  (0 < batchSize)%nat →
  processChunksInBatches chunks batchSize !! k
    = withPage (Z.of_nat k / 2 + 1) <$> chunks !! k.
Proof.
  intros Hpos. rewrite processChunksInBatches_closed_form by done.
  by rewrite list_lookup_imap.
Qed.

Lemma processChunksInBatches_lookup_witness :
  processChunksInBatches (initialChunks "a.pdf" ["x"; "y"; "z"]) 2 !! 2%nat
    = withPage (Z.of_nat 2 / 2 + 1) <$> initialChunks "a.pdf" ["x"; "y"; "z"] !! 2%nat.
Proof. apply processChunksInBatches_lookup. lia. Defined.

(** ** [pagerender] *)

Lemma pagerender_fold_lastY (items : list TextItem) (acc : option Z * string) :
  fst (fold_left pagerenderStep items acc)
    = match last items with
      | Some item => Some (transform5 item)
      | None => fst acc
      end.
Proof.
  revert acc. induction items as [|item items IH] using rev_ind; intros acc; [done|].
  rewrite fold_left_app, last_snoc. simpl.
  by destruct (fold_left pagerenderStep items acc).
Qed.

(** Appending an item [b] after an item [a] appends [b.str] to the text,
    preceded by a line break unless the two sit on the same baseline or
    the baseline of [a] is 0. *)
Theorem pagerender_snoc (items : list TextItem) (a b : TextItem) :
  pagerender (items ++ [a; b])
    = pagerender (items ++ [a])
      +:+ (if bool_decide (transform5 a = transform5 b)
              || bool_decide (transform5 a = 0)
           then "" else newline)
      +:+ str b.
Proof.
  unfold pagerender.
  replace (items ++ [a; b]) with ((items ++ [a]) ++ [b]) by by rewrite <- app_assoc.
  rewrite (fold_left_app _ (items ++ [a])). simpl.
  pose proof (pagerender_fold_lastY (items ++ [a]) (None, "")) as HlastY.
  rewrite last_snoc in HlastY.
  destruct (fold_left pagerenderStep (items ++ [a]) (None, "")) as [lastY text].
  simpl in *. subst lastY. simpl.
  destruct (decide (transform5 a = transform5 b)) as [Heq|Hne].
  - rewrite (bool_decide_eq_true_2 (Some _ = Some _)) by congruence.
    by rewrite (bool_decide_eq_true_2 (transform5 a = transform5 b)) by done.
  - rewrite (bool_decide_eq_false_2 (Some _ = Some _)) by congruence.
    rewrite (bool_decide_eq_false_2 (transform5 a = transform5 b)) by done.
    simpl. by destruct (bool_decide (transform5 a = 0)).
Qed.

(** Items that all sit on one baseline are rendered as the plain
    concatenation of their texts. *)
Theorem pagerender_one_line (items : list TextItem) (y : Z) :
  (∀ item, item ∈ items → transform5 item = y) →
  pagerender items = joinWith "" (str <$> items).
Proof.
  induction items as [|b items IH] using rev_ind; intros Hline; [done|].
  rewrite fmap_app. change (str <$> [b]) with [str b]. rewrite joinWith_nil_snoc.
  destruct items as [|a items _] using rev_ind.
  - done.
  - rewrite <- app_assoc. simpl. rewrite pagerender_snoc.
    rewrite bool_decide_eq_true_2.
    2:{ rewrite (Hline a), (Hline b); [done|..];
          rewrite !elem_of_app, !list_elem_of_singleton; auto. }
    simpl. rewrite append_nil_l. f_equal. apply IH.
    intros item Hitem. apply Hline. rewrite elem_of_app. by left.
Qed.

Lemma pagerender_one_line_witness :
  pagerender (take 2 More.items) = joinWith "" (str <$> take 2 More.items).
Proof.
  apply (pagerender_one_line (take 2 More.items) 700).
  intros item Hitem. simpl in Hitem.
  apply elem_of_cons in Hitem as [->|Hitem]; [reflexivity|].
  apply elem_of_cons in Hitem as [->|Hitem]; [reflexivity|].
  by apply elem_of_nil in Hitem.
Defined.

(** ** [processPdf] *)

Section MoreProcessPdf.

Context {Vec : Type}.
Implicit Types (env : Env Vec) (st : State Vec).

(** A failed [processPdf] reports its error under the prefix "Failed to
    process PDF document: " and registers no index; cache, database and
    files are as before, and at most one embedding pass was started.  When
    the normalized path does not begin with the normalized uploads
    directory, nothing at all has happened.  That is the test the code
    makes, on the characters of the two paths: a path into a directory
    whose name merely begins like the uploads directory passes it. *)
Theorem processPdf_failure_registers_nothing env filePath st e st' :
  processPdf env filePath st = (Err e, st') →
  (∃ reason, e = "Failed to process PDF document: " +:+ reason)
  ∧ vectorStores st' = vectorStores st
  ∧ cache st' = cache st ∧ db st' = db st ∧ files st' = files st
  ∧ (embedPasses st' = embedPasses st ∨ embedPasses st' = S (embedPasses st))
  ∧ (Path.startsWith (Path.normalize filePath) (Path.normalize (uploadsDir env))
       = false → st' = st).
Proof.
  unfold processPdf, ensureUploadsDirectory, fromDocuments. intros H.
  unfold_monad. simpl in H.
  destruct (Path.startsWith _ _); simpl in H.
  2:{ simplify_eq. split; [by eexists|]. repeat split; auto. }
  destruct (files st !! _) as [buffer|];
    [|simplify_eq; split; [by eexists|]; repeat split; auto; done].
  destruct (pdfParse env buffer) as [[text numpages]|];
    [|simplify_eq; split; [by eexists|]; repeat split; auto; done].
  case_bool_decide;
    [simplify_eq; split; [by eexists|]; repeat split; auto; done|].
  destruct (embedDocuments env _ _) as [vectors|];
    [|simplify_eq; split; [by eexists|]; repeat split; auto; done].
  destruct (decide _); [|done].
  simplify_eq. split; [by eexists|]. repeat split; auto. done.
Qed.

(** What a successful [processPdf] leaves behind; the lemmas on index
    resolution and on the upload handler build on this form. *)
Lemma processPdf_Ok_effects env filePath st chunks count st' :
  processPdf env filePath st = (Ok (chunks, count), st') →
  ∃ vectors,
    embedDocuments env (embedPasses st) (pageContent <$> chunks) = Some vectors
    ∧ (length vectors ≤ length chunks)%nat
    ∧ vectorStores st'
      = <[Path.basename (Path.normalize filePath)
            := builtStore vectors chunks (embedPasses st)]> (vectorStores st)
    ∧ embedPasses st' = S (embedPasses st)
    ∧ cache st' = cache st ∧ db st' = db st ∧ files st' = files st
    ∧ modelCalls st' = modelCalls st.
Proof.
  intros H. apply processPdf_Ok in H as (buffer & text & numpages & vs & H).
  destruct H as (_ & _ & _ & _ & -> & _ & Hembed & ->).
  apply fromDocuments_Ok in Hembed as (vectors & Hvectors & Hlen & -> & _).
  exists vectors. by repeat split.
Qed.

(** A successful [processPdf] has run exactly one embedding pass and has
    registered its result under the base name of the path, replacing what
    was registered there and leaving every other entry of [vectorStores],
    the cache, the database and the files as they were. *)
Theorem processPdf_success_effects env filePath st chunks count st' :
  processPdf env filePath st = (Ok (chunks, count), st') →
  ∃ vectors,
    embedDocuments env (embedPasses st) (pageContent <$> chunks) = Some vectors
    ∧ (length vectors ≤ length chunks)%nat
    ∧ vectorStores st'
      = <[Path.basename (Path.normalize filePath)
            := builtStore vectors chunks (embedPasses st)]> (vectorStores st)
    ∧ embedPasses st' = S (embedPasses st)
    ∧ cache st' = cache st ∧ db st' = db st ∧ files st' = files st
    ∧ modelCalls st' = modelCalls st.
Proof. eapply processPdf_Ok_effects; eassumption. Qed.

End MoreProcessPdf.

Lemma processPdf_failure_registers_nothing_witness :
  (∃ reason,
     "Failed to process PDF document: Embedding request failed"
     = "Failed to process PDF document: " +:+ reason)
  ∧ vectorStores (tickEmbedPasses Scenario.fresh) = vectorStores Scenario.fresh
  ∧ cache (tickEmbedPasses Scenario.fresh) = cache Scenario.fresh
  ∧ db (tickEmbedPasses Scenario.fresh) = db Scenario.fresh
  ∧ files (tickEmbedPasses Scenario.fresh) = files Scenario.fresh
  ∧ (embedPasses (tickEmbedPasses Scenario.fresh) = embedPasses Scenario.fresh
     ∨ embedPasses (tickEmbedPasses Scenario.fresh) = S (embedPasses Scenario.fresh))
  ∧ (Path.startsWith (Path.normalize Scenario.path)
       (Path.normalize (uploadsDir Scenario.offline)) = false
     → tickEmbedPasses Scenario.fresh = Scenario.fresh).
Proof.
  apply (processPdf_failure_registers_nothing Scenario.offline Scenario.path
           Scenario.fresh).
  vm_compute. reflexivity.
Defined.

Lemma processPdf_success_effects_witness :
  ∃ vectors,
    embedDocuments Scenario.env (embedPasses Scenario.fresh)
      (pageContent <$> Scenario.chunks) = Some vectors
    ∧ (length vectors ≤ length Scenario.chunks)%nat
    ∧ vectorStores (snd (processPdf Scenario.env Scenario.path Scenario.fresh))
      = <[Path.basename (Path.normalize Scenario.path)
            := builtStore vectors Scenario.chunks (embedPasses Scenario.fresh)]>
          (vectorStores Scenario.fresh)
    ∧ embedPasses (snd (processPdf Scenario.env Scenario.path Scenario.fresh))
      = S (embedPasses Scenario.fresh)
    ∧ cache (snd (processPdf Scenario.env Scenario.path Scenario.fresh))
      = cache Scenario.fresh
    ∧ db (snd (processPdf Scenario.env Scenario.path Scenario.fresh))
      = db Scenario.fresh
    ∧ files (snd (processPdf Scenario.env Scenario.path Scenario.fresh))
      = files Scenario.fresh
    ∧ modelCalls (snd (processPdf Scenario.env Scenario.path Scenario.fresh))
      = modelCalls Scenario.fresh.
Proof.
  apply (processPdf_success_effects Scenario.env Scenario.path Scenario.fresh
           Scenario.chunks 1).
  vm_compute. reflexivity.
Defined.

(** ** Index resolution *)

Section MoreIndex.

Context {Vec : Type}.
Implicit Types (env : Env Vec) (st : State Vec).

(** For a file name that has neither a registered index nor a record in
    the database, [chatWithPdf] throws "PDF document not found in
    database" and changes nothing, whatever the cache holds. *)
Theorem chatWithPdf_unknown_document env name question
    (history : list ChatTurn) st :
  vectorStores st !! name = None →
  head (filter (λ d, filename d = name) (db st)) = None →
  chatWithPdf env name question history st
    = (Err "PDF document not found in database", st).
Proof.
  intros Hreg Hdoc. rewrite chatWithPdf_run. cbv zeta.
  unfold getVectorStore, findByFilename. unfold_monad. by rewrite Hreg, Hdoc.
Qed.

(** When the index of a file is not registered and its record has stored
    chunks, index resolution embeds those chunks in one pass and never
    reads the file: on success the index registered for the name is the one
    built from the stored chunks, on failure nothing is registered. *)
Theorem getVectorStore_rebuilds_from_stored_chunks env name st pdfDoc r st' :
  vectorStores st !! name = None →
  head (filter (λ d, filename d = name) (db st)) = Some pdfDoc →
  (0 < length (documentChunks pdfDoc))%nat →
  getVectorStore env name st = (r, st') →
  embedPasses st' = S (embedPasses st)
  ∧ files st' = files st ∧ db st' = db st ∧ cache st' = cache st
  ∧ match r with
    | Ok vs =>
        ∃ vectors,
          embedDocuments env (embedPasses st)
            (pageContent <$> documentChunks pdfDoc) = Some vectors
          ∧ vs = builtStore vectors (documentChunks pdfDoc) (embedPasses st)
          ∧ vectorStores st' = <[name := vs]> (vectorStores st)
    | Err _ => vectorStores st' = vectorStores st
    end.
Proof.
  intros Hreg Hdoc Hchunks H.
  unfold getVectorStore, findByFilename in H. unfold_monad.
  rewrite Hreg, Hdoc in H. destruct (decide _); [|lia].
  destruct (fromDocuments _ _ _) as [[vs|e] st1] eqn:Hembed.
  - apply fromDocuments_Ok in Hembed as (vectors & Hvectors & _ & -> & ->).
    simplify_eq. repeat split. by exists vectors.
  - apply fromDocuments_state in Hembed as ->. by simplify_eq.
Qed.

(** When the record has no stored chunks, index resolution falls back to
    [processPdf] on the stored file and then embeds the chunks a second
    time: a successful fallback costs two embedding passes, and the index
    of the second pass is the one that stays registered. *)
Theorem getVectorStore_fallback_embeds_twice env name st pdfDoc vs st' :
  vectorStores st !! name = None →
  head (filter (λ d, filename d = name) (db st)) = Some pdfDoc →
  documentChunks pdfDoc = [] →
  getVectorStore env name st = (Ok vs, st') →
  embedPasses st' = (embedPasses st + 2)%nat
  ∧ storeId vs = S (embedPasses st)
  ∧ vectorStores st' !! name = Some vs.
Proof.
  intros Hreg Hdoc Hchunks H.
  pose proof (getVectorStore_Ok _ _ _ _ _ H) as Hnow.
  unfold getVectorStore, findByFilename in H. unfold_monad.
  rewrite Hreg, Hdoc, Hchunks in H. simpl in H.
  destruct (processPdf _ _ _) as [[[chunks count]|e] st1] eqn:Hprocess; [|done].
  apply processPdf_Ok_effects in Hprocess as (vectors & _ & _ & _ & Hpasses & _).
  destruct (fromDocuments _ _ _) as [[vs2|e] st2] eqn:Hembed; [|done].
  apply fromDocuments_Ok in Hembed as (vectors2 & _ & _ & -> & ->).
  simplify_eq. split; [simpl; lia|]. split; [simpl; congruence|done].
Qed.

End MoreIndex.

Lemma chatWithPdf_unknown_document_witness :
  chatWithPdf Scenario.env "missing.pdf" "c" [] Scenario.uploaded
    = (Err "PDF document not found in database", Scenario.uploaded).
Proof.
  apply chatWithPdf_unknown_document; vm_compute; reflexivity.
Defined.

Lemma getVectorStore_rebuilds_from_stored_chunks_witness :
  embedPasses (snd (getVectorStore Scenario.env "17-1.pdf"
                      (Scenario.restart Scenario.uploaded)))
    = S (embedPasses (Scenario.restart Scenario.uploaded))
  ∧ files (snd (getVectorStore Scenario.env "17-1.pdf"
                  (Scenario.restart Scenario.uploaded)))
    = files (Scenario.restart Scenario.uploaded)
  ∧ db (snd (getVectorStore Scenario.env "17-1.pdf"
               (Scenario.restart Scenario.uploaded)))
    = db (Scenario.restart Scenario.uploaded)
  ∧ cache (snd (getVectorStore Scenario.env "17-1.pdf"
                  (Scenario.restart Scenario.uploaded)))
    = cache (Scenario.restart Scenario.uploaded)
  ∧ ∃ vectors,
      embedDocuments Scenario.env (embedPasses (Scenario.restart Scenario.uploaded))
        (pageContent <$> documentChunks Scenario.storedDoc) = Some vectors
      ∧ builtStore [97; 98; 99; 100; 101] (documentChunks Scenario.storedDoc) 1
        = builtStore vectors (documentChunks Scenario.storedDoc)
            (embedPasses (Scenario.restart Scenario.uploaded))
      ∧ vectorStores (snd (getVectorStore Scenario.env "17-1.pdf"
                             (Scenario.restart Scenario.uploaded)))
        = <[ "17-1.pdf" := builtStore [97; 98; 99; 100; 101]
                             (documentChunks Scenario.storedDoc) 1 ]>
            (vectorStores (Scenario.restart Scenario.uploaded)).
Proof.
  apply (getVectorStore_rebuilds_from_stored_chunks Scenario.env "17-1.pdf"
           (Scenario.restart Scenario.uploaded) Scenario.storedDoc
           (Ok (builtStore [97; 98; 99; 100; 101]
                  (documentChunks Scenario.storedDoc) 1))).
  - vm_compute. reflexivity.
  - vm_compute. reflexivity.
  - vm_compute. lia.
  - vm_compute. reflexivity.
Defined.

Lemma getVectorStore_fallback_embeds_twice_witness :
  ∃ vs,
    fst (getVectorStore Scenario.env "old.pdf" More.legacy) = Ok vs
    ∧ embedPasses (snd (getVectorStore Scenario.env "old.pdf" More.legacy))
      = (embedPasses More.legacy + 2)%nat
    ∧ storeId vs = S (embedPasses More.legacy)
    ∧ vectorStores (snd (getVectorStore Scenario.env "old.pdf" More.legacy))
        !! "old.pdf" = Some vs.
Proof.
  destruct (getVectorStore Scenario.env "old.pdf" More.legacy) as [[vs|e] st']
    eqn:Hrun; [|by vm_compute in Hrun].
  exists vs. split; [reflexivity|].
  apply (getVectorStore_fallback_embeds_twice Scenario.env "old.pdf" More.legacy
           More.legacyDoc vs st').
  - vm_compute. reflexivity.
  - vm_compute. reflexivity.
  - reflexivity.
  - exact Hrun.
Defined.

(** ** [chatWithPdf] *)

Lemma NoDup_subseteq_length {A} (l k : list A) :
  NoDup l → (∀ x, x ∈ l → x ∈ k) → (length l ≤ length k)%nat.
Proof. intros Hnodup Hsub. by apply submseteq_length, NoDup_submseteq. Qed.

Lemma length_omap_id_filter_None (xs : list (option Z)) :
  (length (omap id xs) + length (filter (λ x, x = None) xs))%nat = length xs.
Proof.
  induction xs as [|[z|] xs IH]; [done|..].
  - rewrite filter_cons_False by done. simpl. f_equal. apply IH.
  - rewrite filter_cons_True by done. simpl. rewrite Nat.add_succ_r. f_equal. apply IH.
Qed.

Lemma sortNumbers_length (xs : list (option Z)) :
  length (sortNumbers xs) = length xs.
Proof.
  unfold sortNumbers.
  rewrite length_app, length_fmap, merge_sort_Permutation.
  apply length_omap_id_filter_None.
Qed.

Lemma sortNumbers_elem_of (xs : list (option Z)) (x : option Z) :
  x ∈ sortNumbers xs ↔ x ∈ xs.
Proof.
  unfold sortNumbers. rewrite elem_of_app, list_elem_of_fmap, list_elem_of_filter.
  split.
  - intros [(z & -> & Hz)|[-> Hx]]; [|done].
    rewrite merge_sort_Permutation in Hz.
    apply list_elem_of_omap in Hz as (y & Hy & Heq). simpl in Heq. by subst.
  - intros Hx. destruct x as [z|]; [left|by right].
    exists z. split; [done|]. rewrite merge_sort_Permutation.
    apply list_elem_of_omap. by exists (Some z).
Qed.

Lemma cacheKey_append (name question : string) (n : nat) :
  cacheKey name question n
    = "pdf_query_" +:+ (name +:+ "_" +:+ question) +:+ "_" +:+ pretty n.
Proof. unfold cacheKey. by rewrite !append_assoc. Qed.

(** Requests that differ in the length of the history never share a cache
    key. *)
Theorem cacheKey_history_length_inj (name question : string) (n m : nat) :
  cacheKey name question n = cacheKey name question m → n = m.
Proof.
  unfold cacheKey. intros H.
  repeat apply (inj (String.app _)) in H.
  by apply (inj pretty) in H.
Qed.

Lemma cacheKey_history_length_inj_witness :
  0%nat = 0%nat.
Proof. apply (cacheKey_history_length_inj "17-1.pdf" "c" 0 0). reflexivity. Defined.

(** The key does not tell where the file name ends and the question
    starts: moving a piece between the two across an underscore gives the
    same key. *)
Theorem cacheKey_name_question_overlap (name piece question : string) (n : nat) :
  cacheKey (name +:+ "_" +:+ piece) question n
    = cacheKey name (piece +:+ "_" +:+ question) n.
Proof. rewrite !cacheKey_append. by rewrite !append_assoc. Qed.

Section MoreChat.

Context {Vec : Type}.
Implicit Types (env : Env Vec) (st : State Vec).

(** What a successful call that missed the cache has done. *)
Lemma chatWithPdf_miss_Ok env name question (history : list ChatTurn) st result st' :
  fst (cacheGet env (cacheKey name question (length history)) st) = Ok None →
  chatWithPdf env name question history st = (Ok result, st') →
  ∃ vs st1 st2 retrievedDocs response,
    getVectorStore env name st = (Ok vs, st1)
    ∧ cacheGet env (cacheKey name question (length history)) st1 = (Ok None, st2)
    ∧ similaritySearch env vs question 3 st2 = (Ok retrievedDocs, st2)
    ∧ result = buildResult retrievedDocs response
    ∧ st' = setCache <[cacheKey name question (length history)
                        := (result, nowAtSet env + stdTTL * 1000)]>
              (tickModelCalls st2).
Proof.
  intros Hmiss Hchat. rewrite chatWithPdf_run in Hchat. cbv zeta in Hchat.
  destruct (getVectorStore env name st) as [[vs|e] st1] eqn:Hindex; [|done].
  pose proof (getVectorStore_frame _ _ _ _ _ Hindex) as (Hcache & _).
  rewrite <- (cacheGet_same_cache env _ st st1 Hcache) in Hmiss.
  destruct (cacheGet env _ st1) as [[[cached|]|e] st2] eqn:Hget; [done| |done].
  destruct (similaritySearch _ _ _ _ _) as [[docs|e] st3] eqn:Hsearch; [|done].
  pose proof (similaritySearch_state _ _ _ _ _ _ _ Hsearch) as ->.
  destruct (invokeChain _ _ _ _) as [[response|e] st4] eqn:Hgen; [|done].
  apply invokeChain_state in Hgen as ->. simplify_eq.
  by exists vs, st1, st2, docs, response.
Qed.

(** An answer computed on a cache miss has at most three sources, one per
    retrieved chunk, each an excerpt of at most 150 characters followed by
    three dots; [sourcePages] has no more entries than [sources], and each
    of its entries is the page of one of the sources. *)
Theorem chatWithPdf_answer_shape env name question (history : list ChatTurn)
    st result st' :
  fst (cacheGet env (cacheKey name question (length history)) st) = Ok None →
  chatWithPdf env name question history st = (Ok result, st') →
  (length (sources result) ≤ 3)%nat
  ∧ (length (sourcePages result) ≤ length (sources result))%nat
  ∧ (∀ s, s ∈ sources result →
       (String.length (src_content s) ≤ 153)%nat
       ∧ ∃ excerpt, src_content s = excerpt +:+ "...")
  ∧ (∀ p, p ∈ sourcePages result → ∃ s, s ∈ sources result ∧ src_page s = p).
Proof.
  intros Hmiss Hchat.
  destruct (chatWithPdf_miss_Ok _ _ _ _ _ _ _ Hmiss Hchat)
    as (vs & st1 & st2 & docs & response & _ & _ & Hsearch & -> & _).
  assert (length docs ≤ 3)%nat as Hdocs.
  { unfold similaritySearch in Hsearch. unfold_monad.
    destruct (embedQuery env question); [|done]. simplify_eq.
    rewrite length_fmap, length_take. lia. }
  simpl. rewrite length_fmap. split; [done|]. split; [|split].
  - rewrite sortNumbers_length.
    rewrite <- (length_fmap (λ doc, pageNumber (metadata doc)) docs).
    apply NoDup_subseteq_length; [apply setOf_NoDup|].
    intros x. by rewrite setOf_elem_of.
  - intros s Hs. apply list_elem_of_fmap in Hs as (doc & -> & _). simpl.
    unfold preview. split; [|by eexists].
    rewrite length_append.
    pose proof (length_substring_le 0 150 (pageContent doc)). simpl. lia.
  - intros p Hp. apply (proj1 (sortNumbers_elem_of _ _)) in Hp.
    apply (proj1 (setOf_elem_of _ _)) in Hp.
    apply list_elem_of_fmap in Hp as (doc & -> & Hdoc).
    eexists. split; [by apply list_elem_of_fmap_2|done].
Qed.

(** After a successful call the cache holds the returned result under the
    key of the call. *)
Theorem chatWithPdf_result_is_cached env name question (history : list ChatTurn)
    st result st' :
  chatWithPdf env name question history st = (Ok result, st') →
  ∃ expiry,
    cache st' !! cacheKey name question (length history) = Some (result, expiry).
Proof.
  intros Hchat. rewrite chatWithPdf_run in Hchat. cbv zeta in Hchat.
  destruct (getVectorStore env name st) as [[vs|e] st1]; [|done].
  destruct (cacheGet env _ st1) as [[[cached|]|e] st2] eqn:Hget; [| |done].
  - pose proof (cacheGet_hit_state _ _ _ _ _ Hget) as ->.
    rewrite cacheGet_run in Hget. simplify_eq.
    destruct (cache st' !! _) as [[v t]|]; [|done].
    destruct (_ && _); simplify_eq. by exists t.
  - destruct (similaritySearch _ _ _ _ _) as [[docs|e] st3]; [|done].
    destruct (invokeChain _ _ _ _) as [[response|e] st4]; [|done].
    simplify_eq. eexists. simpl. apply lookup_insert_eq.
Qed.

(** An entry older than one hour is not used: when the lookup of a second
    call with the same file name, question and history length happens more
    than 3600000 ms after the first call stored its result, a successful
    second call has invoked the generation model again and has stored its
    own result with a new expiry. *)
Theorem chatWithPdf_recomputes_after_ttl (env1 env2 : Env Vec) name question
    (history1 history2 : list ChatTurn) st result1 st1 result2 st2 :
  length history2 = length history1 →
  fst (cacheGet env1 (cacheKey name question (length history1)) st) = Ok None →
  chatWithPdf env1 name question history1 st = (Ok result1, st1) →
  0 ≤ nowAtSet env1 →
  nowAtSet env1 + 3600 * 1000 < nowAtGet env2 →
  chatWithPdf env2 name question history2 st1 = (Ok result2, st2) →
  modelCalls st2 = S (modelCalls st1)
  ∧ cache st2 !! cacheKey name question (length history1)
    = Some (result2, nowAtSet env2 + 3600 * 1000).
Proof.
  intros Hlen Hmiss Hfirst Hpos Hlate Hsecond.
  destruct (chatWithPdf_miss_Ok _ _ _ _ _ _ _ Hmiss Hfirst)
    as (vs & sa & sb & docs & response & _ & _ & _ & _ & ->).
  assert (fst (cacheGet env2 (cacheKey name question (length history2))
                 (setCache <[cacheKey name question (length history1)
                               := (result1, nowAtSet env1 + stdTTL * 1000)]>
                    (tickModelCalls sb))) = Ok None) as Hmiss2.
  { rewrite cacheGet_run, Hlen. simpl. rewrite lookup_insert_eq.
    rewrite bool_decide_eq_true_2 by (unfold stdTTL; lia).
    by rewrite bool_decide_eq_true_2 by (unfold stdTTL; lia). }
  destruct (chatWithPdf_miss_Ok _ _ _ _ _ _ _ Hmiss2 Hsecond)
    as (vs2 & sc & sd & docs2 & response2 & Hindex & Hget & _ & _ & ->).
  apply getVectorStore_frame in Hindex as (_ & _ & _ & Hcalls).
  apply cacheGet_miss_state in Hget as (_ & _ & Hcalls2 & _).
  simpl in *. split; [congruence|].
  rewrite Hlen. by rewrite lookup_insert_eq.
Qed.

End MoreChat.

Lemma chatWithPdf_answer_shape_witness :
  (length (sources Scenario.reply) ≤ 3)%nat
  ∧ (length (sourcePages Scenario.reply) ≤ length (sources Scenario.reply))%nat
  ∧ (∀ s, s ∈ sources Scenario.reply →
       (String.length (src_content s) ≤ 153)%nat
       ∧ ∃ excerpt, src_content s = excerpt +:+ "...")
  ∧ (∀ p, p ∈ sourcePages Scenario.reply →
       ∃ s, s ∈ sources Scenario.reply ∧ src_page s = p).
Proof.
  apply (chatWithPdf_answer_shape Scenario.env "17-1.pdf" "c" [] Scenario.uploaded
           Scenario.reply
           (snd (chatWithPdf Scenario.env "17-1.pdf" "c" [] Scenario.uploaded))).
  - vm_compute. reflexivity.
  - vm_compute. reflexivity.
Defined.

Lemma chatWithPdf_result_is_cached_witness :
  ∃ expiry,
    cache (snd (chatWithPdf Scenario.env "17-1.pdf" "c" [] Scenario.uploaded))
      !! cacheKey "17-1.pdf" "c" (length (@nil ChatTurn))
    = Some (Scenario.reply, expiry).
Proof.
  apply (chatWithPdf_result_is_cached Scenario.env "17-1.pdf" "c" []
           Scenario.uploaded).
  vm_compute. reflexivity.
Defined.

Lemma chatWithPdf_recomputes_after_ttl_witness :
  let first := chatWithPdf Scenario.env "17-1.pdf" "c" [] Scenario.uploaded in
  let second := chatWithPdf (Scenario.later 3700000) "17-1.pdf" "c" [] (snd first) in
  modelCalls (snd second) = S (modelCalls (snd first))
  ∧ cache (snd second) !! cacheKey "17-1.pdf" "c" 0
    = Some (Scenario.reply, nowAtSet (Scenario.later 3700000) + 3600 * 1000).
Proof.
  intros first second.
  apply (chatWithPdf_recomputes_after_ttl Scenario.env (Scenario.later 3700000)
           "17-1.pdf" "c" [] [] Scenario.uploaded Scenario.reply (snd first)
           Scenario.reply (snd second)).
  - reflexivity.
  - vm_compute. reflexivity.
  - vm_compute. reflexivity.
  - simpl. lia.
  - simpl. lia.
  - vm_compute. reflexivity.
Defined.

(** ** [cleanupFile] *)

Section MoreCleanup.

Context {Vec : Type}.
Implicit Types (env : Env Vec) (st : State Vec).

(** The outcome of [cleanupFile], as the handlers' lemmas use it. *)
Lemma cleanupFile_Ok_effects env filePath st :
  ∃ st',
    cleanupFile env filePath st = (Ok tt, st')
    ∧ files st' = delete (Path.normalize filePath) (files st)
    ∧ db st' = db st ∧ cache st' = cache st
    ∧ embedPasses st' = embedPasses st ∧ modelCalls st' = modelCalls st
    ∧ (files st !! Path.normalize filePath = None → st' = st).
Proof.
  rewrite cleanupFile_run. eexists. split; [done|].
  destruct (files st !! Path.normalize filePath) eqn:Hfile; simpl.
  - by repeat split.
  - repeat split. symmetry. by apply delete_id.
Qed.

(** [cleanupFile] never throws.  Afterwards no file is left at the
    normalized path and every other file is as before; the database, the
    cache and the counters are untouched; and when there was no file at the
    path, nothing at all has changed. *)
Theorem cleanupFile_effects env filePath st :
  ∃ st',
    cleanupFile env filePath st = (Ok tt, st')
    ∧ files st' = delete (Path.normalize filePath) (files st)
    ∧ db st' = db st ∧ cache st' = cache st
    ∧ embedPasses st' = embedPasses st ∧ modelCalls st' = modelCalls st
    ∧ (files st !! Path.normalize filePath = None → st' = st).
Proof. apply cleanupFile_Ok_effects. Qed.

(** Called with a path that normalizes to a bare file name (a relative
    path without directory), [cleanupFile] does remove the index
    registered for that file, provided the file exists. *)
Theorem cleanupFile_bare_name_drops_index env filePath st :
  Path.normalize filePath = Path.basename (Path.normalize filePath) →
  is_Some (files st !! Path.normalize filePath) →
  ∃ st',
    cleanupFile env filePath st = (Ok tt, st')
    ∧ vectorStores st' !! Path.basename (Path.normalize filePath) = None.
Proof.
  intros Hbare [buffer Hfile]. rewrite cleanupFile_run, Hfile.
  eexists. split; [done|]. simpl. rewrite <- Hbare. apply lookup_delete_eq.
Qed.

End MoreCleanup.

(** ** File names *)

Lemma includes_append (c : ascii) (s t : string) :
  includes c (s +:+ t) = includes c s || includes c t.
Proof.
  induction s as [|a s IH]; [done|].
  rewrite append_cons. simpl. by rewrite IH, orb_assoc.
Qed.

Lemma split_segments_no_sep (p seg : string) :
  seg ∈ Path.split p → includes Path.sep seg = false.
Proof.
  revert seg. induction p as [|c p IH]; intros seg Hseg; simpl in Hseg.
  - apply list_elem_of_singleton in Hseg as ->. done.
  - destruct (decide (c = Path.sep)) as [->|Hc].
    + apply elem_of_cons in Hseg as [->|Hseg]; [done | by apply IH].
    + destruct (Path.split p) as [|seg0 segs] eqn:Hsplit.
      * apply list_elem_of_singleton in Hseg as ->. simpl.
        by rewrite bool_decide_eq_false_2.
      * apply elem_of_cons in Hseg as [->|Hseg].
        -- simpl. rewrite bool_decide_eq_false_2 by done. apply IH. by left.
        -- apply IH. by right.
Qed.

Lemma basename_no_sep (p : string) : includes Path.sep (Path.basename p) = false.
Proof.
  unfold Path.basename.
  destruct (last _) as [seg|] eqn:Hlast; simpl; [|done].
  apply last_Some_elem_of in Hlast.
  apply list_elem_of_filter in Hlast as [_ Hseg].
  by eapply split_segments_no_sep.
Qed.

Lemma fromLastDot_includes (c : ascii) (s e : string) :
  includes c s = false → fromLastDot s = Some e → includes c e = false.
Proof.
  revert e. induction s as [|a s IH]; intros e Hs He; [done|].
  simpl in Hs, He. apply orb_false_iff in Hs as [Ha Hs].
  destruct (fromLastDot s) as [e'|]; [simplify_eq; by apply IH|].
  destruct (decide _); simplify_eq. simpl. by rewrite Ha.
Qed.

Lemma extname_no_sep (p : string) : includes Path.sep (extname p) = false.
Proof.
  unfold extname.
  destruct (fromLastDot _) as [e|] eqn:He; [|done].
  repeat destruct (decide _); try done.
  eapply fromLastDot_includes; [apply basename_no_sep | done].
Qed.

Lemma pretty_N_go_includes (c : ascii) (x : N) (s : string) :
  (∀ d, (d < 10)%N → pretty_N_char d ≠ c) →
  includes c s = false → includes c (pretty_N_go x s) = false.
Proof.
  intros Hc. revert s. induction (N.lt_wf_0 x) as [x _ IH]; intros s Hs.
  destruct (decide (x = 0)%N) as [->|Hx]; [by rewrite pretty_N_go_0|].
  rewrite pretty_N_go_step by lia. apply IH.
  - apply N.div_lt; lia.
  - simpl. rewrite Hs, orb_false_r. apply bool_decide_eq_false_2.
    apply Hc. apply N.mod_lt. lia.
Qed.

Lemma pretty_N_char_not (c : ascii) (d : N) :
  Ascii.is_nat c = None → pretty_N_char d ≠ c.
Proof.
  intros Hc Heq. subst c. unfold pretty_N_char in Hc.
  by repeat case_match.
Qed.

Lemma pretty_N_includes (c : ascii) (x : N) :
  Ascii.is_nat c = None → includes c (pretty x) = false.
Proof.
  intros Hc. unfold pretty, pretty_N.
  destruct (decide (x = 0)%N).
  - simpl. rewrite orb_false_r. apply bool_decide_eq_false_2.
    intros <-. done.
  - apply pretty_N_go_includes; [|done]. intros d _. by apply pretty_N_char_not.
Qed.

Lemma pretty_N_go_length (x : N) (s : string) :
  (String.length s ≤ String.length (pretty_N_go x s))%nat.
Proof.
  revert s. induction (N.lt_wf_0 x) as [x _ IH]; intros s.
  destruct (decide (x = 0)%N) as [->|Hx]; [by rewrite pretty_N_go_0|].
  rewrite pretty_N_go_step by lia.
  etrans; [|apply IH; apply N.div_lt; lia]. simpl. lia.
Qed.

Lemma pretty_N_nonempty (x : N) : ∃ a s, pretty x = String a s.
Proof.
  unfold pretty, pretty_N. destruct (decide (x = 0)%N); [by eexists _, _|].
  pose proof (pretty_N_go_length (x `div` 10)%N
                (String (pretty_N_char (x `mod` 10)) "")) as Hlen.
  rewrite <- pretty_N_go_step in Hlen by lia.
  destruct (pretty_N_go x "") as [|a s]; [simpl in Hlen; lia|]. by eexists _, _.
Qed.

(** The generated name is a bare file name; used for the base name of the
    stored path. *)
Lemma storageFilename_plainName (now random : N) (originalname : string) :
  plainName (storageFilename now random originalname).
Proof.
  unfold plainName, storageFilename.
  destruct (pretty_N_nonempty now) as (a & s & Hnow).
  assert (includes "."%char (pretty now) = false) as Hdot
    by by apply pretty_N_includes.
  split.
  - rewrite !includes_append, !pretty_N_includes by done. simpl.
    apply (extname_no_sep originalname).
  - rewrite Hnow in *. rewrite append_cons. simpl in Hdot.
    apply orb_false_iff in Hdot as [Ha _]. apply bool_decide_eq_false in Ha.
    repeat split; intros Heq; simplify_eq.
Qed.

(** Whatever the client sends as the original name, the name multer
    stores the upload under is a bare file name: it contains no path
    separator and is neither empty nor [.] nor [..]. *)
Theorem storageFilename_plain (now random : N) (originalname : string) :
  plainName (storageFilename now random originalname).
Proof. apply storageFilename_plainName. Qed.

Lemma split_nonempty (p : string) : Path.split p ≠ [].
Proof.
  destruct p as [|c p]; [done|]. simpl.
  destruct (decide _); [done|]. by destruct (Path.split p).
Qed.

Lemma split_append_sep (a b : string) :
  Path.split (a +:+ "/" +:+ b) = Path.split a ++ Path.split b.
Proof.
  induction a as [|c a IH]; [done|].
  rewrite append_cons. simpl. destruct (decide (c = Path.sep)).
  - by rewrite IH.
  - rewrite IH. pose proof (split_nonempty a).
    by destruct (Path.split a).
Qed.

Lemma split_no_sep (f : string) :
  includes Path.sep f = false → Path.split f = [f].
Proof.
  induction f as [|c f IH]; intros Hf; [done|]. simpl in *.
  apply orb_false_iff in Hf as [Hc Hf]. apply bool_decide_eq_false in Hc.
  destruct (decide _); [done|]. by rewrite IH.
Qed.

Lemma split_endsWithName (x f : string) :
  includes Path.sep f = false → endsWithName x f →
  ∃ segs, Path.split x = segs ++ [f].
Proof.
  intros Hf [->|[q ->]].
  - exists []. by apply split_no_sep.
  - exists (Path.split q). by rewrite split_append_sep, (split_no_sep f).
Qed.

Lemma joinSegs_snoc (segs : list string) (f : string) :
  Path.joinSegs (segs ++ [f])
    = match segs with
      | [] => f
      | _ => Path.joinSegs segs +:+ "/" +:+ f
      end.
Proof.
  induction segs as [|seg segs IH]; [done|].
  destruct segs as [|seg' segs]; [done|].
  change (Path.joinSegs ((seg :: seg' :: segs) ++ [f]))
    with (seg +:+ "/" +:+ Path.joinSegs ((seg' :: segs) ++ [f])).
  rewrite IH.
  change (Path.joinSegs (seg :: seg' :: segs))
    with (seg +:+ "/" +:+ Path.joinSegs (seg' :: segs)).
  by rewrite !append_assoc.
Qed.

Lemma joinSegs_snoc_endsWithName (segs : list string) (f : string) :
  endsWithName (Path.joinSegs (segs ++ [f])) f.
Proof.
  rewrite joinSegs_snoc. destruct segs; [by left|]. right. by eexists.
Qed.

Lemma endsWithSep_no_sep (f : string) :
  includes Path.sep f = false → Path.endsWithSep f = false.
Proof.
  induction f as [|c f IH]; intros Hf; [done|]. simpl in *.
  apply orb_false_iff in Hf as [Hc Hf].
  destruct f; [done|]. by apply IH.
Qed.

Lemma endsWithSep_append (s t : string) :
  t ≠ "" → Path.endsWithSep (s +:+ t) = Path.endsWithSep t.
Proof.
  intros Ht. induction s as [|c s IH]; [done|].
  rewrite append_cons. simpl. rewrite IH.
  destruct (s +:+ t) eqn:Heq; [|done].
  destruct s, t; done.
Qed.

Lemma endsWithName_nonempty (x f : string) :
  f ≠ "" → endsWithName x f → x ≠ "".
Proof.
  intros Hf [->|[q ->]]; [done|]. intros Heq.
  apply (f_equal String.length) in Heq. rewrite !length_append in Heq.
  simpl in Heq. lia.
Qed.

Lemma endsWithName_endsWithSep (x f : string) :
  plainName f → endsWithName x f → Path.endsWithSep x = false.
Proof.
  intros (Hsep & Hne & _) [->|[q ->]]; [by apply endsWithSep_no_sep|].
  rewrite <- append_assoc, endsWithSep_append by done.
  by apply endsWithSep_no_sep.
Qed.

Lemma normalizeString_endsWithName (x f : string) (allow : bool) :
  plainName f → endsWithName x f →
  endsWithName (Path.normalizeString x allow) f.
Proof.
  intros Hplain Hx. pose proof Hplain as (Hsep & Hne & Hdot & Hdots).
  destruct (split_endsWithName x f Hsep Hx) as [segs Hsplit].
  unfold Path.normalizeString. rewrite Hsplit, fold_left_app. simpl.
  unfold Path.normalizeStep at 1.
  rewrite bool_decide_eq_false_2 by (intros [?|?]; done).
  rewrite bool_decide_eq_false_2 by done.
  simpl. apply joinSegs_snoc_endsWithName.
Qed.

Lemma normalize_endsWithName (x f : string) :
  plainName f → endsWithName x f → endsWithName (Path.normalize x) f.
Proof.
  intros Hplain Hx. pose proof Hplain as (Hsep & Hne & _).
  pose proof (endsWithName_nonempty x f Hne Hx) as Hx0.
  unfold Path.normalize. destruct x as [|c x]; [done|].
  rewrite (endsWithName_endsWithSep _ f Hplain Hx).
  pose proof (normalizeString_endsWithName _ f
                (negb (Path.isAbsolute (String c x))) Hplain Hx) as Hbody.
  pose proof (endsWithName_nonempty _ f Hne Hbody) as Hbody0.
  destruct (Path.normalizeString _ _) as [|b body]; [done|].
  destruct (Path.isAbsolute _); [|done].
  destruct Hbody as [->|[q ->]]; right.
  - by exists "".
  - exists ("/" +:+ q). by rewrite !append_assoc.
Qed.

Lemma basename_endsWithName (x f : string) :
  plainName f → endsWithName x f → Path.basename x = f.
Proof.
  intros (Hsep & Hne & _) Hx.
  destruct (split_endsWithName x f Hsep Hx) as [segs Hsplit].
  unfold Path.basename. rewrite Hsplit, filter_app.
  rewrite (filter_cons_True _ f) by done. by rewrite filter_nil, last_snoc.
Qed.

Lemma join_endsWithName (dir f : string) :
  plainName f → endsWithName (Path.join dir f) f.
Proof.
  intros Hplain. pose proof Hplain as (_ & Hne & _).
  unfold Path.join. apply normalize_endsWithName; [done|].
  destruct dir as [|c dir]; [by left|].
  destruct f; [done|]. right. by eexists.
Qed.

(** Joining a directory and a bare file name and taking the base name of
    the result, normalized once more or not, gives the file name back. *)
Theorem basename_join (dir f : string) :
  plainName f →
  Path.basename (Path.join dir f) = f
  ∧ Path.basename (Path.normalize (Path.join dir f)) = f.
Proof.
  intros Hplain. split.
  - by apply basename_endsWithName, join_endsWithName.
  - by apply basename_endsWithName, normalize_endsWithName, join_endsWithName.
Qed.

Lemma basename_join_witness :
  Path.basename (Path.join "/app/uploads/../uploads" "17-1.pdf") = "17-1.pdf"
  ∧ Path.basename (Path.normalize (Path.join "/app/uploads/../uploads" "17-1.pdf"))
    = "17-1.pdf".
Proof.
  apply basename_join. repeat split; done.
Defined.

(** ** [path.normalize] is idempotent *)

Lemma Forall_rev_inv {A} (P : A → Prop) (l : list A) :
  Forall P (rev l) → Forall P l.
Proof. intros H. apply List.Forall_rev in H. by rewrite rev_involutive in H. Qed.

Lemma canonicalStack_nil (allow : bool) : canonicalStack allow [].
Proof.
  split; [constructor|]. intros l r Heq. by destruct l.
Qed.

Lemma canonicalStack_tail (allow : bool) (top : string) (res : list string) :
  canonicalStack allow (top :: res) → canonicalStack allow res.
Proof.
  intros [Hkept Hdots]. split; [by apply Forall_cons in Hkept as [_ ?]|].
  intros l r ->. by apply (Hdots (top :: l) r).
Qed.

Lemma canonicalStack_step (allow : bool) (res : list string) (seg : string) :
  includes "/"%char seg = false →
  canonicalStack allow res →
  canonicalStack allow (Path.normalizeStep allow res seg).
Proof.
  intros Hseg Hres. unfold Path.normalizeStep.
  case_bool_decide as Hskip; [done|].
  case_bool_decide as Hup.
  - subst seg. destruct res as [|top rest].
    + destruct allow; [|done]. split; [by repeat constructor|].
      intros [|x l] r Heq; simplify_eq/=; [by split; [|constructor]|].
      by destruct l.
    + case_bool_decide as Htop; [|by eapply canonicalStack_tail].
      subst top. destruct Hres as [Hkept Hdots].
      destruct (Hdots [] rest eq_refl) as [-> Hrest].
      split; [by constructor|].
      intros [|x l] r Heq; simplify_eq/=.
      * split; [done|]. by constructor.
      * by apply (Hdots l r).
  - destruct Hres as [Hkept Hdots]. split.
    + constructor; [|done]. repeat split; [done| |]; intros ->; apply Hskip; auto.
    + intros [|x l] r Heq; simplify_eq/=. by apply (Hdots l r).
Qed.

Lemma canonicalStack_fold (allow : bool) (segs res : list string) :
  Forall (λ seg, includes "/"%char seg = false) segs →
  canonicalStack allow res →
  canonicalStack allow (fold_left (Path.normalizeStep allow) segs res).
Proof.
  intros Hsegs. revert res.
  induction Hsegs as [|seg segs Hseg _ IH]; intros res Hres; [done|].
  simpl. by apply IH, canonicalStack_step.
Qed.

(** Folding the segments of a canonical stack, outermost first, rebuilds
    the stack. *)
Lemma fold_canonical (allow : bool) (segs : list string) :
  canonicalStack allow (rev segs) →
  fold_left (Path.normalizeStep allow) segs [] = rev segs.
Proof.
  induction segs as [|x segs IH] using rev_ind; intros Hcanon; [done|].
  rewrite rev_unit in Hcanon.
  rewrite fold_left_app, rev_unit. simpl.
  rewrite IH by by eapply canonicalStack_tail.
  destruct Hcanon as [Hkept Hdots].
  apply Forall_cons in Hkept as [(_ & Hne & Hdot) _].
  unfold Path.normalizeStep.
  rewrite bool_decide_eq_false_2 by (intros [?|?]; done).
  case_bool_decide as Hup; [|done]. subst x.
  destruct (Hdots [] (rev segs) eq_refl) as [-> Hall].
  destruct (rev segs) as [|top rest]; [done|].
  apply Forall_cons in Hall as [-> _]. done.
Qed.

Lemma split_joinSegs (segs : list string) :
  segs ≠ [] →
  Forall (λ seg, includes "/"%char seg = false) segs →
  Path.split (Path.joinSegs segs) = segs.
Proof.
  induction segs as [|seg segs IH]; intros Hne Hsegs; [done|].
  apply Forall_cons in Hsegs as [Hseg Hsegs].
  destruct segs as [|seg' segs]; [by apply split_no_sep|].
  change (Path.joinSegs (seg :: seg' :: segs))
    with (seg +:+ "/" +:+ Path.joinSegs (seg' :: segs)).
  rewrite split_append_sep, (split_no_sep seg) by done.
  by rewrite IH.
Qed.

Lemma joinSegs_head (seg : string) (segs : list string) :
  ∃ t, Path.joinSegs (seg :: segs) = seg +:+ t.
Proof.
  destruct segs; [exists ""; by rewrite append_nil_r | by eexists].
Qed.

Lemma isAbsolute_append_kept (seg t : string) :
  seg ≠ "" → includes "/"%char seg = false →
  Path.isAbsolute (seg +:+ t) = false.
Proof.
  destruct seg as [|c seg]; [done|]. intros _ Hseg. simpl in Hseg.
  apply orb_false_iff in Hseg as [Hc _]. by rewrite append_cons.
Qed.

Lemma endsWithSep_joinSegs (segs : list string) :
  Forall keptSegment segs → Path.endsWithSep (Path.joinSegs segs) = false.
Proof.
  intros Hsegs. destruct segs as [|x segs _] using rev_ind; [done|].
  apply Forall_app in Hsegs as [_ Hx].
  apply Forall_singleton in Hx as (Hsep & Hne & _).
  rewrite joinSegs_snoc. destruct segs; [by apply endsWithSep_no_sep|].
  rewrite <- append_assoc, endsWithSep_append by done.
  by apply endsWithSep_no_sep.
Qed.

Lemma joinSegs_nonempty (seg : string) (segs : list string) :
  seg ≠ "" → Path.joinSegs (seg :: segs) ≠ "".
Proof.
  intros Hne. destruct (joinSegs_head seg segs) as [t ->].
  by destruct seg.
Qed.

(** Normalizing a joined canonical stack, with or without a leading and a
    trailing separator, gives it back. *)
Lemma normalize_canonical (abs trailing : bool) (seg : string) (segs : list string) :
  canonicalStack (negb abs) (rev (seg :: segs)) →
  let body := Path.joinSegs (seg :: segs) in
  let out := (if abs then "/" else "") +:+ body +:+ (if trailing then "/" else "") in
  Path.normalize out = out.
Proof.
  intros Hcanon body out.
  assert (Forall keptSegment (seg :: segs)) as Hkept.
  { destruct Hcanon as [Hkept _]. by apply Forall_rev_inv. }
  assert (Forall (λ s, includes "/"%char s = false) (seg :: segs)) as Hsep.
  { eapply Forall_impl; [exact Hkept|]. by intros s (? & _). }
  pose proof Hkept as Hseg. apply Forall_cons in Hseg as [(Hsegsep & Hsegne & _) _].
  assert (body ≠ "") as Hbody by by apply joinSegs_nonempty.
  assert (Path.isAbsolute out = abs) as Habs.
  { subst out. destruct abs; [done|]. rewrite append_nil_l. subst body.
    destruct (joinSegs_head seg segs) as [t ->].
    rewrite append_assoc. by apply isAbsolute_append_kept. }
  assert (Path.endsWithSep out = trailing) as Htrailing.
  { subst out. destruct trailing.
    - rewrite <- append_assoc. by apply endsWithSep_append.
    - rewrite append_nil_r, endsWithSep_append by done.
      by apply endsWithSep_joinSegs. }
  assert (Path.split out
          = (if abs then [""] else []) ++ (seg :: segs)
            ++ (if trailing then [""] else [])) as Hsplit.
  { assert (Path.split (body +:+ (if trailing then "/" else ""))
            = (seg :: segs) ++ (if trailing then [""] else [])) as Hrest.
    { destruct trailing.
      - rewrite <- (append_nil_r "/") at 1.
        change ("/" +:+ "") with ("/" +:+ "").
        rewrite split_append_sep. subst body. by rewrite split_joinSegs.
      - rewrite append_nil_r, app_nil_r. subst body. by rewrite split_joinSegs. }
    subst out. destruct abs; [|by rewrite append_nil_l].
    etrans; [apply (split_append_sep "")|]. by rewrite Hrest. }
  assert (Path.normalizeString out (negb abs) = body) as Hstring.
  { unfold Path.normalizeString. rewrite Hsplit, !fold_left_app.
    assert (fold_left (Path.normalizeStep (negb abs))
              (if abs then [""] else []) [] = []) as -> by by destruct abs.
    rewrite fold_canonical by done.
    assert (fold_left (Path.normalizeStep (negb abs))
              (if trailing then [""] else []) (rev (seg :: segs))
            = rev (seg :: segs)) as -> by by destruct trailing.
    by rewrite rev_involutive. }
  unfold Path.normalize.
  destruct out as [|c out'] eqn:Hout.
  { exfalso. subst out. apply (f_equal String.length) in Hout.
    rewrite !length_append in Hout. destruct body; [done|]. simpl in Hout. lia. }
  rewrite Habs, Htrailing, Hstring.
  destruct body as [|b body'] eqn:Hb; [done|].
  rewrite <- Hout. subst out. destruct abs, trailing; try done.
  - by rewrite append_nil_r.
  - by rewrite append_nil_r.
Qed.

Lemma normalize_shape (p : string) :
  Path.normalize p = "/" ∨ Path.normalize p = "./" ∨ Path.normalize p = "."
  ∨ ∃ (abs trailing : bool) (seg : string) (segs : list string),
      canonicalStack (negb abs) (rev (seg :: segs))
      ∧ Path.normalize p
        = (if abs then "/" else "") +:+ Path.joinSegs (seg :: segs)
          +:+ (if trailing then "/" else "").
Proof.
  destruct p as [|c p]; [by right; right; left|].
  set (x := String c p).
  assert (canonicalStack (negb (Path.isAbsolute x))
            (fold_left (Path.normalizeStep (negb (Path.isAbsolute x)))
               (Path.split x) [])) as Hcanon.
  { apply canonicalStack_fold; [|apply canonicalStack_nil].
    apply Forall_forall. intros seg Hseg. by eapply split_segments_no_sep. }
  assert (∀ (rest : string → Prop),
            rest (let abs := Path.isAbsolute x in
                  let trailing := Path.endsWithSep x in
                  let body := Path.normalizeString x (negb abs) in
                  match body with
                  | EmptyString =>
                      if abs then "/" else if trailing then "./" else "."
                  | _ =>
                      let body' := if trailing then body +:+ "/" else body in
                      if abs then "/" +:+ body' else body'
                  end) → rest (Path.normalize x)) as Hunfold by (intros rest H; exact H).
  apply Hunfold. clear Hunfold. cbv zeta.
  unfold Path.normalizeString.
  destruct (rev (fold_left _ (Path.split x) [])) as [|seg segs] eqn:Hsegs.
  - cbn [Path.joinSegs]. destruct (Path.isAbsolute x); [by left|].
    destruct (Path.endsWithSep x); [by right; left | by right; right; left].
  - rewrite <- (rev_involutive (fold_left _ _ _)) in Hcanon.
    rewrite Hsegs in Hcanon.
    assert (seg ≠ "") as Hseg.
    { destruct Hcanon as [Hkept _]. apply Forall_rev_inv in Hkept.
      by apply Forall_cons in Hkept as [(_ & ? & _) _]. }
    pose proof (joinSegs_nonempty seg segs Hseg) as Hne.
    right; right; right.
    exists (Path.isAbsolute x), (Path.endsWithSep x), seg, segs.
    split; [done|].
    destruct (Path.joinSegs (seg :: segs)) as [|b body] eqn:Hbody; [done|].
    destruct (Path.isAbsolute x), (Path.endsWithSep x);
      by rewrite ?append_nil_l, ?append_nil_r.
Qed.

Lemma normalize_idempotent (p : string) :
  Path.normalize (Path.normalize p) = Path.normalize p.
Proof.
  destruct (normalize_shape p)
    as [->|[->|[->|(abs & trailing & seg & segs & Hcanon & ->)]]]; [done..|].
  by apply normalize_canonical.
Qed.

Lemma normalize_join (a b : string) :
  Path.normalize (Path.join a b) = Path.join a b.
Proof. unfold Path.join. apply normalize_idempotent. Qed.

(** ** The handlers *)

Section MoreRouteFacts.

Context {Vec : Type}.
Implicit Types (env : Env Vec) (st : State Vec).

(** The four handlers on a request that finds no record. *)
Lemma no_access_no_change env header id body st :
  (∀ uid, presentHeader header = Some uid →
     head (filter (λ d, docId d = id ∧ userId d = uid) (db st)) = None) →
  (∃ status error,
     chatRoute env header id body st = (RespError status error, st)
     ∧ (status = 400 ∨ status = 404)%nat)
  ∧ (∃ status error,
       deleteRoute env header id st = (RespError status error, st)
       ∧ (status = 400 ∨ status = 404)%nat)
  ∧ (∃ status error,
       getPdfRoute env header id st = (FileError status error, st)
       ∧ (status = 400 ∨ status = 404)%nat)
  ∧ (∃ status error,
       historyRoute header id st = (HistoryError status error, st)
       ∧ (status = 400 ∨ status = 404)%nat).
Proof.
  intros Hnone.
  unfold chatRoute, deleteRoute, getPdfRoute, historyRoute, handler,
    findByIdAndUser.
  destruct (presentHeader header) as [uid|].
  - unfold_monad. rewrite (Hnone uid eq_refl).
    repeat split; eexists _, _; (split; [done|by right]).
  - unfold_monad. repeat split; eexists _, _; (split; [done|by left]).
Qed.

(** A request whose user id is missing, or does not go with a record of
    the requested id, is answered with 400 or 404 by the chat, delete, file
    and history handlers alike, and changes nothing. *)
Theorem requests_without_access_change_nothing env header id body st :
  (∀ uid, presentHeader header = Some uid →
     head (filter (λ d, docId d = id ∧ userId d = uid) (db st)) = None) →
  (∃ status error,
     chatRoute env header id body st = (RespError status error, st)
     ∧ (status = 400 ∨ status = 404)%nat)
  ∧ (∃ status error,
       deleteRoute env header id st = (RespError status error, st)
       ∧ (status = 400 ∨ status = 404)%nat)
  ∧ (∃ status error,
       getPdfRoute env header id st = (FileError status error, st)
       ∧ (status = 400 ∨ status = 404)%nat)
  ∧ (∃ status error,
       historyRoute header id st = (HistoryError status error, st)
       ∧ (status = 400 ∨ status = 404)%nat).
Proof. eapply no_access_no_change; eassumption. Qed.

(** The upload handler once the request carries a file and a user id. *)
Lemma uploadRoute_run env file header uid st :
  presentHeader header = Some uid →
  uploadRoute env (Some file) header st =
    match processPdf env (up_path file) st with
    | (Ok processed, st1) =>
        let fresh := S (max_list (docId <$> db st1) `max` lastId st1) in
        let pdfDoc :=
          {| docId := fresh; userId := uid;
             filename := up_filename file;
             originalName := up_originalname file;
             pageCount := snd processed;
             documentChunks := castChunk <$> fst processed;
             chatHistory := [] |} in
        if validPdfDocument pdfDoc
        then (RespUpload (docId pdfDoc) (originalName pdfDoc) (pageCount pdfDoc),
              setDb (λ docs, docs ++ [pdfDoc]) (setLastId (λ _, fresh) st1))
        else (RespError 500 "PdfDocument validation failed",
              snd (cleanupFile env (up_path file) (setLastId (λ _, fresh) st1)))
    | (Err e, st1) =>
        (RespError 500 (if bool_decide (e = "") then "Error processing PDF" else e),
         snd (cleanupFile env (up_path file) st1))
    end.
Proof.
  intros Hheader. unfold uploadRoute, handler, create. rewrite Hheader.
  unfold tryCatch, bind at 1 2.
  destruct (processPdf _ _ _) as [[processed|e] st1].
  - unfold bind at 1, gets at 1. unfold bind at 1, modify at 1. cbv zeta.
    destruct (validPdfDocument _); [done|].
    unfold throw, bind. rewrite cleanupFile_run. done.
  - unfold bind. rewrite cleanupFile_run. done.
Qed.

(** The state after an upload answered with an error. *)
Lemma uploadRoute_error_state env file header st status error st' :
  uploadRoute env (Some file) header st = (RespError status error, st') →
  db st' = db st ∧ cache st' = cache st
  ∧ files st' !! Path.normalize (up_path file) = None.
Proof.
  intros Hroute.
  assert (∀ st1, db st1 = db st → cache st1 = cache st →
            db (snd (cleanupFile env (up_path file) st1)) = db st
            ∧ cache (snd (cleanupFile env (up_path file) st1)) = cache st
            ∧ files (snd (cleanupFile env (up_path file) st1))
                !! Path.normalize (up_path file) = None) as Hclean.
  { intros st1 Hdb Hcache.
    destruct (cleanupFile_Ok_effects env (up_path file) st1)
      as (st2 & -> & Hfiles & Hdb2 & Hcache2 & _). simpl.
    rewrite Hfiles, lookup_delete_eq. repeat split; congruence. }
  destruct (presentHeader header) as [uid|] eqn:Hheader.
  - rewrite (uploadRoute_run _ _ _ uid) in Hroute by done.
    destruct (processPdf _ _ _) as [[processed|e] st1] eqn:Hprocess;
      apply processPdf_frame in Hprocess as (Hcache & Hdb & _).
    + cbv zeta in Hroute. destruct (validPdfDocument _); [done|].
      simplify_eq. by apply Hclean.
    + simplify_eq. by apply Hclean.
  - unfold uploadRoute, handler in Hroute. rewrite Hheader in Hroute.
    unfold bind, ret in Hroute. rewrite cleanupFile_run in Hroute.
    simplify_eq. pose proof (Hclean st eq_refl eq_refl) as H.
    by rewrite cleanupFile_run in H.
Qed.

(** An upload that is answered with an error has stored no record, and no
    file is left at the (normalized) path of the upload; the cache is
    untouched. *)
Theorem uploadRoute_error_leaves_nothing env file header st status error st' :
  uploadRoute env (Some file) header st = (RespError status error, st') →
  db st' = db st ∧ cache st' = cache st
  ∧ files st' !! Path.normalize (up_path file) = None.
Proof. eapply uploadRoute_error_state; eassumption. Qed.

(** The state after an upload answered with 200. *)
Lemma uploadRoute_success_state env file header st id name pages st' :
  uploadRoute env file header st = (RespUpload id name pages, st') →
  ∃ f uid chunks st1,
    file = Some f ∧ presentHeader header = Some uid
    ∧ processPdf env (up_path f) st = (Ok (chunks, pages), st1)
    ∧ (id ∉ docId <$> db st)
    ∧ name = up_originalname f
    ∧ db st' = (db st ++ [ {| docId := id; userId := uid;
                              filename := up_filename f;
                              originalName := up_originalname f;
                              pageCount := pages;
                              documentChunks := castChunk <$> chunks;
                              chatHistory := [] |} ])
    ∧ vectorStores st' = vectorStores st1 ∧ files st' = files st
    ∧ cache st' = cache st ∧ embedPasses st' = embedPasses st1.
Proof.
  intros Hroute. destruct file as [f|]; [|done].
  destruct (presentHeader header) as [uid|] eqn:Hheader.
  2:{ unfold uploadRoute, handler in Hroute. rewrite Hheader in Hroute.
      unfold bind, ret in Hroute. by rewrite cleanupFile_run in Hroute. }
  rewrite (uploadRoute_run _ _ _ uid) in Hroute by done.
  destruct (processPdf _ _ _) as [[[chunks count]|e] st1] eqn:Hprocess; [|done].
  cbv zeta in Hroute. destruct (validPdfDocument _); [|done].
  pose proof (processPdf_frame _ _ _ _ _ Hprocess) as (Hcache & Hdb & Hfiles & _).
  simplify_eq. exists f, uid, chunks, st1. simpl.
  rewrite Hdb. repeat split; try done.
  intros Hin. apply max_list_elem_of_le in Hin. lia.
Qed.

(** An upload that is answered with 200 has added exactly one record, at
    the end, under an id no record had before: it carries the user id, the
    names of the upload, the chunks [processPdf] returned as the schema
    keeps them, and an empty chat history. *)
Theorem uploadRoute_success_stores_record env file header st id name pages st' :
  uploadRoute env file header st = (RespUpload id name pages, st') →
  ∃ f uid chunks st1,
    file = Some f ∧ presentHeader header = Some uid
    ∧ processPdf env (up_path f) st = (Ok (chunks, pages), st1)
    ∧ (id ∉ docId <$> db st)
    ∧ name = up_originalname f
    ∧ db st' = (db st ++ [ {| docId := id; userId := uid;
                              filename := up_filename f;
                              originalName := up_originalname f;
                              pageCount := pages;
                              documentChunks := castChunk <$> chunks;
                              chatHistory := [] |} ])
    ∧ vectorStores st' = vectorStores st1 ∧ files st' = files st
    ∧ cache st' = cache st ∧ embedPasses st' = embedPasses st1.
Proof. eapply uploadRoute_success_state; eassumption. Qed.

Lemma deleteRoute_run env header uid id doc st :
  presentHeader header = Some uid →
  head (filter (λ d, docId d = id ∧ userId d = uid) (db st)) = Some doc →
  deleteRoute env header id st =
    (RespSuccess,
     setDb (filter (λ d, docId d ≠ docId doc))
       (match files st !! Path.join (uploadsDir env) (filename doc) with
        | Some _ =>
            snd (cleanupFile env (Path.join (uploadsDir env) (filename doc)) st)
        | None => st
        end)).
Proof.
  intros Hheader Hdoc.
  unfold deleteRoute, findByIdAndUser, existsSync. rewrite Hheader.
  unfold bind at 1, gets at 1. rewrite Hdoc.
  unfold bind at 1, gets at 1.
  destruct (files st !! _) as [buffer|] eqn:Hfile.
  - rewrite bool_decide_eq_true_2 by eauto.
    unfold bind at 1. rewrite cleanupFile_run. done.
  - rewrite bool_decide_eq_false_2 by (by intros [? ?]). done.
Qed.

(** The state after a successful delete. *)
Lemma deleteRoute_success_state env header id st st' :
  deleteRoute env header id st = (RespSuccess, st') →
  ∃ uid doc,
    presentHeader header = Some uid
    ∧ head (filter (λ d, docId d = id ∧ userId d = uid) (db st)) = Some doc
    ∧ db st' = filter (λ d, docId d ≠ id) (db st)
    ∧ files st' !! Path.join (uploadsDir env) (filename doc) = None
    ∧ cache st' = cache st.
Proof.
  intros Hroute.
  destruct (presentHeader header) as [uid|] eqn:Hheader;
    [|by unfold deleteRoute in Hroute; rewrite Hheader in Hroute].
  destruct (head (filter (λ d, docId d = id ∧ userId d = uid) (db st)))
    as [doc|] eqn:Hdoc.
  2:{ unfold deleteRoute, findByIdAndUser, bind, gets in Hroute.
      by rewrite Hheader, Hdoc in Hroute. }
  rewrite (deleteRoute_run env header uid id doc) in Hroute by done.
  pose proof Hdoc as Hin.
  apply head_Some_elem_of, list_elem_of_filter in Hin as [[Hid _] _].
  exists uid, doc. split; [done|]. split; [done|].
  simplify_eq.
  destruct (files st !! Path.join (uploadsDir env) (filename doc)) eqn:Hfile.
  - destruct (cleanupFile_Ok_effects env (Path.join (uploadsDir env) (filename doc)) st)
      as (st2 & -> & Hfiles & Hdb & Hcache & _). simpl.
    rewrite Hdb, Hcache. repeat split.
    rewrite Hfiles, normalize_join. apply lookup_delete_eq.
  - by simpl.
Qed.

(** A delete answered with success has removed every record with the
    requested id and no other, and the document's file is gone; the cache
    keeps its entries. *)
Theorem deleteRoute_success_effects env header id st st' :
  deleteRoute env header id st = (RespSuccess, st') →
  ∃ uid doc,
    presentHeader header = Some uid
    ∧ head (filter (λ d, docId d = id ∧ userId d = uid) (db st)) = Some doc
    ∧ db st' = filter (λ d, docId d ≠ id) (db st)
    ∧ files st' !! Path.join (uploadsDir env) (filename doc) = None
    ∧ cache st' = cache st.
Proof. eapply deleteRoute_success_state; eassumption. Qed.

End MoreRouteFacts.

Section MoreRouteInvariants.

Context {Vec : Type}.
Implicit Types (env : Env Vec) (st : State Vec).

Lemma uploadRoute_db env file header st :
  db (snd (uploadRoute env file header st)) = db st
  ∨ ∃ d, db (snd (uploadRoute env file header st)) = db st ++ [d]
         ∧ docId d ∉ (docId <$> db st).
Proof.
  destruct (uploadRoute env file header st) as [[m p s h|id name pages| |status e] st']
    eqn:Hroute; simpl.
  - exfalso. destruct file as [f|]; [|done].
    destruct (presentHeader header) as [uid|] eqn:Hheader.
    + rewrite (uploadRoute_run _ _ _ uid) in Hroute by done.
      destruct (processPdf _ _ _) as [[processed|e] st1]; [|done].
      cbv zeta in Hroute. by destruct (validPdfDocument _).
    + unfold uploadRoute, handler in Hroute. rewrite Hheader in Hroute.
      unfold bind, ret in Hroute. by rewrite cleanupFile_run in Hroute.
  - right.
    apply uploadRoute_success_state in Hroute
      as (f & uid & chunks & st1 & _ & _ & _ & Hfresh & _ & Hdb & _).
    eexists. split; [exact Hdb|done].
  - exfalso. destruct file as [f|]; [|done].
    destruct (presentHeader header) as [uid|] eqn:Hheader.
    + rewrite (uploadRoute_run _ _ _ uid) in Hroute by done.
      destruct (processPdf _ _ _) as [[processed|e] st1]; [|done].
      cbv zeta in Hroute. by destruct (validPdfDocument _).
    + unfold uploadRoute, handler in Hroute. rewrite Hheader in Hroute.
      unfold bind, ret in Hroute. by rewrite cleanupFile_run in Hroute.
  - left. destruct file as [f|].
    + by apply uploadRoute_error_state in Hroute as (? & _).
    + unfold uploadRoute, handler, ret in Hroute. by simplify_eq.
Qed.

Lemma chatRoute_db env header id body st :
  db (snd (chatRoute env header id body st)) = db st
  ∨ ∃ pdf history,
      pdf ∈ db st ∧ docId pdf = id
      ∧ db (snd (chatRoute env header id body st))
        = (λ d, if decide (docId d = docId pdf)
                then withChatHistory history pdf else d) <$> db st.
Proof.
  destruct (presentHeader header) as [uid|] eqn:Hheader;
    [|left; by unfold chatRoute, handler; rewrite Hheader].
  destruct (head (filter (λ d, docId d = id ∧ userId d = uid) (db st)))
    as [pdf|] eqn:Hhead;
    [|left; by unfold chatRoute, handler, findByIdAndUser, bind, gets;
              rewrite Hheader, Hhead].
  assert (findByIdAndUser id uid st = (Ok (Some pdf), st)) as Hfound
    by (unfold findByIdAndUser, gets; by rewrite Hhead).
  destruct (files st !! Path.join (uploadsDir env) (filename pdf)) as [buffer|] eqn:Hfile.
  2:{ left. unfold chatRoute, handler, existsSync. rewrite Hheader.
      unfold bind at 1. rewrite Hfound.
      unfold bind at 1, gets at 1. rewrite Hfile.
      by rewrite bool_decide_eq_false_2 by (by intros [? ?]). }
  rewrite (chatRoute_run env header uid id body pdf st)
    by (try done; rewrite Hfile; eauto).
  destruct (chatWithPdf _ _ _ _ _) as [[result|e] st1] eqn:Hchat;
    apply chatWithPdf_frame in Hchat as [Hdb _]; [|by left].
  cbv zeta. destruct (validPdfDocument _); [|by left].
  right. apply head_Some_elem_of, list_elem_of_filter in Hhead as [[Hid _] Hin].
  eexists pdf, _. simpl. rewrite Hdb. done.
Qed.

Lemma deleteRoute_db env header id st :
  db (snd (deleteRoute env header id st)) = db st
  ∨ db (snd (deleteRoute env header id st)) = filter (λ d, docId d ≠ id) (db st).
Proof.
  destruct (deleteRoute env header id st) as [[m p s h|i name pages| |status e] st']
    eqn:Hroute; simpl.
  - left. destruct (presentHeader header) as [uid|] eqn:Hheader;
      [|by unfold deleteRoute in Hroute; rewrite Hheader in Hroute].
    destruct (head (filter (λ d, docId d = id ∧ userId d = uid) (db st)))
      as [doc|] eqn:Hdoc.
    + by rewrite (deleteRoute_run env header uid id doc) in Hroute.
    + unfold deleteRoute, findByIdAndUser, bind, gets in Hroute.
      by rewrite Hheader, Hdoc in Hroute.
  - left. destruct (presentHeader header) as [uid|] eqn:Hheader;
      [|by unfold deleteRoute in Hroute; rewrite Hheader in Hroute].
    destruct (head (filter (λ d, docId d = id ∧ userId d = uid) (db st)))
      as [doc|] eqn:Hdoc.
    + by rewrite (deleteRoute_run env header uid id doc) in Hroute.
    + unfold deleteRoute, findByIdAndUser, bind, gets in Hroute.
      by rewrite Hheader, Hdoc in Hroute.
  - right. by apply deleteRoute_success_state in Hroute as (? & ? & _ & _ & ? & _).
  - left. destruct (presentHeader header) as [uid|] eqn:Hheader;
      [|unfold deleteRoute in Hroute; rewrite Hheader in Hroute;
        unfold ret in Hroute; by simplify_eq].
    destruct (head (filter (λ d, docId d = id ∧ userId d = uid) (db st)))
      as [doc|] eqn:Hdoc.
    + by rewrite (deleteRoute_run env header uid id doc) in Hroute.
    + unfold deleteRoute, findByIdAndUser, bind, gets, ret in Hroute.
      rewrite Hheader, Hdoc in Hroute. by simplify_eq.
Qed.

(** The handlers keep record ids unique: when no two records share an id,
    the same holds after an upload, a chat or a delete request, however it
    is answered. *)
Theorem handlers_keep_ids_unique env st :
  NoDup (docId <$> db st) →
  (∀ file header, NoDup (docId <$> db (snd (uploadRoute env file header st))))
  ∧ (∀ header id body,
       NoDup (docId <$> db (snd (chatRoute env header id body st))))
  ∧ (∀ header id, NoDup (docId <$> db (snd (deleteRoute env header id st)))).
Proof.
  intros Hnodup. repeat split.
  - intros file header.
    destruct (uploadRoute_db env file header st) as [->|(d & -> & Hfresh)]; [done|].
    rewrite fmap_app. apply NoDup_app. split; [done|]. split.
    + intros x Hx Hd. apply list_elem_of_singleton in Hd as ->. done.
    + apply NoDup_singleton.
  - intros header id body.
    destruct (chatRoute_db env header id body st)
      as [->|(pdf & history & _ & _ & ->)]; [done|].
    rewrite <- list_fmap_compose.
    rewrite (list_fmap_ext _ docId); [done|].
    intros k d _. simpl. by destruct (decide _) as [->|].
  - intros header id.
    destruct (deleteRoute_db env header id st) as [->| ->]; [done|].
    eapply sublist_NoDup; [exact Hnodup|].
    apply fmap_sublist, sublist_filter.
Qed.

End MoreRouteInvariants.

Section MoreRouteComposition.

Context {Vec : Type}.
Implicit Types (env : Env Vec) (st : State Vec).

(** A chat request, however it is answered, leaves every record with
    another id where and as it was, adds and removes no record, and leaves
    the files alone. *)
Theorem chatRoute_touches_only_its_record env header id body st response st' :
  chatRoute env header id body st = (response, st') →
  length (db st') = length (db st)
  ∧ (∀ k d, db st !! k = Some d → docId d ≠ id → db st' !! k = Some d).
Proof.
  intros Hroute.
  pose proof (chatRoute_db env header id body st) as Hdb.
  rewrite Hroute in Hdb. simpl in Hdb.
  destruct Hdb as [->|(pdf & history & _ & Hid & ->)]; [done|].
  split; [by rewrite length_fmap|].
  intros k d Hd Hne. rewrite list_lookup_fmap, Hd. simpl.
  destruct (decide _); [congruence|done].
Qed.

(** The history endpoint returns what the chat endpoint has just sent: after
    a chat request answered with 200, a history request by the same user
    for the same document yields exactly the [chatHistory] of that
    answer. *)
Theorem historyRoute_after_chat env header id body st message pages srcs
    history st' :
  chatRoute env header id body st = (RespChat message pages srcs history, st') →
  historyRoute header id st' = (HistoryOk history, st').
Proof.
  intros Hroute.
  apply chatRoute_appends_turns in Hroute
    as (uid & pdf & result & st1 & Hheader & _ & _ & _ & _ & _ & _ & Hfound).
  unfold historyRoute. rewrite Hheader. unfold bind at 1. by rewrite Hfound.
Qed.

Lemma head_filter_None {A} (P : A → Prop) `{∀ x, Decision (P x)} (l : list A) :
  (∀ x, x ∈ l → ¬ P x) → head (filter P l) = None.
Proof.
  intros Hnone. destruct (filter P l) as [|x k] eqn:Hfilter; [done|].
  exfalso. assert (x ∈ filter P l) as Hx by (rewrite Hfilter; left).
  apply list_elem_of_filter in Hx as [HP Hx]. by eapply Hnone.
Qed.

(** Once a delete request has succeeded, the document is out of reach:
    chat, history, file and further delete requests for its id, from
    whatever user, are answered with 400 or 404 and change nothing. *)
Theorem deleted_document_is_out_of_reach env header id st st' :
  deleteRoute env header id st = (RespSuccess, st') →
  ∀ env' header' body,
    (∃ status error,
       chatRoute env' header' id body st' = (RespError status error, st')
       ∧ (status = 400 ∨ status = 404)%nat)
    ∧ (∃ status error,
         deleteRoute env' header' id st' = (RespError status error, st')
         ∧ (status = 400 ∨ status = 404)%nat)
    ∧ (∃ status error,
         getPdfRoute env' header' id st' = (FileError status error, st')
         ∧ (status = 400 ∨ status = 404)%nat)
    ∧ (∃ status error,
         historyRoute header' id st' = (HistoryError status error, st')
         ∧ (status = 400 ∨ status = 404)%nat).
Proof.
  intros Hroute env' header' body.
  apply deleteRoute_success_state in Hroute as (uid & doc & _ & _ & Hdb & _).
  apply no_access_no_change.
  intros uid' _. rewrite Hdb. apply head_filter_None.
  intros d Hd [Hid _]. by apply list_elem_of_filter in Hd as [Hne _].
Qed.

(** A successful delete leaves the vector indexes in memory: with an
    absolute working directory, every index registered under a relative
    name, the one of the deleted document included, is still registered
    afterwards. *)
Theorem deleteRoute_keeps_indexes env header id st st' name :
  deleteRoute env header id st = (RespSuccess, st') →
  Path.isAbsolute (cwd env) = true →
  Path.isAbsolute name = false →
  vectorStores st' !! name = vectorStores st !! name.
Proof.
  intros Hroute Hcwd Hname.
  destruct (presentHeader header) as [uid|] eqn:Hheader;
    [|by unfold deleteRoute in Hroute; rewrite Hheader in Hroute].
  destruct (head (filter (λ d, docId d = id ∧ userId d = uid) (db st)))
    as [doc|] eqn:Hdoc.
  2:{ unfold deleteRoute, findByIdAndUser, bind, gets in Hroute.
      by rewrite Hheader, Hdoc in Hroute. }
  rewrite (deleteRoute_run env header uid id doc) in Hroute by done.
  simplify_eq. simpl.
  destruct (files st !! _) as [buffer|] eqn:Hfile; [|done].
  rewrite cleanupFile_run, normalize_join, Hfile. simpl.
  apply lookup_delete_ne. intros Heq. subst name.
  rewrite join_absolute in Hname; [done|].
  by apply join_absolute.
Qed.

(** The index built during an upload is the one the first chat uses: after
    an upload that multer stored under its generated name and that was
    answered with 200, index resolution for the stored file name finds the
    index of the upload's embedding pass and embeds nothing. *)
Theorem upload_then_chat_needs_no_rebuild env (now random : N) originalname
    header st id name pages st' :
  uploadRoute env (Some (multerFile env now random originalname)) header st
    = (RespUpload id name pages, st') →
  ∃ vs,
    storeId vs = embedPasses st
    ∧ embedPasses st' = S (embedPasses st)
    ∧ ∀ env', getVectorStore env' (storageFilename now random originalname) st'
              = (Ok vs, st').
Proof.
  intros Hroute.
  apply uploadRoute_success_state in Hroute
    as (f & uid & chunks & st1 & Hf & _ & Hprocess & _ & _ & _ & Hvs & _ & _ & Hst').
  simplify_eq.
  apply processPdf_Ok_effects in Hprocess
    as (vectors & _ & _ & Hreg & Hpasses & _).
  simpl in Hreg.
  destruct (basename_join (uploadsDir env) (storageFilename now random originalname)
              (storageFilename_plainName now random originalname)) as [_ Hbase].
  rewrite Hbase in Hreg.
  exists (builtStore vectors chunks (embedPasses st)).
  split; [done|]. split; [congruence|].
  intros env'. apply getVectorStore_registered.
  rewrite Hvs, Hreg. apply lookup_insert_eq.
Qed.

End MoreRouteComposition.

(** ** [authMiddleware] *)

(** [authMiddleware] calls [next] in exactly one situation: the
    Authorization header starts with "Bearer " and has a non-empty second
    word, [getToken] yields a decoded token, and the user id of the body is
    absent, empty or equal to the id of the token.  The request then
    carries that decoded token as [req.user]. *)
Theorem authMiddleware_next_iff (getToken : Result (option Auth.Decoded))
    (req : Auth.Request) (user : Auth.Decoded) :
  Auth.authMiddleware getToken req = Auth.Next user ↔
    ∃ authHeader token bodyUserId,
      Auth.authorization req = Some authHeader
      ∧ Path.startsWith authHeader "Bearer " = true
      ∧ splitOn " "%char authHeader !! 1%nat = Some token ∧ token ≠ ""
      ∧ getToken = Ok (Some user)
      ∧ Auth.body req = Some bodyUserId
      ∧ (bodyUserId = None ∨ bodyUserId = Some ""
         ∨ bodyUserId = Auth.decodedId user).
Proof.
  unfold Auth.authMiddleware. split.
  - intros H.
    destruct (Auth.authorization req) as [authHeader|]; [|done].
    destruct (Path.startsWith authHeader "Bearer ") eqn:Hprefix; [|done].
    simpl in H.
    destruct (splitOn " "%char authHeader !! 1%nat) as [token|] eqn:Htoken; [|done].
    destruct token as [|a token]; [done|].
    destruct getToken as [[decoded|]|e]; [|done..].
    destruct (Auth.body req) as [[uid|]|]; [| |done].
    + destruct uid as [|b uid].
      * simplify_eq. eexists _, _, _. repeat split; eauto.
      * destruct (decide _) as [Heq|]; [|done]. simplify_eq.
        eexists _, _, _. repeat split; eauto.
    + simplify_eq. eexists _, _, _. repeat split; eauto.
  - intros (authHeader & token & bodyUserId & -> & -> & -> & Htoken & -> & -> & Hbody).
    simpl. destruct token as [|a token]; [done|].
    destruct Hbody as [-> | [-> | ->]]; [done..|].
    destruct (Auth.decodedId user) as [[|b uid]|] eqn:Hid; [done| |done].
    by rewrite decide_True.
Qed.



(** ** The upload proxy *)

(** The proxy sends at most one request to the backend, and it sends one
    exactly when the user is signed in and the form holds a file of type
    application/pdf of at most 10485760 bytes; the request goes to
    [<API_URL>/pdf/upload] with the token's [sub], or the empty string, as
    user id, and carries that file. *)
Theorem POST_forwards_only_valid_uploads (env : UploadProxy.ProxyEnv) :
  (length (snd (UploadProxy.POST env)) ≤ 1)%nat
  ∧ ∀ request,
      request ∈ snd (UploadProxy.POST env) ↔
        ∃ token file,
          UploadProxy.getToken env = Ok (Some token)
          ∧ UploadProxy.formData env = Ok (UploadProxy.Upload file)
          ∧ UploadProxy.fileType file = "application/pdf"
          ∧ UploadProxy.fileSize file ≤ 10485760
          ∧ request =
              {| UploadProxy.url :=
                   UploadProxy.orElse (UploadProxy.apiUrl env)
                     "http://localhost:5000"
                   +:+ "/pdf/upload";
                 UploadProxy.xUserId :=
                   UploadProxy.orElse (UploadProxy.sub token) "";
                 UploadProxy.sent := file |}.
Proof.
  unfold UploadProxy.POST. split.
  - destruct (UploadProxy.getToken env) as [[token|]|e]; simpl; [|lia..].
    destruct (UploadProxy.formData env) as [[|text|file]|e]; simpl; [lia..| |lia].
    case_bool_decide; simpl; [|lia]. case_bool_decide; simpl; [lia|].
    destruct (UploadProxy.backend env _) as [reply|e];
      [destruct (UploadProxy.ok reply)|]; simpl; lia.
  - intros request. split.
    + intros Hin.
      destruct (UploadProxy.getToken env) as [[token|]|e];
        [|by apply elem_of_nil in Hin..].
      destruct (UploadProxy.formData env) as [[|text|file]|e];
        [by apply elem_of_nil in Hin..| |by apply elem_of_nil in Hin].
      case_bool_decide as Htype; simpl in Hin; [|by apply elem_of_nil in Hin].
      case_bool_decide as Hsize; [by apply elem_of_nil in Hin|].
      exists token, file. unfold UploadProxy.maxFileSize in Hsize.
      destruct (UploadProxy.backend env _) as [reply|e];
        [destruct (UploadProxy.ok reply)|]; simpl in *;
        apply list_elem_of_singleton in Hin as ->; repeat split; (done || lia).
    + intros (token & file & -> & -> & Htype & Hsize & ->).
      rewrite bool_decide_eq_true_2 by done. simpl.
      rewrite bool_decide_eq_false_2 by (unfold UploadProxy.maxFileSize; lia).
      destruct (UploadProxy.backend env _) as [reply|e];
        [destruct (UploadProxy.ok reply)|]; simpl; apply list_elem_of_singleton;
        done.
Qed.

(** The proxy answers with the backend's body only when the backend
    replied with an ok status to the request it sent; when the backend
    replies with an error, the proxy answers 500 with the backend's error
    message, or "Failed to upload PDF" when there is none. *)
Theorem POST_relays_backend_outcome (env : UploadProxy.ProxyEnv)
    (request : UploadProxy.Fetch) (reply : UploadProxy.BackendReply) :
  snd (UploadProxy.POST env) = [request] →
  UploadProxy.backend env request = Ok reply →
  fst (UploadProxy.POST env)
    = if UploadProxy.ok reply
      then UploadProxy.Json (UploadProxy.json reply)
      else UploadProxy.JsonError 500
             (UploadProxy.orElse (UploadProxy.errorField reply) "Failed to upload PDF").
Proof.
  unfold UploadProxy.POST. intros Hsent Hreply.
  destruct (UploadProxy.getToken env) as [[token|]|e]; [|done..].
  destruct (UploadProxy.formData env) as [[|text|file]|e]; [done..| |done].
  case_bool_decide; simpl in *; [|done].
  case_bool_decide; [done|].
  destruct (UploadProxy.backend env _) as [reply'|e] eqn:Hbackend.
  - assert (reply' = reply) as ->.
    { destruct (UploadProxy.ok reply'); simpl in Hsent; simplify_eq;
        rewrite Hbackend in Hreply; by simplify_eq. }
    destruct (UploadProxy.ok reply); [done|]. simpl.
    unfold UploadProxy.orElse.
    by destruct (UploadProxy.errorField reply) as [[|a s]|].
  - simpl in Hsent. simplify_eq. rewrite Hbackend in Hreply. done.
Qed.

(** ** The viewer's toolbar *)

(** Paging with the toolbar never leaves the document: from a page between
    1 and [numPages], [handlePageChange] with any offset ends on a page
    between 1 and [numPages]; it either moves by the offset and reports the
    new page to the parent, or does nothing. *)
Theorem handlePageChange_stays_in_document (offset : Z) (v : Viewer.ViewerState) :
  1 ≤ Viewer.pageNumber v ≤ Viewer.numPages v →
  let '(v', notified) := Viewer.handlePageChange offset v in
  1 ≤ Viewer.pageNumber v' ≤ Viewer.numPages v'
  ∧ Viewer.numPages v' = Viewer.numPages v
  ∧ ((Viewer.pageNumber v' = Viewer.pageNumber v + offset
      ∧ notified = Some (Viewer.pageNumber v'))
     ∨ (v' = v ∧ notified = None)).
Proof.
  intros Hrange. unfold Viewer.handlePageChange.
  case_bool_decide as Hlow; [case_bool_decide as Hhigh|]; simpl.
  - split; [lia|]. split; [done|]. by left.
  - split; [lia|]. split; [done|]. by right.
  - split; [lia|]. split; [done|]. by right.
Qed.

(** Whatever the sum of the old scale and the step comes to, the scale
    after [handleZoom] lies between 0.5 and 2. *)
Theorem handleZoom_clamps (plus : QArith_base.Q → QArith_base.Q → QArith_base.Q)
    (delta : QArith_base.Q) (v : Viewer.ViewerState) :
  QArith_base.Qle (QArith_base.Qmake 1 2) (Viewer.scale (Viewer.handleZoom plus delta v))
  ∧ QArith_base.Qle (Viewer.scale (Viewer.handleZoom plus delta v))
      (QArith_base.Qmake 2 1).
Proof.
  unfold Viewer.handleZoom. simpl. split.
  - apply Qminmax.Q.le_max_l.
  - apply Qminmax.Q.max_lub; [done|]. apply Qminmax.Q.le_min_l.
Qed.

Lemma rotate_step (r : Z) :
  0 ≤ r < 360 →
  Z.rem (r + 90) 360 = (if bool_decide (r < 270) then r + 90 else r - 270).
Proof.
  intros Hr. case_bool_decide.
  - apply Z.rem_small. lia.
  - symmetry. apply (Z.rem_unique _ _ 1); lia.
Qed.

Ltac rotate_innermost :=
  match goal with
  | |- context [Z.rem (?x + 90) 360] =>
      lazymatch x with
      | context [Z.rem] => fail
      | _ => rewrite (rotate_step x) by lia; case_bool_decide
      end
  end.

(** A rotation between 0 and 359 stays in that range under [handleRotate],
    and four turns bring it back to where it was. *)
Theorem handleRotate_cycles (v : Viewer.ViewerState) :
  0 ≤ Viewer.rotation v < 360 →
  0 ≤ Viewer.rotation (Viewer.handleRotate v) < 360
  ∧ Viewer.handleRotate (Viewer.handleRotate
      (Viewer.handleRotate (Viewer.handleRotate v))) = v.
Proof.
  intros Hrange. destruct v as [n p s r]. simpl in *.
  split; [rewrite rotate_step by done; case_bool_decide; lia|].
  unfold Viewer.handleRotate. simpl. f_equal.
  repeat rotate_innermost; lia.
Qed.

Lemma handlePageChange_stays_in_document_witness :
  let '(v', notified) :=
    Viewer.handlePageChange 1 (Viewer.mkViewerState 3 2 (QArith_base.Qmake 1 1) 0) in
  1 ≤ Viewer.pageNumber v' ≤ Viewer.numPages v'
  ∧ Viewer.numPages v'
    = Viewer.numPages (Viewer.mkViewerState 3 2 (QArith_base.Qmake 1 1) 0)
  ∧ ((Viewer.pageNumber v'
      = Viewer.pageNumber (Viewer.mkViewerState 3 2 (QArith_base.Qmake 1 1) 0) + 1
      ∧ notified = Some (Viewer.pageNumber v'))
     ∨ (v' = Viewer.mkViewerState 3 2 (QArith_base.Qmake 1 1) 0 ∧ notified = None)).
Proof.
  apply (handlePageChange_stays_in_document 1
           (Viewer.mkViewerState 3 2 (QArith_base.Qmake 1 1) 0)).
  simpl. lia.
Defined.

Lemma handleRotate_cycles_witness :
  0 ≤ Viewer.rotation
        (Viewer.handleRotate (Viewer.mkViewerState 3 2 (QArith_base.Qmake 1 1) 270))
    < 360
  ∧ Viewer.handleRotate (Viewer.handleRotate (Viewer.handleRotate
      (Viewer.handleRotate (Viewer.mkViewerState 3 2 (QArith_base.Qmake 1 1) 270))))
    = Viewer.mkViewerState 3 2 (QArith_base.Qmake 1 1) 270.
Proof.
  apply (handleRotate_cycles (Viewer.mkViewerState 3 2 (QArith_base.Qmake 1 1) 270)).
  simpl. lia.
Defined.

(** ** The handlers on the scenario *)

Lemma requests_without_access_change_nothing_witness :
  (∃ status error,
     chatRoute Scenario.env (Some "intruder") 1 "c" Scenario.uploaded
       = (RespError status error, Scenario.uploaded)
     ∧ (status = 400 ∨ status = 404)%nat)
  ∧ (∃ status error,
       deleteRoute Scenario.env (Some "intruder") 1 Scenario.uploaded
         = (RespError status error, Scenario.uploaded)
       ∧ (status = 400 ∨ status = 404)%nat)
  ∧ (∃ status error,
       getPdfRoute Scenario.env (Some "intruder") 1 Scenario.uploaded
         = (FileError status error, Scenario.uploaded)
       ∧ (status = 400 ∨ status = 404)%nat)
  ∧ (∃ status error,
       historyRoute (Some "intruder") 1 Scenario.uploaded
         = (HistoryError status error, Scenario.uploaded)
       ∧ (status = 400 ∨ status = 404)%nat).
Proof.
  apply (requests_without_access_change_nothing Scenario.env (Some "intruder") 1 "c"
           Scenario.uploaded).
  intros uid Huid. injection Huid as <-. vm_compute. reflexivity.
Defined.

Lemma uploadRoute_error_leaves_nothing_witness :
  db (snd (uploadRoute Scenario.offline (Some Scenario.file) (Some "u1") Scenario.fresh))
    = db Scenario.fresh
  ∧ cache (snd (uploadRoute Scenario.offline (Some Scenario.file) (Some "u1")
                  Scenario.fresh))
    = cache Scenario.fresh
  ∧ files (snd (uploadRoute Scenario.offline (Some Scenario.file) (Some "u1")
                  Scenario.fresh))
      !! Path.normalize (up_path Scenario.file) = None.
Proof.
  apply (uploadRoute_error_leaves_nothing Scenario.offline Scenario.file (Some "u1")
           Scenario.fresh 500
           "Failed to process PDF document: Embedding request failed").
  vm_compute. reflexivity.
Defined.

Lemma uploadRoute_success_stores_record_witness :
  ∃ f uid chunks st1,
    Some Scenario.file = Some f ∧ presentHeader (Some "u1") = Some uid
    ∧ processPdf Scenario.env (up_path f) Scenario.fresh = (Ok (chunks, 1), st1)
    ∧ (1%nat ∉ docId <$> db Scenario.fresh)
    ∧ "notes.pdf" = up_originalname f
    ∧ db Scenario.uploaded
      = (db Scenario.fresh ++ [ {| docId := 1; userId := uid;
                                   filename := up_filename f;
                                   originalName := up_originalname f;
                                   pageCount := 1;
                                   documentChunks := castChunk <$> chunks;
                                   chatHistory := [] |} ])
    ∧ vectorStores Scenario.uploaded = vectorStores st1
    ∧ files Scenario.uploaded = files Scenario.fresh
    ∧ cache Scenario.uploaded = cache Scenario.fresh
    ∧ embedPasses Scenario.uploaded = embedPasses st1.
Proof.
  apply (uploadRoute_success_stores_record Scenario.env (Some Scenario.file)
           (Some "u1") Scenario.fresh 1 "notes.pdf" 1 Scenario.uploaded).
  vm_compute. reflexivity.
Defined.

Lemma deleteRoute_success_effects_witness :
  ∃ uid doc,
    presentHeader (Some "u1") = Some uid
    ∧ head (filter (λ d, docId d = 1%nat ∧ userId d = uid) (db Scenario.uploaded))
      = Some doc
    ∧ db More.deleted = filter (λ d, docId d ≠ 1%nat) (db Scenario.uploaded)
    ∧ files More.deleted !! Path.join (uploadsDir Scenario.env) (filename doc) = None
    ∧ cache More.deleted = cache Scenario.uploaded.
Proof.
  apply (deleteRoute_success_effects Scenario.env (Some "u1") 1 Scenario.uploaded
           More.deleted).
  vm_compute. reflexivity.
Defined.

Lemma handlers_keep_ids_unique_witness :
  NoDup (docId <$> db (snd (uploadRoute Scenario.env (Some Scenario.fileB) (Some "u2")
                              Scenario.uploaded)))
  ∧ NoDup (docId <$> db (snd (chatRoute Scenario.env (Some "u1") 1 "c"
                                Scenario.uploaded)))
  ∧ NoDup (docId <$> db (snd (deleteRoute Scenario.env (Some "u1") 1
                                Scenario.uploaded))).
Proof.
  assert (NoDup (docId <$> db Scenario.uploaded)) as Hnodup.
  { vm_compute. apply NoDup_singleton. }
  destruct (handlers_keep_ids_unique Scenario.env Scenario.uploaded Hnodup)
    as (Hupload & Hchat & Hdelete).
  split; [apply Hupload|]. split; [apply Hchat | apply Hdelete].
Defined.

Lemma chatRoute_touches_only_its_record_witness :
  length (db More.chatted) = length (db Scenario.uploaded)
  ∧ (∀ k d, db Scenario.uploaded !! k = Some d → docId d ≠ 2%nat →
       db (snd (chatRoute Scenario.env (Some "u1") 2 "c" Scenario.uploaded)) !! k
       = Some d).
Proof.
  split.
  - apply (chatRoute_touches_only_its_record Scenario.env (Some "u1") 1 "c"
             Scenario.uploaded
             (fst (chatRoute Scenario.env (Some "u1") 1 "c" Scenario.uploaded))
             More.chatted).
    unfold More.chatted. by destruct (chatRoute _ _ _ _ _).
  - apply (chatRoute_touches_only_its_record Scenario.env (Some "u1") 2 "c"
             Scenario.uploaded
             (fst (chatRoute Scenario.env (Some "u1") 2 "c" Scenario.uploaded))).
    by destruct (chatRoute _ _ _ _ _).
Defined.

Lemma historyRoute_after_chat_witness :
  historyRoute (Some "u1") 1 More.chatted
    = (HistoryOk Scenario.storedHistory, More.chatted).
Proof.
  apply (historyRoute_after_chat Scenario.env (Some "u1") 1 "c" Scenario.uploaded
           (answer Scenario.reply) (sourcePages Scenario.reply)
           (sources Scenario.reply)).
  vm_compute. reflexivity.
Defined.

Lemma deleted_document_is_out_of_reach_witness :
  (∃ status error,
     chatRoute Scenario.env (Some "u1") 1 "c" More.deleted
       = (RespError status error, More.deleted)
     ∧ (status = 400 ∨ status = 404)%nat)
  ∧ (∃ status error,
       deleteRoute Scenario.env (Some "u1") 1 More.deleted
         = (RespError status error, More.deleted)
       ∧ (status = 400 ∨ status = 404)%nat)
  ∧ (∃ status error,
       getPdfRoute Scenario.env (Some "u1") 1 More.deleted
         = (FileError status error, More.deleted)
       ∧ (status = 400 ∨ status = 404)%nat)
  ∧ (∃ status error,
       historyRoute (Some "u1") 1 More.deleted
         = (HistoryError status error, More.deleted)
       ∧ (status = 400 ∨ status = 404)%nat).
Proof.
  apply (deleted_document_is_out_of_reach Scenario.env (Some "u1") 1
           Scenario.uploaded More.deleted).
  vm_compute. reflexivity.
Defined.

Lemma deleteRoute_keeps_indexes_witness :
  vectorStores More.deleted !! "17-1.pdf"
    = vectorStores Scenario.uploaded !! "17-1.pdf".
Proof.
  apply (deleteRoute_keeps_indexes Scenario.env (Some "u1") 1 Scenario.uploaded
           More.deleted "17-1.pdf").
  - vm_compute. reflexivity.
  - reflexivity.
  - reflexivity.
Defined.

Lemma upload_then_chat_needs_no_rebuild_witness :
  ∃ vs,
    storeId vs = embedPasses Scenario.fresh
    ∧ embedPasses Scenario.uploaded = S (embedPasses Scenario.fresh)
    ∧ ∀ env', getVectorStore env' (storageFilename 17 1 "notes.pdf") Scenario.uploaded
              = (Ok vs, Scenario.uploaded).
Proof.
  apply (upload_then_chat_needs_no_rebuild Scenario.env 17 1 "notes.pdf" (Some "u1")
           Scenario.fresh 1 "notes.pdf" 1 Scenario.uploaded).
  vm_compute. reflexivity.
Defined.

Lemma POST_relays_backend_outcome_witness :
  fst (UploadProxy.POST More.proxyEnv)
    = if UploadProxy.ok (UploadProxy.mkBackendReply true None "{}")
      then UploadProxy.Json (UploadProxy.json (UploadProxy.mkBackendReply true None "{}"))
      else UploadProxy.JsonError 500
             (UploadProxy.orElse
                (UploadProxy.errorField (UploadProxy.mkBackendReply true None "{}"))
                "Failed to upload PDF").
Proof.
  apply (POST_relays_backend_outcome More.proxyEnv
           {| UploadProxy.url := "http://localhost:5000/pdf/upload";
              UploadProxy.xUserId := "u1";
              UploadProxy.sent :=
                UploadProxy.mkFormFile "notes.pdf" "application/pdf" 2048 |}).
  - reflexivity.
  - reflexivity.
Defined.
